(** * AppCreator: the LLM fallback orchestrator, the response extractors
      and the request log

    A shallow embedding of
    - [utils/llm_config.py] and [utils/llm_helpers.py] ([LLM_PRIORITY],
      [PROVIDER_FN], [query_llm]),
    - the three response parsers of [app.py]
      ([parse_framework_suggestion], [parse_tool_discovery_code_block],
      [extract_list_or_json]),
    - [utils/file_helpers.py] ([write_text_log]),
    - the provider functions [call_groq] and [call_gemini] of
      [utils/llm_helpers.py] and of [query_llm.py],
    - two steps of [main] in [app.py]: the cleaning of the diagram code and
      the rows of the framework comparison table.

    Python [str] values are Rocq strings; a character of type [ascii] stands
    for the code point of the same number (0..255).  Python objects that the
    functions hand around are values of [pyval]. *)

From Stdlib Require Import Ascii String ZArith Lia.
From stdpp Require Import base decidable option list gmap strings.

Local Open Scope Z_scope.
Local Open Scope nat_scope.

(** ** Python values *)

Set Warnings "-register-all".

Inductive pyval : Type :=
| PyNone
| PyBool (b : bool)
| PyInt (z : Z)
| PyFloat (lexeme : string)          (* a float, carried as the text that denotes it *)
| PyStr (s : string)
| PyList (items : list pyval)
| PyTuple (items : list pyval)
| PyDict (entries : list (pyval * pyval))
| PyOther (repr : string).           (* any other object, named by its repr *)

(** A list or a tuple: the values that the callers of the extractors can
    iterate over as a sequence of entries. *)
Definition is_sequence (v : pyval) : bool :=
  match v with
  | PyList _ | PyTuple _ => true
  | _ => false
  end.

Definition is_mapping (v : pyval) : bool :=
  match v with
  | PyDict _ => true
  | _ => false
  end.

(** Truth value of an optional string argument: [None] and [""] are falsy. *)
Definition truthy (o : option string) : bool :=
  match o with
  | None => false
  | Some s => negb (String.eqb s "")
  end.

(** ** utils/llm_helpers.py *)

Module LlmHelpers.

(** An entry of the priority list, [{"provider": ..., "model": ...}]. *)
Record conf : Type := Conf { conf_provider : string; conf_model : string }.

Definition conf_pair (c : conf) : string * string :=
  (conf_provider c, conf_model c).

Global Instance conf_eq_dec : EqDecision conf.
Proof. solve_decision. Defined.

(** What one call of a provider function does: it returns a value or raises
    an [Exception] whose [str] is [msg]. *)
Inductive outcome : Type :=
| Returns (v : pyval)
| Raises (msg : string).

(** A provider function ([call_groq], [call_gemini]).  Its result depends on
    the network and the process environment, so it is an oracle: besides
    the arguments [prompt], [model], [max_tokens], [temperature] of the call
    it sees the (provider, model) pairs already invoked during the query. *)
Abbreviation invoker :=
  (list (string * string) → string → string → Z → pyval → outcome).

(** What [query_llm] gives back to its caller. *)
Inductive result : Type :=
| Ok (v : pyval)
| RuntimeError (msg : string).

(** The local variables of [query_llm] that the loop updates; [calls] is the
    trace of provider invocations, in order. *)
Record loop_state : Type := LoopState {
  tried : gset (string * string);
  errors : list string;
  calls : list (string * string)
}.

Definition init_state : loop_state :=
  {| tried := ∅; errors := []; calls := [] |}.

(** [f"{prov}:{mod} -- {e}"] *)
Definition error_entry (prov mod_ e : string) : string :=
  prov +:+ ":" +:+ mod_ +:+ " -- " +:+ e.

(** ["All LLM providers failed. Errors: " + " | ".join(str(e) for e in errors)] *)
Definition failure_message (errs : list string) : string :=
  "All LLM providers failed. Errors: " +:+ String.concat " | " errs.

Section Orchestrator.
(** The two module-level tables; the values the repository gives them are
    [LLM_PRIORITY] and [PROVIDER_FN] below. *)
Variable provider_fn : gmap string invoker.
Variable llm_priority : list conf.

Variable prompt : string.
Variables (provider model : option string).
Variable max_tokens : Z.
Variable temperature : pyval.

(** Lines 57-64: the preferred pair first, then the priority list without
    the entries equal to [(provider, model)]. *)
Definition config_list : list conf :=
  (match provider, model with
   | Some p, Some m => if truthy provider && truthy model then [Conf p m] else []
   | _, _ => []
   end)
  ++ filter (λ p_conf, (Some (conf_provider p_conf), Some (conf_model p_conf)) ≠ (provider, model))
       llm_priority.

(** Lines 67-82: the loop over [config_list]; [Some v] is the early
    [return], [None] means the list is exhausted.  The two [print] calls
    write to the console only and are left out. *)
Fixpoint for_conf (confs : list conf) (st : loop_state) : loop_state * option pyval :=
  match confs with
  | [] => (st, None)
  | conf :: rest =>
    let prov := conf_provider conf in
    let mod_ := conf_model conf in
    match provider_fn !! prov with
    | None => for_conf rest st
    | Some fn =>
      if decide ((prov, mod_) ∈ tried st) then for_conf rest st
      else
        let st1 := {| tried := tried st ∪ {[ (prov, mod_) ]};
                      errors := errors st;
                      calls := calls st ++ [(prov, mod_)] |} in
        match fn (calls st) prompt mod_ max_tokens temperature with
        | Returns v => (st1, Some v)
        | Raises e =>
          for_conf rest {| tried := tried st1;
                           errors := errors st1 ++ [error_entry prov mod_ e];
                           calls := calls st1 |}
        end
    end
  end.

Definition query_llm_run : loop_state * option pyval :=
  for_conf config_list init_state.

Definition query_llm : result :=
  match query_llm_run with
  | (_, Some v) => Ok v
  | (st, None) => RuntimeError (failure_message (errors st))
  end.

(** The provider invocations made during the query, and the final error list. *)
Definition query_calls : list (string * string) := calls (fst query_llm_run).
Definition query_errors : list string := errors (fst query_llm_run).
End Orchestrator.

Section Trace.
Variable provider_fn : gmap string invoker.
Variable prompt : string.
Variable max_tokens : Z.
Variable temperature : pyval.

(** [failed cs es]: the pairs [cs] were invoked in this order, each one
    registered, not invoked before, and raising; [es] are the entries the
    loop recorded for them. *)
Inductive failed : list (string * string) → list string → Prop :=
| failed_nil : failed [] []
| failed_snoc cs es prov mod_ fn e :
    failed cs es →
    provider_fn !! prov = Some fn →
    (prov, mod_) ∉ cs →
    fn cs prompt mod_ max_tokens temperature = Raises e →
    failed (cs ++ [(prov, mod_)]) (es ++ [error_entry prov mod_ e]).

(** The loop invariant: the [tried] set holds exactly the invoked pairs. *)
Definition tracked (st : loop_state) : Prop :=
  (∀ a, a ∈ tried st ↔ a ∈ calls st) ∧ failed (calls st) (errors st).

Definition registered (c : conf) : Prop := is_Some (provider_fn !! conf_provider c).

Global Instance registered_dec c : Decision (registered c).
Proof. unfold registered. apply _. Defined.

End Trace.

(** utils/llm_config.py *)
Definition LLM_PRIORITY : list conf :=
  [ Conf "groq" "llama3-70b-8192"; Conf "google" "gemini-2.0-flash" ].

(** The dispatch table, over the two provider functions. *)
Definition PROVIDER_FN (call_groq call_gemini : invoker) : gmap string invoker :=
  {[ "groq" := call_groq; "google" := call_gemini ]}.

(** Provider functions with a fixed behaviour, standing for what the remote
    service does during one query. *)
Definition answering (v : pyval) : invoker := λ _ _ _ _ _, Returns v.
Definition failing (msg : string) : invoker := λ _ _ _ _ _, Raises msg.

End LlmHelpers.


(** ** Python string methods

    The methods of [str] that the parsers use, on code points 0..255. *)

Module PyStr.

Local Open Scope N_scope.

(** [c.isspace()] *)
Definition isspace (c : ascii) : bool :=
  let n := N_of_ascii c in
  ((9 <=? n) && (n <=? 13)) || ((28 <=? n) && (n <=? 32)) || (n =? 133) || (n =? 160).

(** The line boundaries of [str.splitlines]: LF, VT, FF, CR, FS, GS, RS, NEL. *)
Definition islinebreak (c : ascii) : bool :=
  let n := N_of_ascii c in
  ((10 <=? n) && (n <=? 13)) || ((28 <=? n) && (n <=? 30)) || (n =? 133).

(** [c.lower()]: A-Z, and the Latin-1 capitals U+00C0..U+00DE but U+00D7. *)
Definition lower_char (c : ascii) : ascii :=
  let n := N_of_ascii c in
  if ((65 <=? n) && (n <=? 90)) || ((192 <=? n) && (n <=? 222) && negb (n =? 215))
  then ascii_of_N (n + 32)
  else c.

(** [[a-zA-Z]] *)
Definition isalpha_ascii (c : ascii) : bool :=
  let n := N_of_ascii c in
  ((65 <=? n) && (n <=? 90)) || ((97 <=? n) && (n <=? 122)).

Local Close Scope N_scope.

(** The line feed, as a string of one character. *)
Definition LF : string := String "010" "".

(** [s] between double quotes. *)
Definition quoted (s : string) : string := String "034" (s +:+ String "034" "").

Fixpoint lower (s : string) : string :=
  match s with
  | "" => ""
  | String c s' => String (lower_char c) (lower s')
  end.

Fixpoint lstrip (s : string) : string :=
  match s with
  | "" => ""
  | String c s' => if isspace c then lstrip s' else s
  end.

Fixpoint rstrip (s : string) : string :=
  match s with
  | "" => ""
  | String c s' =>
    match rstrip s' with
    | "" => if isspace c then "" else String c ""
    | r => String c r
    end
  end.

(** [s.strip()] *)
Definition strip (s : string) : string := rstrip (lstrip s).

(** [s.startswith(prefix)] *)
Fixpoint startswith (s prefix_ : string) : bool :=
  match prefix_, s with
  | "", _ => true
  | String p prefix', String c s' => Ascii.eqb c p && startswith s' prefix'
  | String _ _, "" => false
  end.

(** [s.split(sep, 1)] for a separator of one character. *)
Fixpoint split_once (sep : ascii) (s : string) : list string :=
  match s with
  | "" => [""]
  | String c s' =>
    if Ascii.eqb c sep then [""; s']
    else match split_once sep s' with
         | head :: tail => String c head :: tail
         | [] => []
         end
  end.

(** [s[:n]] and [s[n:]] *)
Fixpoint slice_to (n : nat) (s : string) : string :=
  match n, s with
  | S n', String c s' => String c (slice_to n' s')
  | _, _ => ""
  end.

Fixpoint slice_from (n : nat) (s : string) : string :=
  match n, s with
  | S n', String _ s' => slice_from n' s'
  | _, _ => s
  end.

(** [c in s] *)
Fixpoint occurs (c : ascii) (s : string) : bool :=
  match s with
  | "" => false
  | String x s' => Ascii.eqb x c || occurs c s'
  end.

(** Every character of [s] satisfies [p]. *)
Fixpoint all_chars (p : ascii → bool) (s : string) : bool :=
  match s with
  | "" => true
  | String c s' => p c && all_chars p s'
  end.

(** [s.splitlines()] *)
Fixpoint splitlines (s : string) : list string :=
  match s with
  | "" => []
  | String c s' =>
    if islinebreak c then
      "" :: match s' with
            | String c' s'' =>
              if Ascii.eqb c "013" && Ascii.eqb c' "010" then splitlines s''
              else splitlines s'
            | "" => []
            end
    else match splitlines s' with
         | [] => [String c ""]
         | line :: lines => String c line :: lines
         end
  end.

End PyStr.

(** ** Regular expressions

    The part of Python's [re] that the three patterns of [app.py] use,
    with its backtracking order: alternatives are tried in the order the
    engine tries them and the first overall match wins.  All patterns are
    compiled with [re.DOTALL] and without [re.MULTILINE]. *)

Module Re.

Inductive regex : Type :=
| Chr (c : ascii)              (* a literal character *)
| Dot                          (* [.], any character under DOTALL *)
| Cls (p : ascii → bool)       (* a character class *)
| Bos                          (* [^]: the start of the string *)
| Eos                          (* [$]: the end, or before a final newline *)
| Cat (r1 r2 : regex)
| Star (greedy : bool) (r : regex)   (* [r*] and [r*?] *)
| Opt (r : regex).             (* [r?] *)

Definition at_end (s : string) : bool :=
  match s with
  | "" => true
  | String c "" => Ascii.eqb c "010"
  | _ => false
  end.

Definition or_else {A} (x y : option A) : option A :=
  match x with
  | Some a => Some a
  | None => y
  end.

Section Matcher.
Context {A : Type}.

(** A continuation gets the position reached and the text left. *)
Definition cont : Type := nat → string → option A.

(** Repetition of [body]: a greedy star tries one more round first, a lazy
    one tries the continuation first.  A round that consumes nothing ends
    the repetition. *)
Fixpoint star_loop (body : nat → string → cont → option A) (greedy : bool) (k : cont)
    (fuel pos : nat) (s : string) : option A :=
  match fuel with
  | 0 => k pos s
  | S fuel' =>
    let again :=
      body pos s (λ pos' s', if pos' =? pos then None
                             else star_loop body greedy k fuel' pos' s') in
    if greedy then or_else again (k pos s) else or_else (k pos s) again
  end.

Fixpoint run (r : regex) (pos : nat) (s : string) (k : cont) : option A :=
  match r with
  | Chr c =>
    match s with
    | String x s' => if Ascii.eqb x c then k (S pos) s' else None
    | "" => None
    end
  | Dot =>
    match s with
    | String _ s' => k (S pos) s'
    | "" => None
    end
  | Cls p =>
    match s with
    | String x s' => if p x then k (S pos) s' else None
    | "" => None
    end
  | Bos => if pos =? 0 then k pos s else None
  | Eos => if at_end s then k pos s else None
  | Cat r1 r2 => run r1 pos s (λ pos' s', run r2 pos' s' k)
  | Star greedy r1 => star_loop (run r1) greedy k (S (String.length s)) pos s
  | Opt r1 => or_else (run r1 pos s k) (k pos s)
  end.
End Matcher.

(** The two search orders of the engine, spelled out for the patterns
    [.*] and [.*?] in front of a continuation [k]: the furthest position
    where [k] succeeds, and the nearest one. *)
Fixpoint furthest {A} (k : @cont A) (pos : nat) (s : string) : option A :=
  match s with
  | "" => k pos ""
  | String _ s' => or_else (furthest k (S pos) s') (k pos s)
  end.

Fixpoint nearest {A} (k : @cont A) (pos : nat) (s : string) : option A :=
  match s with
  | "" => k pos ""
  | String _ s' => or_else (k pos s) (nearest k (S pos) s')
  end.

(** How far [$] is from the start of [s]: the number of characters in
    front of the end or of the final newline. *)
Fixpoint eos_offset (s : string) : nat :=
  match s with
  | "" => 0
  | String _ s' => if at_end s then 0 else S (eos_offset s')
  end.

(** A match of [r] that starts at [pos], where [s] is the text from [pos]
    on: the position just after the match. *)
Definition match_at (r : regex) (pos : nat) (s : string) : option nat :=
  run r pos s (λ pos' _, Some pos').

(** [re.search(r, s)], as [m.group(0)] of the match found: the leftmost
    start that matches. *)
Fixpoint search_from (r : regex) (pos : nat) (s : string) : option string :=
  match match_at r pos s with
  | Some e => Some (PyStr.slice_to (e - pos) s)
  | None =>
    match s with
    | String _ s' => search_from r (S pos) s'
    | "" => None
    end
  end.

Definition search (r : regex) (s : string) : option string := search_from r 0 s.

(** [re.sub(r, "", s)]: every match found from left to right is deleted;
    [skip] counts the characters of the current match still to drop.  An
    empty match deletes nothing and the scan moves on by one character. *)
Fixpoint sub_from (r : regex) (pos skip : nat) (s : string) : string :=
  match s with
  | "" => ""
  | String c s' =>
    match skip with
    | S skip' => sub_from r (S pos) skip' s'
    | 0 =>
      match match_at r pos s with
      | Some e =>
        match e - pos with
        | 0 => String c (sub_from r (S pos) 0 s')
        | S more => sub_from r (S pos) more s'
        end
      | None => String c (sub_from r (S pos) 0 s')
      end
    end
  end.

Definition sub_empty (r : regex) (s : string) : string := sub_from r 0 0 s.

End Re.

(** ** app.py: the response parsers *)

Module App.
Import PyStr.

(** *** parse_framework_suggestion *)

(** The loop over [lines]; [None] stands for the [IndexError] that
    [line.split(":", 1)[1]] raises on a line without a colon. *)
Fixpoint for_line (lines : list string) (framework : option string) (justification : string)
    : option (option string * string) :=
  match lines with
  | [] => Some (framework, justification)
  | line :: rest =>
    let lower_line := lower line in
    if startswith lower_line "framework:" then
      match split_once ":" line !! 1 with
      | Some value => for_line rest (Some (strip value)) justification
      | None => None
      end
    else if startswith lower_line "justification:" then
      match split_once ":" line !! 1 with
      | Some value => for_line rest framework (strip value)
      | None => None
      end
    else for_line rest framework justification
  end.

Definition parse_framework_suggestion (response : string) : option (option string * string) :=
  let lines := splitlines (strip response) in
  for_line lines None "".

(** The reading of the result that the statements about this parser use:
    the lines with a given label, and the value of such a line, which is
    what follows the label. *)
Definition labelled (label line : string) : Prop :=
  startswith (lower line) label = true.

Global Instance labelled_dec label line : Decision (labelled label line).
Proof. unfold labelled. apply _. Defined.

Definition value_of (label line : string) : string :=
  strip (slice_from (String.length label) line).

Definition first_value (label : string) (lines : list string) : option string :=
  value_of label <$> head (filter (labelled label) lines).

Definition last_value (label : string) (lines : list string) : option string :=
  value_of label <$> last (filter (labelled label) lines).

(** *** The fence patterns *)

(** [r"^.*?```[a-zA-Z]*\n?"] *)
Definition leading_fence : Re.regex :=
  Re.Cat Re.Bos
    (Re.Cat (Re.Star false Re.Dot)
       (Re.Cat (Re.Chr "`") (Re.Cat (Re.Chr "`") (Re.Cat (Re.Chr "`")
          (Re.Cat (Re.Star true (Re.Cls isalpha_ascii)) (Re.Opt (Re.Chr "010"))))))).

(** [r"```.*?$"] *)
Definition trailing_fence : Re.regex :=
  Re.Cat (Re.Chr "`") (Re.Cat (Re.Chr "`") (Re.Cat (Re.Chr "`")
    (Re.Cat (Re.Star false Re.Dot) Re.Eos))).

(** [r"\[.*\]"] *)
Definition bracketed : Re.regex :=
  Re.Cat (Re.Chr "[") (Re.Cat (Re.Star true Re.Dot) (Re.Chr "]")).

(** The continuation of [.*] in [bracketed]: a closing bracket comes next. *)
Definition closes : @Re.cont nat :=
  λ pos s, Re.run (Re.Chr "]") pos s (λ pos' _, Some pos').

(** *** parse_tool_discovery_code_block *)

(** What [exec(cleaned, {}, exec_vars)] does: it runs to the end and leaves
    the names it bound in [exec_vars]; or it raises an [Exception]; or it
    raises something that [except Exception] does not catch ([SystemExit],
    [KeyboardInterrupt]). *)
Inductive exec_outcome : Type :=
| ExecDone (exec_vars : gmap string pyval)
| ExecException
| ExecExit.

(** The result of the parser and, as an effect, the texts it executed. *)
Record tool_discovery : Type := ToolDiscovery {
  tools : option (pyval * pyval);      (* [None]: the exception went to the caller *)
  executed : list string
}.

Section ToolDiscovery.
(** The interpreter behind [exec]. *)
Variable exec_ : string → exec_outcome.

Definition parse_tool_discovery_code_block (response : string) : tool_discovery :=
  let cleaned := Re.sub_empty leading_fence response in
  let cleaned := strip (Re.sub_empty trailing_fence cleaned) in
  {| executed := [cleaned];
     tools :=
       match exec_ cleaned with
       | ExecDone exec_vars =>
         Some (default (PyList []) (exec_vars !! "internal_tools"),
               default (PyList []) (exec_vars !! "external_tools"))
       | ExecException => Some (PyList [], PyList [])
       | ExecExit => None
       end |}.
End ToolDiscovery.

(** *** extract_list_or_json *)

Section Extract.
(** [json.loads] and [ast.literal_eval]; [None] when they raise. *)
Variable json_loads : string → option pyval.
Variable literal_eval : string → option pyval.

(** Lines 64-67: the text without its fences. *)
Definition fence_stripped (response : string) : string :=
  let cleaned := strip response in
  let cleaned := Re.sub_empty leading_fence cleaned in
  strip (Re.sub_empty trailing_fence cleaned).

(** Lines 68-70: the text handed to the two parsers. *)
Definition payload (response : string) : string :=
  let cleaned := fence_stripped response in
  match Re.search bracketed cleaned with
  | Some bracket_match => bracket_match
  | None => cleaned
  end.

(** Lines 71-77. *)
Definition loads_or_eval (cleaned : string) : pyval :=
  match json_loads cleaned with
  | Some v => v
  | None =>
    match literal_eval cleaned with
    | Some v => v
    | None => PyList []
    end
  end.

Definition extract_list_or_json (response : string) : pyval :=
  loads_or_eval (payload response).
End Extract.

End App.

(** ** A reference reading of small JSON and Python texts

    [json.loads], [ast.literal_eval] and [exec] are library code; the
    parsers above take them as parameters.  To run the parsers on concrete
    responses, this module reads a small part of the two syntaxes: strings
    without escapes, decimal integers, lists, dictionaries with distinct
    string keys, the three constants, and, for [exec], blocks of
    assignments [name = expression] whose only call is [list(...)].  On a
    text outside that part the readers answer [None]: they do not say
    what the library does there. *)

Module Lite.

Inductive dialect : Type := Json | Python.

Inductive expr : Type :=
| EStr (s : string)
| ENum (z : Z)
| EName (name : string)
| EList (items : list expr)
| EDict (entries : list (expr * expr))
| ECall (callee : string) (args : list expr).

Local Open Scope N_scope.
Definition isdigit (c : ascii) : bool :=
  let n := N_of_ascii c in (48 <=? n) && (n <=? 57).
Definition isident (c : ascii) : bool :=
  let n := N_of_ascii c in
  PyStr.isalpha_ascii c || isdigit c || (n =? 95).
Definition isblank (d : dialect) (c : ascii) : bool :=
  let n := N_of_ascii c in
  match d with
  | Json => (n =? 32) || (n =? 9) || (n =? 10) || (n =? 13)
  | Python => (n =? 32) || (n =? 9)
  end.
(** A character that may stand in a string literal as it is. *)
Definition isplain (c : ascii) : bool :=
  let n := N_of_ascii c in
  (32 <=? n) && (n <=? 126) && negb (n =? 92).
Local Close Scope N_scope.

Fixpoint skip_blank (d : dialect) (s : string) : string :=
  match s with
  | String c s' => if isblank d c then skip_blank d s' else s
  | "" => ""
  end.

(** The characters of [s] up to the closing [quote]. *)
Fixpoint read_string (quote : ascii) (s : string) : option (string * string) :=
  match s with
  | "" => None
  | String c s' =>
    if Ascii.eqb c quote then Some ("", s')
    else if isplain c then
      match read_string quote s' with
      | Some (body, rest) => Some (String c body, rest)
      | None => None
      end
    else None
  end.

Fixpoint read_while (p : ascii → bool) (s : string) : string * string :=
  match s with
  | String c s' =>
    if p c then let '(w, rest) := read_while p s' in (String c w, rest) else ("", s)
  | "" => ("", "")
  end.

Fixpoint digits_value (acc : Z) (s : string) : Z :=
  match s with
  | String c s' => digits_value (10 * acc + Z.of_N (N_of_ascii c) - 48)%Z s'
  | "" => acc
  end.

(** A decimal integer without leading zeros, not followed by a fraction,
    an exponent or anything else that would continue a number or a name. *)
Definition read_int (s : string) : option (Z * string) :=
  let '(ds, rest) := read_while isdigit s in
  let ended :=
    match rest with
    | String c _ => negb (isident c || Ascii.eqb c ".")
    | "" => true
    end in
  match ds with
  | "" => None
  | String "0" (String _ _) => None
  | _ => if ended then Some (digits_value 0 ds, rest) else None
  end.

Definition isquote (d : dialect) (c : ascii) : bool :=
  match d with
  | Json => Ascii.eqb c "034"
  | Python => Ascii.eqb c "034" || Ascii.eqb c "'"
  end.

Fixpoint read_value (fuel : nat) (d : dialect) (s : string) : option (expr * string) :=
  match fuel with
  | 0 => None
  | S fuel' =>
    match skip_blank d s with
    | "" => None
    | String c s' =>
      if isquote d c then
        match read_string c s' with
        | Some (body, rest) => Some (EStr body, rest)
        | None => None
        end
      else if Ascii.eqb c "[" then
        match read_items fuel' d "]" (skip_blank d s') with
        | Some (items, rest) => Some (EList items, rest)
        | None => None
        end
      else if Ascii.eqb c "{" then
        match read_entries fuel' d (skip_blank d s') with
        | Some (entries, rest) => Some (EDict entries, rest)
        | None => None
        end
      else if Ascii.eqb c "-" then
        match read_int s' with
        | Some (z, rest) => Some (ENum (- z), rest)
        | None => None
        end
      else if isdigit c then
        match read_int (String c s') with
        | Some (z, rest) => Some (ENum z, rest)
        | None => None
        end
      else if PyStr.isalpha_ascii c then
        let '(name, rest) := read_while isident (String c s') in
        match d, rest with
        | Python, String "(" rest' =>
          match read_items fuel' d ")" (skip_blank d rest') with
          | Some (args, rest'') => Some (ECall name args, rest'')
          | None => None
          end
        | _, _ => Some (EName name, rest)
        end
      else None
    end
  end

(** The items of a list up to [close]; [s] starts at the first item or at
    [close]. *)
with read_items (fuel : nat) (d : dialect) (close : ascii) (s : string)
    : option (list expr * string) :=
  match fuel with
  | 0 => None
  | S fuel' =>
    match s with
    | "" => None
    | String c s' =>
      if Ascii.eqb c close then Some ([], s')
      else
        match read_value fuel' d s with
        | Some (item, rest) =>
          match skip_blank d rest with
          | String c' rest' =>
            if Ascii.eqb c' close then Some ([item], rest')
            else if Ascii.eqb c' "," then
              match skip_blank d rest' with
              | String c'' rest'' =>
                if Ascii.eqb c'' close then
                  (* a trailing comma: Python takes it, JSON does not *)
                  match d with
                  | Python => Some ([item], rest'')
                  | Json => None
                  end
                else
                  match read_items fuel' d close (String c'' rest'') with
                  | Some (items, rest3) => Some (item :: items, rest3)
                  | None => None
                  end
              | "" => None
              end
            else None
          | "" => None
          end
        | None => None
        end
    end
  end

with read_entries (fuel : nat) (d : dialect) (s : string)
    : option (list (expr * expr) * string) :=
  match fuel with
  | 0 => None
  | S fuel' =>
    match s with
    | "" => None
    | String c s' =>
      if Ascii.eqb c "}" then Some ([], s')
      else
        match read_value fuel' d s with
        | Some (key, rest) =>
          match skip_blank d rest with
          | String ":" rest1 =>
            match read_value fuel' d rest1 with
            | Some (value, rest2) =>
              match skip_blank d rest2 with
              | String c' rest3 =>
                if Ascii.eqb c' "}" then Some ([(key, value)], rest3)
                else if Ascii.eqb c' "," then
                  match skip_blank d rest3 with
                  | String c'' rest4 =>
                    if Ascii.eqb c'' "}" then
                      match d with
                      | Python => Some ([(key, value)], rest4)
                      | Json => None
                      end
                    else
                      match read_entries fuel' d (String c'' rest4) with
                      | Some (entries, rest5) => Some ((key, value) :: entries, rest5)
                      | None => None
                      end
                  | "" => None
                  end
                else None
              | "" => None
              end
            | None => None
            end
          | _ => None
          end
        | None => None
        end
    end
  end.

(** A whole text as one expression.  Only short texts are read: the
    libraries limit the depth of nesting and the number of digits. *)
Definition read_text (d : dialect) (s : string) : option expr :=
  if 150 <? String.length s then None
  else
    match read_value (S (String.length s)) d s with
    | Some (e, rest) =>
      match skip_blank d rest with
      | "" => Some e
      | _ => None
      end
    | None => None
    end.

Definition constant (d : dialect) (name : string) : option pyval :=
  match d with
  | Json =>
    if String.eqb name "null" then Some PyNone
    else if String.eqb name "true" then Some (PyBool true)
    else if String.eqb name "false" then Some (PyBool false)
    else None
  | Python =>
    if String.eqb name "None" then Some PyNone
    else if String.eqb name "True" then Some (PyBool true)
    else if String.eqb name "False" then Some (PyBool false)
    else None
  end.

Definition key_of (e : expr) : option string :=
  match e with
  | EStr s => Some s
  | _ => None
  end.

(** [list(v)] *)
Fixpoint chars (s : string) : list pyval :=
  match s with
  | "" => []
  | String c s' => PyStr (String c "") :: chars s'
  end.

(** The value of an expression.  [names] are the variables bound so far;
    without [calls] the expression has to be a literal. *)
Fixpoint eval (d : dialect) (calls : bool) (names : gmap string pyval) (e : expr)
    : option pyval :=
  match e with
  | EStr s => Some (PyStr s)
  | ENum z => Some (PyInt z)
  | EName name =>
    match constant d name with
    | Some v => Some v
    | None => if calls then names !! name else None
    end
  | EList items =>
    PyList <$> (fix go (l : list expr) : option (list pyval) :=
                  match l with
                  | [] => Some []
                  | x :: l' =>
                    match eval d calls names x, go l' with
                    | Some v, Some vs => Some (v :: vs)
                    | _, _ => None
                    end
                  end) items
  | EDict entries =>
    if bool_decide (NoDup (omap (λ kv, key_of kv.1) entries)) then
      PyDict <$> (fix go (l : list (expr * expr)) : option (list (pyval * pyval)) :=
                    match l with
                    | [] => Some []
                    | (k, x) :: l' =>
                      match key_of k, eval d calls names x, go l' with
                      | Some key, Some v, Some kvs => Some ((PyStr key, v) :: kvs)
                      | _, _, _ => None
                      end
                    end) entries
    else None
  | ECall callee args =>
    if calls && String.eqb callee "list" && bool_decide (names !! "list" = None) then
      match args with
      | [arg] =>
        match eval d calls names arg with
        | Some (PyStr s) => Some (PyList (chars s))
        | Some (PyList items) => Some (PyList items)
        | _ => None
        end
      | _ => None
      end
    else None
  end.

(** [json.loads] and [ast.literal_eval] on the texts this module reads. *)
Definition json_loads (s : string) : option pyval :=
  match read_text Json s with
  | Some e => eval Json false ∅ e
  | None => None
  end.

Definition literal_eval (s : string) : option pyval :=
  match read_text Python s with
  | Some e => eval Python false ∅ e
  | None => None
  end.

(** The lines of a block, split at LF. *)
Fixpoint lines_of (s : string) : list string :=
  match s with
  | "" => [""]
  | String c s' =>
    match lines_of s' with
    | line :: rest => if Ascii.eqb c "010" then "" :: line :: rest else String c line :: rest
    | [] => []
    end
  end.

(** The reserved words, which cannot be assigned to. *)
Definition iskeyword (name : string) : bool :=
  bool_decide (name ∈ ["False"; "None"; "True"; "and"; "as"; "assert"; "async"; "await";
                       "break"; "class"; "continue"; "def"; "del"; "elif"; "else";
                       "except"; "finally"; "for"; "from"; "global"; "if"; "import";
                       "in"; "is"; "lambda"; "nonlocal"; "not"; "or"; "pass"; "raise";
                       "return"; "try"; "while"; "with"; "yield"]).

(** One statement [name = expression]. *)
Definition exec_line (names : gmap string pyval) (line : string)
    : option (gmap string pyval) :=
  match line with
  | "" => Some names
  | String c _ =>
    if PyStr.isalpha_ascii c then
      let '(name, rest) := read_while isident line in
      match iskeyword name, skip_blank Python rest with
      | false, String "=" rest' =>
        match read_text Python rest' with
        | Some e =>
          match eval Python true names e with
          | Some v => Some (<[name := v]> names)
          | None => None
          end
        | None => None
        end
      | _, _ => None
      end
    else None
  end.

(** [exec] of a block of assignments: the names it binds. *)
Definition exec_block (s : string) : option (gmap string pyval) :=
  foldl (λ acc line, names ← acc; exec_line names line) (Some ∅) (lines_of s).

(** [exec] read this way; a block outside the part that is read counts as
    one that raises. *)
Definition exec_ (s : string) : App.exec_outcome :=
  match exec_block s with
  | Some names => App.ExecDone names
  | None => App.ExecException
  end.

End Lite.

(** ** utils/file_helpers.py *)

Module FileHelpers.

(** [datetime.datetime.now()]: the fields that [strftime] prints. *)
Record datetime : Type := DateTime {
  year : Z; month : Z; day : Z;
  hour : Z; minute : Z; second : Z
}.

Local Open Scope Z_scope.

(** The ranges of the fields of a [datetime] object. *)
Definition valid_datetime (t : datetime) : Prop :=
  1 ≤ year t ≤ 9999 ∧ 1 ≤ month t ≤ 12 ∧ 1 ≤ day t ≤ 31 ∧
  0 ≤ hour t < 24 ∧ 0 ≤ minute t < 60 ∧ 0 ≤ second t < 60.

Definition digit (n : Z) : ascii := ascii_of_N (Z.to_N (48 + n)).

Fixpoint decimal_go (fuel : nat) (n : Z) (acc : string) : string :=
  match fuel with
  | O => acc
  | S fuel' =>
    let acc' := String (digit (n mod 10)) acc in
    if n <? 10 then acc' else decimal_go fuel' (n / 10) acc'
  end.

(** [n >= 0] in decimal, without padding: [%Y] as the C library prints it. *)
Definition decimal (n : Z) : string := decimal_go (S (Z.to_nat n)) n "".

(** [%m], [%d], [%H], [%M], [%S]: two digits, zero-padded. *)
Definition pad2 (n : Z) : string :=
  if n <? 10 then "0" +:+ decimal n else decimal n.

Local Close Scope Z_scope.

(** [t.strftime("[%Y-%m-%d %H:%M:%S]")] *)
Definition strftime (t : datetime) : string :=
  "[" +:+ decimal (year t) +:+ "-" +:+ pad2 (month t) +:+ "-" +:+ pad2 (day t) +:+ " "
      +:+ pad2 (hour t) +:+ ":" +:+ pad2 (minute t) +:+ ":" +:+ pad2 (second t) +:+ "]".

(** The files as text (the platform writes LF as LF, and UTF-8 encodes
    every string), and the paths that [open(filename, "a")] refuses. *)
Record filesystem : Type := FileSystem {
  files : gmap string string;
  refused : gset string
}.

Inductive io_result : Type :=
| Written
| OSError.

Definition newline : string := String "010" "".

(** [write_text_log(text, filename)] at time [now]. *)
Definition write_text_log (now : datetime) (text filename : string) (fs : filesystem)
    : filesystem * io_result :=
  let timestamp := strftime now in
  if decide (filename ∈ refused fs) then (fs, OSError)
  else
    let f := default "" (files fs !! filename) in
    ({| files := <[filename := f +:+ timestamp +:+ " " +:+ text +:+ newline +:+ newline]> (files fs);
        refused := refused fs |},
     Written).

(** Reading a file back. *)
Definition read_text (fs : filesystem) (filename : string) : option string :=
  files fs !! filename.

(** [shaped shape s]: [s] follows [shape], where [d] in [shape] stands for
    a decimal digit and every other character for itself. *)
Fixpoint shaped (shape s : string) : bool :=
  match shape, s with
  | "", "" => true
  | String p shape', String c s' =>
    (if Ascii.eqb p "d" then Lite.isdigit c else Ascii.eqb c p) && shaped shape' s'
  | _, _ => false
  end.

Definition is_timestamp (s : string) : bool := shaped "[dddd-dd-dd dd:dd:dd]" s.

(** What [datetime.datetime.now()] returns: the fields in their ranges and
    a year of four digits (the system clock does not run before 1970). *)
Definition clock_time (t : datetime) : Prop :=
  valid_datetime t ∧ (1000 ≤ year t)%Z.

(** The number that a text of decimal digits denotes. *)
Definition digit_value (c : ascii) : Z := (Z.of_N (N_of_ascii c) - 48)%Z.

Fixpoint number_go (s : string) (acc : Z) : Z :=
  match s with
  | "" => acc
  | String c s' => number_go s' (10 * acc + digit_value c)%Z
  end.

Definition number (s : string) : Z := number_go s 0%Z.

(** Reading a timestamp [[YYYY-MM-DD HH:MM:SS]] back: the year from the
    four digits after the bracket, the month from the two digits after the
    first hyphen, and so on. *)
Definition read_timestamp (s : string) : option datetime :=
  if is_timestamp s then
    Some {| year := number (String.substring 1 4 s);
            month := number (String.substring 6 2 s);
            day := number (String.substring 9 2 s);
            hour := number (String.substring 12 2 s);
            minute := number (String.substring 15 2 s);
            second := number (String.substring 18 2 s) |}
  else None.

(** The entry that a reader finds after the first [n] characters of a log:
    the time its timestamp denotes, and its text. *)
Definition entry_after (n : nat) (content : string) : option (datetime * string) :=
  let entry := PyStr.slice_from n content in
  match read_timestamp (PyStr.slice_to 21 entry), PyStr.slice_from 21 entry with
  | Some time, String " " body =>
    if String.eqb (PyStr.slice_from (String.length body - 2) body) (newline +:+ newline)
    then Some (time, PyStr.slice_to (String.length body - 2) body)
    else None
  | _, _ => None
  end.

End FileHelpers.

(** ** Sequences of log entries *)

Module LogSequence.
Import FileHelpers.

(** What one call of [write_text_log] adds to the file. *)
Definition entry (now : datetime) (text : string) : string :=
  strftime now +:+ " " +:+ text +:+ PyStr.LF +:+ PyStr.LF.

(** Calls of [write_text_log] on one file, one after the other. *)
Fixpoint write_all (entries : list (datetime * string)) (filename : string)
    (fs : filesystem) : filesystem :=
  match entries with
  | [] => fs
  | (now, text) :: rest =>
    write_all rest filename (write_text_log now text filename fs).1
  end.

Definition entries_text (entries : list (datetime * string)) : string :=
  foldr (λ e acc, entry e.1 e.2 +:+ acc) "" entries.

End LogSequence.

(** ** Code fences, read directly

    What the two fence patterns do to a text, written as functions on the
    text itself. *)

Module Fences.
Import PyStr.

(** The text starts with three backticks. *)
Definition starts_fence (s : string) : bool := startswith s "```".

(** The text contains three backticks in a row. *)
Fixpoint has_fence (s : string) : bool :=
  match s with
  | "" => false
  | String _ s' => starts_fence s || has_fence s'
  end.

(** The text in front of the first fence (all of it without a fence). *)
Fixpoint before_fence (s : string) : string :=
  match s with
  | "" => ""
  | String c s' => if starts_fence s then "" else String c (before_fence s')
  end.

(** The text that follows the first fence. *)
Fixpoint after_fence (s : string) : option string :=
  match s with
  | "" => None
  | String _ s' => if starts_fence s then Some (slice_from 3 s) else after_fence s'
  end.

Fixpoint drop_while (p : ascii → bool) (s : string) : string :=
  match s with
  | "" => ""
  | String c s' => if p c then drop_while p s' else s
  end.

Fixpoint take_while (p : ascii → bool) (s : string) : string :=
  match s with
  | "" => ""
  | String c s' => if p c then String c (take_while p s') else ""
  end.

Definition drop_newline (s : string) : string :=
  match s with
  | String c s' => if Ascii.eqb c "010" then s' else s
  | "" => ""
  end.

(** The text after the opening fence line: after the first fence, the
    letters that follow it and one newline; all of it without a fence. *)
Definition after_open (s : string) : string :=
  match after_fence s with
  | Some rest => drop_newline (drop_while isalpha_ascii rest)
  | None => s
  end.

(** The continuation of [.*?] in [App.leading_fence]: a fence, letters
    and one newline come next. *)
Definition opens : @Re.cont nat :=
  λ pos s,
    Re.run (Re.Cat (Re.Chr "`") (Re.Cat (Re.Chr "`") (Re.Cat (Re.Chr "`")
              (Re.Cat (Re.Star true (Re.Cls isalpha_ascii)) (Re.Opt (Re.Chr "010"))))))
      pos s (λ pos' _, Some pos').

(** Every character of the text is none of the line boundaries. *)
Definition single_line (s : string) : bool :=
  all_chars (λ c, negb (islinebreak c)) s.

End Fences.

(** ** app.py, main: the cleaning of the diagram code (lines 483-500) *)

Module Mermaid.
Import PyStr.

(** [s.endswith(suffix)] *)
Definition endswith (s suffix : string) : bool :=
  (String.length suffix <=? String.length s)
  && String.eqb (slice_from (String.length s - String.length suffix) s) suffix.

(** The loop over the lines of the response. *)
Fixpoint for_line (lines : list string) (in_code_block : bool) (cleaned_code : string)
    : string :=
  match lines with
  | [] => cleaned_code
  | line :: rest =>
    let line := strip line in
    if startswith line "```mermaid" || startswith line "```" then
      for_line rest (negb in_code_block) cleaned_code
    else if in_code_block || startswith line "graph " || startswith line "flowchart " then
      for_line rest in_code_block (cleaned_code +:+ line +:+ LF)
    else for_line rest in_code_block cleaned_code
  end.

(** From [mermaid_code] to the value stored as [block_diagram_mermaid]. *)
Definition clean_mermaid_code (mermaid_code : string) : string :=
  let cleaned_code := for_line (splitlines (strip mermaid_code)) false "" in
  if String.eqb (strip cleaned_code) "" then
    let cleaned_code := strip mermaid_code in
    let cleaned_code :=
      if startswith cleaned_code "```mermaid"
      then strip (slice_from (String.length "```mermaid") cleaned_code)
      else cleaned_code in
    if endswith cleaned_code "```"
    then strip (slice_to (String.length cleaned_code - String.length "```") cleaned_code)
    else cleaned_code
  else cleaned_code.

(** The lines of a text, each one ended by a newline. *)
Definition lines_text (lines : list string) : string :=
  foldr (λ line acc, line +:+ LF +:+ acc) "" lines.

(** A line that opens or closes a code block. *)
Definition is_fence_line (line : string) : Prop :=
  Fences.starts_fence (strip line) = true.

Global Instance is_fence_line_dec line : Decision (is_fence_line line).
Proof. unfold is_fence_line. apply _. Defined.

(** A line that is kept outside a code block. *)
Definition is_header (line : string) : Prop :=
  startswith (strip line) "graph " = true ∨ startswith (strip line) "flowchart " = true.

Global Instance is_header_dec line : Decision (is_header line).
Proof. unfold is_header. apply _. Defined.

(** Whether the loop is inside a code block after [lines]. *)
Definition flag_after (lines : list string) (in_code_block : bool) : bool :=
  foldl (λ b line, if decide (is_fence_line line) then negb b else b) in_code_block lines.

End Mermaid.

(** ** The provider functions of utils/llm_helpers.py and query_llm.py *)

Module Providers.

(** What [resp.json()] returns: [None], a [bool], an [int], a [float]
    (carried as the text that denotes it), a [str], a [list], or a [dict]
    with [str] keys, given by its entries in the order of the text. *)
Inductive json : Type :=
| JNull
| JBool (b : bool)
| JInt (z : Z)
| JFloat (lexeme : string)
| JStr (s : string)
| JList (items : list json)
| JDict (entries : list (string * json)).

Fixpoint to_pyval (j : json) : pyval :=
  match j with
  | JNull => PyNone
  | JBool b => PyBool b
  | JInt z => PyInt z
  | JFloat lexeme => PyFloat lexeme
  | JStr s => PyStr s
  | JList items => PyList (map to_pyval items)
  | JDict entries => PyDict (map (λ entry, (PyStr (fst entry), to_pyval (snd entry))) entries)
  end.

(** The exceptions the provider functions let through. *)
Inductive exn : Type :=
| ValueError (msg : string)
| RequestError                       (* [requests.post] raises: there is no response *)
| HTTPError (status : Z)             (* [raise_for_status] *)
| JSONDecodeError                    (* [resp.json()] on a body that is not JSON *)
| KeyError (key : pyval)
| IndexError
| TypeError.

Inductive attempt (A : Type) : Type :=
| Done (a : A)
| Raise (e : exn).
Global Arguments Done {A} a.
Global Arguments Raise {A} e.

Global Instance attempt_ret : MRet attempt := λ A a, Done a.
Global Instance attempt_bind : MBind attempt :=
  λ A B f m, match m with Done a => f a | Raise e => Raise e end.

(** The keyword arguments of [requests.post]. *)
Record request : Type := Request {
  url : string;
  headers : list (string * string);
  json_ : pyval;
  timeout : Z
}.

(** A response: its status code and its body read as JSON, if it is JSON. *)
Record response : Type := Response {
  status_code : Z;
  body : option json
}.

(** The process environment and the network; [post w req = None] when
    [requests.post] raises. *)
Record world : Type := World {
  environ : gmap string string;
  post : request → option response
}.

(** [d[key]] on a [dict] read from JSON: of two entries with the same key
    the later one is the value. *)
Fixpoint dict_get (entries : list (string * json)) (key : string) : option json :=
  match entries with
  | [] => None
  | (k, v) :: rest =>
    match dict_get rest key with
    | Some v' => Some v'
    | None => if String.eqb k key then Some v else None
    end
  end.

(** [v[key]] for a [str] key. *)
Definition item (v : json) (key : string) : attempt json :=
  match v with
  | JDict entries =>
    match dict_get entries key with
    | Some x => Done x
    | None => Raise (KeyError (PyStr key))
    end
  | _ => Raise TypeError
  end.

(** [v[0]] *)
Definition item0 (v : json) : attempt json :=
  match v with
  | JList (x :: _) => Done x
  | JList [] => Raise IndexError
  | JStr (String c _) => Done (JStr (String c ""))
  | JStr "" => Raise IndexError
  | JDict entries =>
    (* the keys are [str] objects, none of them equals [0] *)
    Raise (KeyError (PyInt 0))
  | _ => Raise TypeError
  end.

(** [requests.post(...)], [raise_for_status()] and [json()]. *)
Definition exchange (w : world) (req : request) : attempt json :=
  match post w req with
  | None => Raise RequestError
  | Some resp =>
    if ((400 <=? status_code resp) && (status_code resp <? 600))%Z
    then Raise (HTTPError (status_code resp))
    else match body resp with
         | Some result => Done result
         | None => Raise JSONDecodeError
         end
  end.

Definition groq_request (groq_api_key prompt model : string) (max_tokens : Z)
    (temperature : pyval) : request :=
  {| url := "https://api.groq.com/openai/v1/chat/completions";
     headers := [("Authorization", "Bearer " +:+ groq_api_key);
                 ("Content-Type", "application/json")];
     json_ := PyDict [(PyStr "model", PyStr model);
                      (PyStr "messages",
                       PyList [PyDict [(PyStr "role", PyStr "user");
                                       (PyStr "content", PyStr prompt)]]);
                      (PyStr "max_tokens", PyInt max_tokens);
                      (PyStr "temperature", temperature)];
     timeout := 60 |}.

Definition gemini_request (google_api_key prompt model : string) (max_tokens : Z)
    (temperature : pyval) : request :=
  {| url := "https://generativelanguage.googleapis.com/v1beta/models/" +:+ model
            +:+ ":generateContent?key=" +:+ google_api_key;
     headers := [("Content-Type", "application/json")];
     json_ := PyDict [(PyStr "contents",
                       PyList [PyDict [(PyStr "parts",
                                        PyList [PyDict [(PyStr "text", PyStr prompt)]])]]);
                      (PyStr "generationConfig",
                       PyDict [(PyStr "maxOutputTokens", PyInt max_tokens);
                               (PyStr "temperature", temperature)])];
     timeout := 60 |}.

(** [result["choices"][0]["message"]["content"]] *)
Definition groq_content (result : json) : attempt json :=
  choices ← item result "choices";
  first ← item0 choices;
  message ← item first "message";
  item message "content".

(** [result["candidates"][0]["content"]["parts"][0]["text"]] *)
Definition gemini_text (result : json) : attempt json :=
  candidates ← item result "candidates";
  first ← item0 candidates;
  content ← item first "content";
  parts ← item content "parts";
  part ← item0 parts;
  item part "text".

(** utils/llm_helpers.py, lines 5-27.  The second component is the list of
    the calls of [requests.post]. *)
Definition call_groq (w : world) (prompt model : string) (max_tokens : Z)
    (temperature : pyval) : attempt json * list request :=
  let groq_api_key := environ w !! "GROQ_API_KEY" in
  match groq_api_key with
  | Some key =>
    if truthy groq_api_key then
      let req := groq_request key prompt model max_tokens temperature in
      (exchange w req ≫= groq_content, [req])
    else (Raise (ValueError "GROQ_API_KEY environment variable not set."), [])
  | None => (Raise (ValueError "GROQ_API_KEY environment variable not set."), [])
  end.

(** utils/llm_helpers.py, lines 29-44. *)
Definition call_gemini (w : world) (prompt model : string) (max_tokens : Z)
    (temperature : pyval) : attempt json * list request :=
  let google_api_key := environ w !! "GOOGLE_API_KEY" in
  match google_api_key with
  | Some key =>
    if truthy google_api_key then
      let req := gemini_request key prompt model max_tokens temperature in
      (exchange w req ≫= gemini_text, [req])
    else (Raise (ValueError "GOOGLE_API_KEY environment variable not set."), [])
  | None => (Raise (ValueError "GOOGLE_API_KEY environment variable not set."), [])
  end.

Section AsInvoker.
(** [str(e)] for the exceptions whose text the libraries compose. *)
Variable describe : exn → string.

Definition str (e : exn) : string :=
  match e with
  | ValueError msg => msg
  | _ => describe e
  end.

(** A provider function as [query_llm] sees it. *)
Definition as_invoker
    (call : string → string → Z → pyval → attempt json * list request)
    : LlmHelpers.invoker :=
  λ _ prompt model max_tokens temperature,
    match fst (call prompt model max_tokens temperature) with
    | Done v => LlmHelpers.Returns (to_pyval v)
    | Raise e => LlmHelpers.Raises (str e)
    end.
End AsInvoker.

End Providers.

(** ** query_llm.py: the provider functions with the guarded return *)

Module QueryLlm.
Import Providers.

(** [sub in s] for two [str] objects. *)
Fixpoint is_substring (sub s : string) : bool :=
  PyStr.startswith s sub ||
  match s with
  | "" => false
  | String _ s' => is_substring sub s'
  end.

(** [key in v] for a [str] key. *)
Definition contains (key : string) (v : json) : attempt bool :=
  match v with
  | JDict entries => Done (bool_decide (is_Some (dict_get entries key)))
  | JList items =>
    Done (existsb (λ x, match x with JStr s => String.eqb s key | _ => false end) items)
  | JStr s => Done (is_substring key s)
  | _ => Raise TypeError
  end.

Section Guarded.
(** Whether the [float] that a text denotes differs from zero. *)
Variable nonzero : string → bool.

(** The truth value of an object read from JSON. *)
Definition json_truthy (v : json) : bool :=
  match v with
  | JNull => false
  | JBool b => b
  | JInt z => negb (z =? 0)%Z
  | JFloat lexeme => nonzero lexeme
  | JStr s => negb (String.eqb s "")
  | JList items => match items with [] => false | _ => true end
  | JDict entries => match entries with [] => false | _ => true end
  end.

(** [path(content) if (key in content and content[key]) else None] *)
Definition guarded (key : string) (path : json → attempt json) (content : json)
    : attempt json :=
  present ← contains key content;
  if present : bool then
    value ← item content key;
    if json_truthy value then path content else Done JNull
  else Done JNull.

(** query_llm.py, lines 4-30. *)
Definition call_groq (w : world) (prompt model : string) (max_tokens : Z)
    (temperature : pyval) : attempt json * list request :=
  let groq_api_key := environ w !! "GROQ_API_KEY" in
  match groq_api_key with
  | Some key =>
    if truthy groq_api_key then
      let req := groq_request key prompt model max_tokens temperature in
      (exchange w req ≫= guarded "choices" groq_content, [req])
    else (Raise (ValueError "GROQ_API_KEY environment variable not found."), [])
  | None => (Raise (ValueError "GROQ_API_KEY environment variable not found."), [])
  end.

(** query_llm.py, lines 32-56. *)
Definition call_gemini (w : world) (prompt model : string) (max_tokens : Z)
    (temperature : pyval) : attempt json * list request :=
  let google_api_key := environ w !! "GOOGLE_API_KEY" in
  match google_api_key with
  | Some key =>
    if truthy google_api_key then
      let req := gemini_request key prompt model max_tokens temperature in
      (exchange w req ≫= guarded "candidates" gemini_text, [req])
    else (Raise (ValueError "GOOGLE_API_KEY environment variable not found."), [])
  | None => (Raise (ValueError "GOOGLE_API_KEY environment variable not found."), [])
  end.
End Guarded.

End QueryLlm.

(** ** app.py, main: the rows of the framework comparison table *)

Module Tables.

(** [s.replace(old, new)] for [old] of one character. *)
Fixpoint replace_char (old : ascii) (new : string) (s : string) : string :=
  match s with
  | "" => ""
  | String c s' =>
    if Ascii.eqb c old then new +:+ replace_char old new s'
    else String c (replace_char old new s')
  end.

(** [value.replace("\n", " ").replace("|", "\\|")] *)
Definition cell (value : string) : string :=
  replace_char "|" "\|" (replace_char "010" " " value).

(** [f"| {benchmark} | {val1} | {val2} | {justification} |"] *)
Definition table_row (benchmark val1 val2 justification : string) : string :=
  "| " +:+ cell benchmark +:+ " | " +:+ cell val1 +:+ " | " +:+ cell val2
  +:+ " | " +:+ cell justification +:+ " |".

(** The number of [|] in a text that do not directly follow a backslash;
    [escaped] tells whether the text is preceded by a backslash. *)
Fixpoint bare_pipes (escaped : bool) (s : string) : nat :=
  match s with
  | "" => 0
  | String c s' =>
    (if Ascii.eqb c "|" && negb escaped then 1 else 0) + bare_pipes (Ascii.eqb c "\") s'
  end.

(** Whether a backslash precedes what follows the text. *)
Fixpoint ends_escaped (escaped : bool) (s : string) : bool :=
  match s with
  | "" => escaped
  | String c s' => ends_escaped (Ascii.eqb c "\") s'
  end.

End Tables.
(** * Theorems *)

Import LlmHelpers.

(** ** The fallback orchestrator *)

Section OrchestratorFacts.
Variable provider_fn : gmap string invoker.
Variable prompt : string.
Variable max_tokens : Z.
Variable temperature : pyval.

Local Abbreviation loop := (for_conf provider_fn prompt max_tokens temperature).
Local Abbreviation failed := (LlmHelpers.failed provider_fn prompt max_tokens temperature).
Local Abbreviation tracked := (LlmHelpers.tracked provider_fn prompt max_tokens temperature).

Lemma tracked_init : tracked init_state.
Proof. split; [set_solver | constructor]. Qed.

Lemma failed_length cs es : failed cs es → length es = length cs.
Proof. induction 1; rewrite ?length_app; simpl; lia. Qed.

Lemma failed_NoDup cs es : failed cs es → NoDup cs.
Proof.
  induction 1; [constructor|].
  apply NoDup_app. split_and!; [done| |apply NoDup_singleton].
  intros a Ha Hin. apply list_elem_of_singleton in Hin. congruence.
Qed.

Lemma failed_registered cs es a :
  failed cs es → a ∈ cs → is_Some (provider_fn !! a.1).
Proof.
  induction 1 as [|cs es prov mod_ fn e _ IH Hfn _ _]; intros Ha.
  - by apply elem_of_nil in Ha.
  - apply elem_of_app in Ha as [Ha|Ha]; [auto|].
    apply list_elem_of_singleton in Ha as ->. by exists fn.
Qed.

(** Entry [i] of the error list is the entry of call [i]. *)
Lemma failed_lookup cs es i entry :
  failed cs es → es !! i = Some entry →
  ∃ prov mod_ fn e,
    cs !! i = Some (prov, mod_) ∧ provider_fn !! prov = Some fn ∧
    fn (take i cs) prompt mod_ max_tokens temperature = Raises e ∧
    entry = error_entry prov mod_ e.
Proof.
  induction 1 as [|cs es prov mod_ fn e Hf IH Hfn Hnew Hr]; intros Hi.
  - by rewrite lookup_nil in Hi.
  - pose proof (failed_length _ _ Hf) as Hlen.
    destruct (decide (i < length es)) as [Hlt|Hge].
    + rewrite lookup_app_l in Hi by done.
      destruct (IH Hi) as (p & m & f & e' & Hc & Hp & Hcall & ->).
      exists p, m, f, e'. split_and!; [|done| |done].
      * rewrite lookup_app_l by lia. done.
      * rewrite take_app_le by lia. done.
    + rewrite lookup_app_r in Hi by lia.
      destruct (i - length es) as [|k] eqn:Hk; simpl in Hi; [|by rewrite lookup_nil in Hi].
      injection Hi as <-. assert (i = length cs) as -> by lia.
      exists prov, mod_, fn, e. split_and!; [|done| |done].
      * rewrite lookup_app_r by lia. by rewrite Nat.sub_diag.
      * rewrite take_app_le by lia. by rewrite firstn_all.
Qed.

(** The loop on a concatenation: the second part runs only if the first
    one is exhausted without a [return]. *)
Lemma for_conf_app l1 l2 st :
  loop (l1 ++ l2) st =
  match loop l1 st with
  | (st', Some v) => (st', Some v)
  | (st', None) => loop l2 st'
  end.
Proof.
  revert st. induction l1 as [|c l1 IH]; intros st; simpl; [done|].
  destruct (provider_fn !! conf_provider c) as [fn|]; [|apply IH].
  destruct (decide _); [apply IH|].
  destruct (fn _ _ _ _ _); [done|apply IH].
Qed.

(** What a run of the loop establishes, whichever way it ends. *)
Lemma for_conf_tracked confs st st' r :
  tracked st → loop confs st = (st', r) →
  match r with
  | None => tracked st'
  | Some v =>
    ∃ prov mod_ fn cs,
      failed cs (errors st') ∧ calls st' = cs ++ [(prov, mod_)] ∧
      ((prov, mod_) ∉ cs) ∧ provider_fn !! prov = Some fn ∧
      fn cs prompt mod_ max_tokens temperature = Returns v
  end.
Proof.
  revert st. induction confs as [|c confs IH]; intros st Hst Hrun; simpl in Hrun.
  - by injection Hrun as <- <-.
  - destruct (provider_fn !! conf_provider c) as [fn|] eqn:Hfn; [|by eapply IH].
    destruct (decide _) as [Hin|Hnin]; [by eapply IH|].
    destruct Hst as [Htr Hf].
    assert ((conf_provider c, conf_model c) ∉ calls st) as Hnew by (by rewrite <-Htr).
    destruct (fn _ _ _ _ _) as [v|e] eqn:Hcall.
    + injection Hrun as <- <-. simpl. eauto 10.
    + eapply IH; [|exact Hrun]. split; simpl.
      * intros a. rewrite elem_of_union, elem_of_singleton, elem_of_app,
          list_elem_of_singleton, Htr. done.
      * by econstructor.
Qed.

(** The invoked pairs extend the earlier ones by candidates of the list,
    in the order of the list. *)
Lemma for_conf_calls confs st st' r :
  loop confs st = (st', r) →
  ∃ new, calls st' = calls st ++ new ∧ new `sublist_of` (conf_pair <$> confs) ∧
         ∀ a, a ∈ tried st' ↔ a ∈ tried st ∨ a ∈ new.
Proof.
  revert st. induction confs as [|c confs IH]; intros st Hrun; simpl in Hrun.
  - injection Hrun as <- <-. exists []. rewrite app_nil_r. split_and!; [done..|].
    intros a. rewrite elem_of_nil. tauto.
  - assert (∀ new, new `sublist_of` (conf_pair <$> confs) →
                   new `sublist_of` (conf_pair <$> (c :: confs))) as Hskip
      by (intros new Hn; simpl; by apply sublist_cons).
    destruct (provider_fn !! conf_provider c) as [fn|] eqn:Hfn;
      [|destruct (IH _ Hrun) as (new & ? & ? & ?); exists new; auto].
    destruct (decide _) as [Hin|Hnin];
      [destruct (IH _ Hrun) as (new & ? & ? & ?); exists new; auto|].
    destruct (fn _ _ _ _ _) as [v|e] eqn:Hcall.
    + injection Hrun as <- <-. simpl. exists [conf_pair c]. split_and!; [done| |].
      * simpl. apply sublist_skip, sublist_nil_l.
      * intros a. rewrite elem_of_union, elem_of_singleton, list_elem_of_singleton. done.
    + destruct (IH _ Hrun) as (new & Hc & Hs & Ht). simpl in *.
      exists (conf_pair c :: new). split_and!.
      * rewrite Hc, <-app_assoc. done.
      * by apply sublist_skip.
      * intros a. rewrite Ht, elem_of_union, elem_of_singleton, elem_of_cons.
        unfold conf_pair. tauto.
Qed.
End OrchestratorFacts.

Section QueryFacts.
Variable provider_fn : gmap string invoker.
Variable llm_priority : list conf.
Variable prompt : string.
Variable max_tokens : Z.
Variable temperature : pyval.

Local Abbreviation loop := (for_conf provider_fn prompt max_tokens temperature).
Local Abbreviation candidates := (config_list llm_priority).
Local Abbreviation run := (query_llm_run provider_fn llm_priority prompt).
Local Abbreviation query := (query_llm provider_fn llm_priority prompt).
Local Abbreviation invoked := (query_calls provider_fn llm_priority prompt).
Local Abbreviation recorded := (query_errors provider_fn llm_priority prompt).
Local Abbreviation failed' := (failed provider_fn prompt max_tokens temperature).
Local Abbreviation registered := (LlmHelpers.registered provider_fn).

Lemma for_conf_skip skipped confs st :
  Forall (λ c, provider_fn !! conf_provider c = None) skipped →
  loop (skipped ++ confs) st = loop confs st.
Proof.
  induction 1 as [|c skipped Hc _ IH]; [done|].
  simpl in *. by rewrite Hc.
Qed.

Lemma for_conf_filter_registered confs st :
  loop (filter registered confs) st = loop confs st.
Proof.
  revert st. induction confs as [|c confs IH]; intros st; [done|].
  rewrite filter_cons. destruct (decide (registered c)) as [Hr|Hr]; simpl.
  - destruct (provider_fn !! conf_provider c) as [fn|]; [|apply IH].
    destruct (decide _); [apply IH|]. destruct (fn _ _ _ _ _); [done|apply IH].
  - unfold LlmHelpers.registered in Hr. destruct (provider_fn !! conf_provider c) eqn:E; [|apply IH].
    exfalso. apply Hr. eauto.
Qed.

(** If every invocation of a registered candidate raises, the loop runs to
    the end of the list. *)
Lemma for_conf_all_raise confs st :
  (∀ c fn h, c ∈ confs → provider_fn !! conf_provider c = Some fn →
             ∃ e, fn h prompt (conf_model c) max_tokens temperature = Raises e) →
  ∃ st', loop confs st = (st', None).
Proof.
  revert st. induction confs as [|c confs IH]; intros st Hall; simpl; [eauto|].
  assert (∀ st0, ∃ st', loop confs st0 = (st', None)) as IH'.
  { intros st0. apply IH. intros c' fn h Hc'. apply Hall. by right. }
  destruct (provider_fn !! conf_provider c) as [fn|] eqn:Hfn; [|apply IH'].
  destruct (decide _); [apply IH'|].
  destruct (Hall c fn (calls st)) as [e ->]; [by left|done|]. apply IH'.
Qed.

(** When the loop is exhausted, every registered candidate is in [tried]. *)
Lemma for_conf_exhausted confs st st' c :
  loop confs st = (st', None) → c ∈ confs → registered c →
  conf_pair c ∈ tried st'.
Proof.
  revert st. induction confs as [|c0 confs IH]; intros st Hrun Hc Hreg.
  - by apply elem_of_nil in Hc.
  - simpl in Hrun. apply elem_of_cons in Hc as [->|Hc].
    + destruct Hreg as [fn Hfn]. rewrite Hfn in Hrun.
      destruct (decide _) as [Hin|Hnin].
      * destruct (for_conf_calls _ _ _ _ _ _ _ _ Hrun) as (new & _ & _ & Ht).
        apply Ht. by left.
      * destruct (fn _ _ _ _ _); [done|].
        destruct (for_conf_calls _ _ _ _ _ _ _ _ Hrun) as (new & _ & _ & Ht).
        apply Ht. left. simpl. apply elem_of_union. right. by apply elem_of_singleton.
    + destruct (provider_fn !! conf_provider c0) as [fn|]; [|by eapply IH].
      destruct (decide _); [by eapply IH|].
      destruct (fn _ _ _ _ _); [done|]. by eapply IH.
Qed.

Lemma query_run_cases provider model :
  match run provider model max_tokens temperature with
  | (st, None) => failed' (calls st) (errors st) ∧ ∀ a, a ∈ tried st ↔ a ∈ calls st
  | (st, Some v) =>
    ∃ prov mod_ fn cs,
      failed' cs (errors st) ∧ calls st = cs ++ [(prov, mod_)] ∧
      ((prov, mod_) ∉ cs) ∧ provider_fn !! prov = Some fn ∧
      fn cs prompt mod_ max_tokens temperature = Returns v
  end.
Proof.
  unfold query_llm_run.
  destruct (loop _ _) as [st r] eqn:Hrun.
  pose proof (for_conf_tracked _ _ _ _ _ _ _ _ (tracked_init _ _ _ _) Hrun) as H.
  destruct r; [done|]. destruct H. done.
Qed.

Lemma query_calls_NoDup provider model :
  NoDup (invoked provider model max_tokens temperature).
Proof.
  unfold query_calls. pose proof (query_run_cases provider model) as H.
  destruct (run _ _ _ _) as [st [v|]]; simpl.
  - destruct H as (prov & mod_ & fn & cs & Hf & -> & Hnew & _).
    apply NoDup_app. split_and!; [by eapply failed_NoDup| |apply NoDup_singleton].
    intros a Ha Hin. apply list_elem_of_singleton in Hin. congruence.
  - destruct H as [Hf _]. by eapply failed_NoDup.
Qed.

Lemma query_calls_registered provider model a :
  a ∈ invoked provider model max_tokens temperature → is_Some (provider_fn !! a.1).
Proof.
  unfold query_calls. pose proof (query_run_cases provider model) as H.
  destruct (run _ _ _ _) as [st [v|]]; simpl.
  - destruct H as (prov & mod_ & fn & cs & Hf & -> & Hnew & Hfn & _).
    intros [Ha|Ha]%elem_of_app; [by eapply failed_registered|].
    apply list_elem_of_singleton in Ha as ->. by exists fn.
  - destruct H as [Hf _]. intros Ha. by eapply failed_registered.
Qed.

Lemma NoDup_count_one {A} `{EqDecision A} (l : list A) (a : A) :
  NoDup l → a ∈ l → length (filter (λ x, x = a) l) = 1.
Proof.
  induction 1 as [|x l Hx Hl IH]; intros Ha; [by apply elem_of_nil in Ha|].
  rewrite filter_cons. destruct (decide (x = a)) as [->|Hne].
  - simpl. f_equal. clear IH Ha Hl.
    induction l as [|y l IHl]; [done|]. apply not_elem_of_cons in Hx as [Hy Hx].
    rewrite filter_cons. destruct (decide (y = a)); [congruence|auto].
  - apply IH. apply elem_of_cons in Ha as [->|Ha]; done.
Qed.

(** C1. If the first candidate that is attempted (the candidates before it
    have no registered provider function and are skipped) returns
    non-empty text, [query_llm] returns exactly that text, and the only
    provider invocation of the whole query is that one. *)
Theorem query_llm_first_success provider model skipped c rest fn t :
  candidates provider model = skipped ++ c :: rest →
  Forall (λ c', provider_fn !! conf_provider c' = None) skipped →
  provider_fn !! conf_provider c = Some fn →
  fn [] prompt (conf_model c) max_tokens temperature = Returns (PyStr t) →
  t ≠ "" →
  query provider model max_tokens temperature = Ok (PyStr t) ∧
  invoked provider model max_tokens temperature = [conf_pair c].
Proof.
  intros Hlist Hskip Hfn Hcall _.
  unfold query_llm, query_calls, query_llm_run. rewrite Hlist.
  rewrite for_conf_skip by done. simpl. rewrite Hfn.
  destruct (decide _) as [Hin|_]; [by apply not_elem_of_empty in Hin|].
  simpl. by rewrite Hcall.
Qed.

(** C3. If every invocation of a candidate raises, [query_llm] raises the
    all-providers-failed error; its message is the fixed prefix followed by
    the recorded entries joined with [" | "]; there is exactly one entry
    per invoked pair, the invoked pairs are the distinct registered
    candidates, and entry [i] is [provider:model -- reason] for the [i]-th
    invoked pair and the reason its provider function raised. *)
Theorem query_llm_all_providers_failed provider model :
  (∀ c fn h, c ∈ candidates provider model →
             provider_fn !! conf_provider c = Some fn →
             ∃ e, fn h prompt (conf_model c) max_tokens temperature = Raises e) →
  let cs := invoked provider model max_tokens temperature in
  let es := recorded provider model max_tokens temperature in
  query provider model max_tokens temperature
    = RuntimeError ("All LLM providers failed. Errors: " +:+ String.concat " | " es) ∧
  length es = length cs ∧
  NoDup cs ∧
  (∀ a, a ∈ cs ↔ ∃ c, c ∈ candidates provider model ∧ registered c ∧ conf_pair c = a) ∧
  (∀ i entry, es !! i = Some entry →
     ∃ prov mod_ fn reason,
       cs !! i = Some (prov, mod_) ∧ provider_fn !! prov = Some fn ∧
       fn (take i cs) prompt mod_ max_tokens temperature = Raises reason ∧
       entry = prov +:+ ":" +:+ mod_ +:+ " -- " +:+ reason).
Proof.
  intros Hall cs es.
  destruct (for_conf_all_raise (candidates provider model) init_state Hall) as [st Hrun].
  pose proof (query_run_cases provider model) as Hcases.
  assert (cs = calls st) as Hcs by (unfold cs, query_calls, query_llm_run; by rewrite Hrun).
  assert (es = errors st) as Hes by (unfold es, query_errors, query_llm_run; by rewrite Hrun).
  unfold query_llm_run in Hcases. rewrite Hrun in Hcases. destruct Hcases as [Hf Htr].
  rewrite Hcs, Hes. split_and!.
  - unfold query_llm, query_llm_run. by rewrite Hrun.
  - by eapply failed_length.
  - by eapply failed_NoDup.
  - intros a. split.
    + intros Ha.
      destruct (for_conf_calls _ _ _ _ _ _ _ _ Hrun) as (new & Hnew & Hsub & _).
      simpl in Hnew. subst new.
      assert (a ∈ conf_pair <$> candidates provider model) as Hin
        by (eapply elem_of_sublist; eauto).
      apply list_elem_of_fmap in Hin as (c & -> & Hc).
      exists c. split_and!; [done| |done].
      apply (failed_registered _ _ _ _ _ _ _ Hf Ha).
    + intros (c & Hc & Hreg & <-). apply Htr. by eapply for_conf_exhausted.
  - intros i entry Hi. by eapply failed_lookup.
Qed.

(** C5, as the code has it.  The value returned by the first invocation
    that does not raise is the result of [query_llm], whatever that value
    is (the empty string included): when the candidates before [c] were
    skipped or raised, and [c] is invoked and returns [v], the query ends
    with [v], no later candidate is invoked and nothing is added to the
    error list. *)
Theorem query_llm_returns_first_value provider model pre c rest st fn v :
  candidates provider model = pre ++ c :: rest →
  loop pre init_state = (st, None) →
  provider_fn !! conf_provider c = Some fn →
  conf_pair c ∉ calls st →
  fn (calls st) prompt (conf_model c) max_tokens temperature = Returns v →
  query provider model max_tokens temperature = Ok v ∧
  invoked provider model max_tokens temperature = calls st ++ [conf_pair c] ∧
  recorded provider model max_tokens temperature = errors st.
Proof.
  intros Hlist Hpre Hfn Hnew Hcall.
  pose proof (for_conf_tracked _ _ _ _ _ _ _ _ (tracked_init _ _ _ _) Hpre) as [Htr _].
  assert (loop (candidates provider model) init_state
          = ({| tried := tried st ∪ {[ conf_pair c ]}; errors := errors st;
                calls := calls st ++ [conf_pair c] |}, Some v)) as Hrun.
  { rewrite Hlist, for_conf_app, Hpre. simpl. rewrite Hfn.
    destruct (decide _) as [Hin|_]; [by apply Htr in Hin|]. by rewrite Hcall. }
  unfold query_llm, query_calls, query_errors, query_llm_run. by rewrite Hrun.
Qed.

(** C9. A candidate whose provider has no registered function is skipped:
    the run is the run on the registered candidates alone; every invoked
    pair and every recorded entry belongs to a registered provider; and a
    preferred pair naming an unknown provider changes nothing at all
    (result, error list and invocations are those of the query without a
    preferred pair). *)
Theorem query_llm_skips_unregistered provider model :
  run provider model max_tokens temperature
    = loop (filter registered (candidates provider model)) init_state ∧
  (∀ a, a ∈ invoked provider model max_tokens temperature → is_Some (provider_fn !! a.1)) ∧
  (∀ entry, entry ∈ recorded provider model max_tokens temperature →
     ∃ prov mod_ reason,
       is_Some (provider_fn !! prov) ∧
       (prov, mod_) ∈ invoked provider model max_tokens temperature ∧
       entry = prov +:+ ":" +:+ mod_ +:+ " -- " +:+ reason) ∧
  (∀ p m, provider = Some p → model = Some m → provider_fn !! p = None →
     run provider model max_tokens temperature = run None None max_tokens temperature ∧
     query provider model max_tokens temperature = query None None max_tokens temperature).
Proof.
  split_and!.
  - unfold query_llm_run. by rewrite for_conf_filter_registered.
  - intros a. apply query_calls_registered.
  - intros entry [i Hi]%list_elem_of_lookup.
    unfold query_errors, query_calls in *.
    pose proof (query_run_cases provider model) as H.
    destruct (run _ _ _ _) as [st [v|]]; simpl in *.
    + destruct H as (prov & mod_ & fn & cs & Hf & -> & _).
      destruct (failed_lookup _ _ _ _ _ _ _ _ Hf Hi) as (p & m & f & e & Hc & Hp & _ & ->).
      exists p, m, e. split_and!; [by exists f| |done].
      apply elem_of_app. left. apply list_elem_of_lookup. eauto.
    + destruct H as [Hf _].
      destruct (failed_lookup _ _ _ _ _ _ _ _ Hf Hi) as (p & m & f & e & Hc & Hp & _ & ->).
      exists p, m, e. split_and!; [by exists f| |done].
      apply list_elem_of_lookup. eauto.
  - intros p m -> -> Hnone.
    assert (run (Some p) (Some m) max_tokens temperature
            = run None None max_tokens temperature) as Hrun.
    { unfold query_llm_run.
      rewrite <-(for_conf_filter_registered (candidates (Some p) (Some m))).
      rewrite <-(for_conf_filter_registered (candidates None None)).
      f_equal. unfold config_list. rewrite filter_app.
      assert (filter registered
                (if truthy (Some p) && truthy (Some m) then [Conf p m] else []) = []) as ->.
      { destruct (_ && _); [|done]. rewrite filter_cons.
        destruct (decide _) as [[fn Hfn]|]; [|done]. simpl in Hfn. congruence. }
      simpl. induction llm_priority as [|c l IH]; [done|].
      rewrite !filter_cons. destruct (decide (_ ≠ (None, None))) as [_|Hn]; [|by destruct Hn].
      destruct (decide (_ ≠ (Some p, Some m))) as [Hne|Heq].
      - rewrite !filter_cons. destruct (decide (registered c)).
        + by rewrite IH.
        + by rewrite IH.
      - rewrite filter_cons. destruct (decide (registered c)) as [[fn Hfn]|]; [|done].
        destruct (decide ((Some (conf_provider c), Some (conf_model c)) = (Some p, Some m)))
          as [E|E]; [|done]. injection E as E1 E2. congruence. }
    split; [done|]. unfold query_llm. by rewrite Hrun.
Qed.
(** A usable preferred pair is the first pair invoked. *)
Lemma preferred_invoked_first p m :
  truthy (Some p) = true → truthy (Some m) = true → is_Some (provider_fn !! p) →
  ∃ later, invoked (Some p) (Some m) max_tokens temperature = (p, m) :: later.
Proof.
  intros Hp Hm [fn Hfn]. unfold query_calls, query_llm_run, config_list.
  rewrite Hp, Hm. simpl. rewrite Hfn.
  destruct (decide _) as [Hin|_]; [by apply not_elem_of_empty in Hin|].
  destruct (fn _ _ _ _ _) as [v|e]; [by exists []|].
  destruct (loop _ _) as [st r] eqn:Hrun.
  destruct (for_conf_calls _ _ _ _ _ _ _ _ Hrun) as (new & Hnew & _).
  simpl in *. eauto.
Qed.
End QueryFacts.

Lemma query_llm_first_success_witness :
  query_llm (PROVIDER_FN (answering (PyStr "hello")) (failing "503")) LLM_PRIORITY
    "hi" (Some "openai") (Some "gpt-4") 512 (PyFloat "0.7") = Ok (PyStr "hello") ∧
  query_calls (PROVIDER_FN (answering (PyStr "hello")) (failing "503")) LLM_PRIORITY
    "hi" (Some "openai") (Some "gpt-4") 512 (PyFloat "0.7") = [("groq", "llama3-70b-8192")].
Proof.
  apply (query_llm_first_success
           (PROVIDER_FN (answering (PyStr "hello")) (failing "503")) LLM_PRIORITY
           "hi" 512 (PyFloat "0.7") (Some "openai") (Some "gpt-4")
           [Conf "openai" "gpt-4"] (Conf "groq" "llama3-70b-8192")
           [Conf "google" "gemini-2.0-flash"] (answering (PyStr "hello")) "hello").
  - vm_compute. reflexivity.
  - repeat constructor.
  - vm_compute. reflexivity.
  - reflexivity.
  - discriminate.
Defined.

Lemma query_llm_all_providers_failed_witness :
  query_llm (PROVIDER_FN (failing "timeout") (failing "no key")) LLM_PRIORITY
    "hi" (Some "groq") (Some "llama3-70b-8192") 512 (PyFloat "0.7")
  = RuntimeError
      "All LLM providers failed. Errors: groq:llama3-70b-8192 -- timeout | google:gemini-2.0-flash -- no key".
Proof.
  refine (proj1 (query_llm_all_providers_failed
           (PROVIDER_FN (failing "timeout") (failing "no key")) LLM_PRIORITY
           "hi" 512 (PyFloat "0.7") (Some "groq") (Some "llama3-70b-8192") _)).
  intros c fn h Hc Hfn.
  vm_compute in Hc.
  apply elem_of_cons in Hc as [->|Hc].
  - vm_compute in Hfn. injection Hfn as <-. by exists "timeout".
  - apply elem_of_cons in Hc as [->|Hc]; [|by apply elem_of_nil in Hc].
    vm_compute in Hfn. injection Hfn as <-. by exists "no key".
Defined.

(** C4. A preferred pair that also stands in the priority list is invoked
    exactly once; and whatever the tables and the preferred pair are, no
    (provider, model) pair is invoked twice during a query. *)
Theorem query_llm_attempts_each_pair_once
    (call_groq call_gemini : invoker) prompt max_tokens temperature :
  (∀ p m, Conf p m ∈ LLM_PRIORITY →
     length (filter (λ a, a = (p, m))
               (query_calls (PROVIDER_FN call_groq call_gemini) LLM_PRIORITY
                  prompt (Some p) (Some m) max_tokens temperature)) = 1) ∧
  (∀ provider_fn llm_priority provider model,
     NoDup (query_calls provider_fn llm_priority prompt provider model
              max_tokens temperature)).
Proof.
  split; [|intros; apply query_calls_NoDup].
  intros p m Hin. apply NoDup_count_one; [apply query_calls_NoDup|].
  assert (truthy (Some p) = true ∧ truthy (Some m) = true ∧
          is_Some (PROVIDER_FN call_groq call_gemini !! p)) as (Hp & Hm & Hreg).
  { unfold LLM_PRIORITY in Hin.
    apply elem_of_cons in Hin as [E|Hin]; [injection E as -> ->|].
    { split_and!; [done..|]. by exists call_groq. }
    apply elem_of_cons in Hin as [E|Hin]; [injection E as -> ->|by apply elem_of_nil in Hin].
    split_and!; [done..|]. by exists call_gemini. }
  destruct (preferred_invoked_first _ LLM_PRIORITY prompt max_tokens temperature p m Hp Hm Hreg)
    as [later ->].
  by left.
Qed.

Lemma query_llm_attempts_each_pair_once_witness :
  length (filter (λ a, a = ("google", "gemini-2.0-flash"))
            (query_calls (PROVIDER_FN (failing "timeout") (failing "no key")) LLM_PRIORITY
               "hi" (Some "google") (Some "gemini-2.0-flash") 512 (PyFloat "0.7"))) = 1.
Proof.
  apply (proj1 (query_llm_attempts_each_pair_once
                  (failing "timeout") (failing "no key") "hi" 512 (PyFloat "0.7"))).
  unfold LLM_PRIORITY. apply elem_of_cons. right. apply elem_of_cons. by left.
Defined.

(** C5 fails on the code: the first provider answers with an empty string,
    [query_llm] returns that empty string as its result, and the second
    provider, which has text to offer, is never invoked. *)
Lemma query_llm_returns_empty_string :
  query_llm (PROVIDER_FN (answering (PyStr "")) (answering (PyStr "text"))) LLM_PRIORITY
    "hi" None None 512 (PyFloat "0.7") = Ok (PyStr "") ∧
  query_calls (PROVIDER_FN (answering (PyStr "")) (answering (PyStr "text"))) LLM_PRIORITY
    "hi" None None 512 (PyFloat "0.7") = [("groq", "llama3-70b-8192")].
Proof. split; vm_compute; reflexivity. Qed.

Lemma query_llm_returns_first_value_witness :
  query_llm (PROVIDER_FN (failing "timeout") (answering PyNone)) LLM_PRIORITY
    "hi" None None 512 (PyFloat "0.7") = Ok PyNone ∧
  query_calls (PROVIDER_FN (failing "timeout") (answering PyNone)) LLM_PRIORITY
    "hi" None None 512 (PyFloat "0.7")
  = [("groq", "llama3-70b-8192"); ("google", "gemini-2.0-flash")] ∧
  query_errors (PROVIDER_FN (failing "timeout") (answering PyNone)) LLM_PRIORITY
    "hi" None None 512 (PyFloat "0.7") = ["groq:llama3-70b-8192 -- timeout"].
Proof.
  apply (query_llm_returns_first_value
           (PROVIDER_FN (failing "timeout") (answering PyNone)) LLM_PRIORITY
           "hi" 512 (PyFloat "0.7") None None
           [Conf "groq" "llama3-70b-8192"] (Conf "google" "gemini-2.0-flash") []
           {| tried := {[ ("groq", "llama3-70b-8192") ]};
              errors := ["groq:llama3-70b-8192 -- timeout"];
              calls := [("groq", "llama3-70b-8192")] |}
           (answering PyNone) PyNone).
  - vm_compute. reflexivity.
  - vm_compute. reflexivity.
  - vm_compute. reflexivity.
  - simpl. intros Hin. apply list_elem_of_singleton in Hin. discriminate.
  - reflexivity.
Defined.

Lemma query_llm_skips_unregistered_witness :
  query_llm (PROVIDER_FN (failing "timeout") (failing "no key")) LLM_PRIORITY
    "hi" (Some "openai") (Some "gpt-4") 512 (PyFloat "0.7")
  = query_llm (PROVIDER_FN (failing "timeout") (failing "no key")) LLM_PRIORITY
      "hi" None None 512 (PyFloat "0.7").
Proof.
  refine (proj2 (proj2 (proj2 (proj2 (query_llm_skips_unregistered
           (PROVIDER_FN (failing "timeout") (failing "no key")) LLM_PRIORITY
           "hi" 512 (PyFloat "0.7") (Some "openai") (Some "gpt-4"))))
           "openai" "gpt-4" eq_refl eq_refl _)).
  vm_compute. reflexivity.
Defined.

(** ** Strings *)

Section StringFacts.
Import PyStr.

Lemma append_cons c (s t : string) : String c s +:+ t = String c (s +:+ t).
Proof. reflexivity. Qed.

Lemma append_nil_l (t : string) : "" +:+ t = t.
Proof. reflexivity. Qed.

Lemma append_char c (t : string) : String c "" +:+ t = String c t.
Proof. reflexivity. Qed.

Lemma append_nil_r (s : string) : s +:+ "" = s.
Proof. induction s as [|c s IH]; [done|]. by rewrite append_cons, IH. Qed.

Lemma append_assoc (s t u : string) : (s +:+ t) +:+ u = s +:+ t +:+ u.
Proof. induction s as [|c s IH]; [done|]. by rewrite !append_cons, IH. Qed.

Lemma length_append (s t : string) :
  String.length (s +:+ t) = String.length s + String.length t.
Proof. induction s as [|c s IH]; [done|]. rewrite append_cons. simpl. by rewrite IH. Qed.

Lemma slice_to_append (s t : string) : slice_to (String.length s) (s +:+ t) = s.
Proof. induction s as [|c s IH]; [by destruct t|]. rewrite append_cons. simpl. by rewrite IH. Qed.

Lemma slice_from_append (s t : string) : slice_from (String.length s) (s +:+ t) = t.
Proof. induction s as [|c s IH]; [by destruct t|]. rewrite append_cons. simpl. by rewrite IH. Qed.

Lemma slice_to_bracket n mid post :
  n = String.length mid + 2 →
  slice_to n (String "[" (mid +:+ "]" +:+ post)) = "[" +:+ mid +:+ "]".
Proof.
  intros ->.
  replace (String "[" (mid +:+ "]" +:+ post)) with (("[" +:+ mid +:+ "]") +:+ post)
    by (rewrite !append_assoc; reflexivity).
  replace (String.length mid + 2) with (String.length ("[" +:+ mid +:+ "]"));
    [apply slice_to_append|].
  rewrite append_char. simpl. rewrite length_append. simpl. lia.
Qed.

Lemma ascii_eqb_true (a b : ascii) : Ascii.eqb a b = true ↔ a = b.
Proof. apply Ascii.eqb_eq. Qed.

Lemma ascii_eqb_false (a b : ascii) : Ascii.eqb a b = false ↔ a ≠ b.
Proof. apply Ascii.eqb_neq. Qed.

(** Only the colon is lowered to a colon. *)
Lemma lower_char_colon c : lower_char c = ":"%char ↔ c = ":"%char.
Proof.
  split; [|by intros ->].
  destruct c as [[] [] [] [] [] [] [] []]; vm_compute; congruence.
Qed.

(** On a line whose lowered form starts with [label:], the part after the
    first colon is the part after the label. *)
Lemma split_once_after_label label line :
  occurs ":" label = false →
  startswith (lower line) (label +:+ ":") = true →
  split_once ":" line !! 1 = Some (slice_from (S (String.length label)) line).
Proof.
  revert line. induction label as [|p label IH]; intros line Hno Hstart.
  - destruct line as [|c line]; [done|]. simpl in Hstart.
    apply andb_true_iff in Hstart as [Hc _].
    apply ascii_eqb_true, lower_char_colon in Hc as ->. done.
  - destruct line as [|c line]; [done|].
    rewrite append_cons in Hstart. simpl in Hstart, Hno.
    apply andb_true_iff in Hstart as [Hc Hrest].
    apply orb_false_iff in Hno as [Hp Hno].
    apply ascii_eqb_true in Hc. apply ascii_eqb_false in Hp.
    assert (Ascii.eqb c ":" = false) as Hcolon.
    { apply ascii_eqb_false. intros ->. apply Hp. by rewrite <-Hc. }
    specialize (IH line Hno Hrest).
    cbn [split_once]. rewrite Hcolon.
    destruct (split_once ":" line) as [|head tail]; [done|]. done.
Qed.

Lemma startswith_first c s p prefix_ :
  startswith (String c s) (String p prefix_) = true → c = p.
Proof. simpl. intros [Hc _]%andb_true_iff. by apply ascii_eqb_true. Qed.
End StringFacts.

(** ** parse_framework_suggestion *)

Section FrameworkSuggestion.
Import PyStr App.

Lemma labels_exclusive line :
  labelled "framework:" line → ¬ labelled "justification:" line.
Proof.
  unfold labelled. destruct (lower line) as [|c s]; [done|].
  intros H1 H2. apply startswith_first in H1. apply startswith_first in H2. congruence.
Qed.

Lemma last_value_cons label line lines :
  last_value label (line :: lines) =
  match last_value label lines with
  | Some v => Some v
  | None => if decide (labelled label line) then Some (value_of label line) else None
  end.
Proof.
  unfold last_value. rewrite filter_cons.
  destruct (decide (labelled label line)); [|by destruct (last _)].
  destruct (filter _ lines) as [|l0 ls] eqn:E; [done|].
  rewrite last_cons. by destruct (last (l0 :: ls)).
Qed.

(** The loop keeps, for each label, the value of the last labelled line it
    has seen, and never raises. *)
Lemma for_line_last lines framework justification :
  for_line lines framework justification =
  Some (match last_value "framework:" lines with
        | Some v => Some v
        | None => framework
        end,
        default justification (last_value "justification:" lines)).
Proof.
  revert framework justification.
  induction lines as [|line lines IH]; intros framework justification; [done|].
  rewrite !last_value_cons. cbn [for_line].
  destruct (decide (labelled "framework:" line)) as [Hf|Hf].
  - pose proof (labels_exclusive _ Hf) as Hj.
    destruct (decide (labelled "justification:" line)); [done|].
    unfold labelled in Hf. rewrite Hf.
    rewrite (split_once_after_label "framework" line eq_refl Hf).
    rewrite IH. unfold value_of. simpl String.length.
    by destruct (last_value "framework:" lines), (last_value "justification:" lines).
  - assert (startswith (lower line) "framework:" = false) as ->
      by (unfold labelled in Hf; by destruct (startswith _ _)).
    destruct (decide (labelled "justification:" line)) as [Hj|Hj].
    + unfold labelled in Hj. rewrite Hj.
      rewrite (split_once_after_label "justification" line eq_refl Hj).
      rewrite IH. unfold value_of. simpl String.length.
      by destruct (last_value "framework:" lines), (last_value "justification:" lines).
    + assert (startswith (lower line) "justification:" = false) as ->
        by (unfold labelled in Hj; by destruct (startswith _ _)).
      rewrite IH.
      by destruct (last_value "framework:" lines), (last_value "justification:" lines).
Qed.

(** C6 fails on the code: with two [Framework:] lines the parser returns
    the value of the second one, not of the first. *)
Lemma parse_framework_suggestion_last_wins :
  parse_framework_suggestion ("Framework: LangGraph" +:+ String "010" "Framework: CrewAI")
    = Some (Some "CrewAI", "") ∧
  first_value "framework:"
    (splitlines (strip ("Framework: LangGraph" +:+ String "010" "Framework: CrewAI")))
    = Some "LangGraph".
Proof. split; vm_compute; reflexivity. Qed.

(** C6, as the code has it.  On every response the parser returns (it
    never raises); the framework is the value of the last line whose
    lowered form starts with [framework:], that is what follows the label
    (the text after the first colon), stripped, and it is [None] when no
    line has the label; the justification is read the same way from the
    last [justification:] line, and is [""] without one. *)
Theorem parse_framework_suggestion_last_value response :
  let lines := splitlines (strip response) in
  parse_framework_suggestion response
    = Some (last_value "framework:" lines,
            default "" (last_value "justification:" lines)) ∧
  (∀ line, labelled "framework:" line →
     split_once ":" line !! 1 = Some (slice_from 10 line)) ∧
  (∀ line, labelled "justification:" line →
     split_once ":" line !! 1 = Some (slice_from 14 line)) ∧
  (Forall (λ line, ¬ labelled "framework:" line) lines →
     fst <$> parse_framework_suggestion response = Some None).
Proof.
  intros lines. unfold parse_framework_suggestion. fold lines.
  rewrite for_line_last. split_and!.
  - by destruct (last_value "framework:" lines).
  - intros line H. apply (split_once_after_label "framework" line eq_refl H).
  - intros line H. apply (split_once_after_label "justification" line eq_refl H).
  - intros Hnone. simpl. unfold last_value.
    assert (filter (labelled "framework:") lines = []) as ->; [|done].
    induction Hnone as [|l ls Hl _ IH]; [done|].
    rewrite filter_cons. by destruct (decide _).
Qed.

Lemma parse_framework_suggestion_last_value_witness :
  fst <$> parse_framework_suggestion ("Justification: best fit" +:+ String "010" "Thanks")
    = Some None.
Proof.
  refine (proj2 (proj2 (proj2 (parse_framework_suggestion_last_value
            ("Justification: best fit" +:+ String "010" "Thanks")))) _).
  vm_compute. repeat constructor; discriminate.
Defined.
End FrameworkSuggestion.

(** ** The regular expressions of app.py *)

Section RegexFacts.
Import PyStr.
Context {A : Type}.
Implicit Types k : @Re.cont A.

Lemma star_dot_greedy body k fuel pos s :
  (∀ p t k', body p t k' = Re.run Re.Dot p t k') →
  String.length s < fuel →
  Re.star_loop body true k fuel pos s = Re.furthest k pos s.
Proof.
  intros Hbody.
  revert fuel pos. induction s as [|c s IH]; intros [|fuel] pos Hlen;
    simpl in Hlen; try lia; cbn [Re.star_loop Re.furthest]; rewrite Hbody; cbn [Re.run].
  - done.
  - assert ((S pos =? pos) = false) as -> by (apply Nat.eqb_neq; lia).
    rewrite IH by lia. done.
Qed.

Lemma star_dot_lazy body k fuel pos s :
  (∀ p t k', body p t k' = Re.run Re.Dot p t k') →
  String.length s < fuel →
  Re.star_loop body false k fuel pos s = Re.nearest k pos s.
Proof.
  intros Hbody.
  revert fuel pos. induction s as [|c s IH]; intros [|fuel] pos Hlen;
    simpl in Hlen; try lia; cbn [Re.star_loop Re.nearest]; rewrite Hbody; cbn [Re.run].
  - by destruct (k pos "").
  - assert ((S pos =? pos) = false) as -> by (apply Nat.eqb_neq; lia).
    rewrite IH by lia. done.
Qed.
End RegexFacts.

Section BracketFacts.
Import PyStr App.

Lemma match_at_bracketed pos s :
  Re.match_at bracketed pos s =
  match s with
  | String c s' => if Ascii.eqb c "[" then Re.furthest closes (S pos) s' else None
  | "" => None
  end.
Proof.
  destruct s as [|c s]; [done|].
  unfold Re.match_at, bracketed. cbn [Re.run].
  destruct (Ascii.eqb c "["); [|done].
  rewrite star_dot_greedy; [done|done|lia].
Qed.

Lemma furthest_closes_none pos s :
  occurs "]" s = false → Re.furthest closes pos s = None.
Proof.
  revert pos. induction s as [|c s IH]; intros pos Hno; [done|].
  cbn [occurs] in Hno. apply orb_false_iff in Hno as [Hc Hno].
  cbn [Re.furthest]. rewrite IH by done.
  unfold closes. cbn [Re.run Re.or_else]. by rewrite Hc.
Qed.

Lemma furthest_closes_last pos mid post :
  occurs "]" post = false →
  Re.furthest closes pos (mid +:+ "]" +:+ post) = Some (pos + String.length mid + 1).
Proof.
  intros Hno. revert pos. induction mid as [|c mid IH]; intros pos.
  - rewrite append_nil_l, append_char. cbn [Re.furthest].
    rewrite furthest_closes_none by done.
    unfold closes. cbn [Re.run Re.or_else]. rewrite Ascii.eqb_refl.
    f_equal. simpl. lia.
  - rewrite append_cons. cbn [Re.furthest]. rewrite IH.
    cbn [Re.or_else]. f_equal. simpl. lia.
Qed.

Lemma furthest_closes_inv pos s e :
  Re.furthest closes pos s = Some e →
  ∃ mid post, s = mid +:+ "]" +:+ post ∧ e = pos + String.length mid + 1.
Proof.
  revert pos. induction s as [|c s IH]; intros pos; [done|].
  cbn [Re.furthest]. destruct (Re.furthest closes (S pos) s) as [e'|] eqn:E.
  - cbn [Re.or_else]. intros [= <-]. destruct (IH _ E) as (mid & post & -> & ->).
    exists (String c mid), post. rewrite append_cons. split; [done|]. simpl. lia.
  - unfold closes. cbn [Re.run Re.or_else].
    destruct (Ascii.eqb c "]") eqn:Hc; [|done].
    apply ascii_eqb_true in Hc as ->. intros [= <-].
    exists "", s. split; [done|]. simpl. lia.
Qed.

(** [re.search(r"\[.*\]", s)] finds the text from the first opening bracket
    to the last closing bracket. *)
Lemma search_bracketed_found pos pre mid post :
  occurs "[" pre = false → occurs "]" post = false →
  Re.search_from bracketed pos (pre +:+ "[" +:+ mid +:+ "]" +:+ post)
    = Some ("[" +:+ mid +:+ "]").
Proof.
  intros Hpre Hpost. revert pos. induction pre as [|c pre IH]; intros pos.
  - rewrite append_nil_l, append_char. cbn [Re.search_from].
    rewrite match_at_bracketed, Ascii.eqb_refl.
    rewrite furthest_closes_last by done.
    f_equal. apply slice_to_bracket. lia.
  - simpl in Hpre. apply orb_false_iff in Hpre as [Hc Hpre].
    rewrite append_cons. cbn [Re.search_from]. rewrite match_at_bracketed, Hc.
    by apply IH.
Qed.

Lemma search_bracketed_inv pos s m :
  Re.search_from bracketed pos s = Some m →
  ∃ pre mid post, s = pre +:+ "[" +:+ mid +:+ "]" +:+ post ∧ m = "[" +:+ mid +:+ "]".
Proof.
  revert pos. induction s as [|c s IH]; intros pos.
  - cbn [Re.search_from]. by rewrite match_at_bracketed.
  - cbn [Re.search_from]. rewrite match_at_bracketed.
    destruct (Ascii.eqb c "[") eqn:Hc.
    + apply ascii_eqb_true in Hc as ->.
      destruct (Re.furthest closes (S pos) s) as [e|] eqn:E.
      * destruct (furthest_closes_inv _ _ _ E) as (mid & post & -> & ->).
        intros [= <-]. exists "", mid, post. split; [done|].
        apply slice_to_bracket. lia.
      * intros H. destruct (IH _ H) as (pre & mid & post & -> & ->).
        by exists (String "[" pre), mid, post.
    + intros H. destruct (IH _ H) as (pre & mid & post & -> & ->).
      by exists (String c pre), mid, post.
Qed.
End BracketFacts.

Section StripFacts.
Import PyStr.

Lemma occurs_append c (a b : string) : occurs c (a +:+ b) = occurs c a || occurs c b.
Proof.
  induction a as [|x a IH]; [done|]. rewrite append_cons. cbn [occurs].
  by rewrite IH, orb_assoc.
Qed.

Lemma lstrip_nonspace c s : isspace c = false → lstrip (String c s) = String c s.
Proof. intros H. cbn [lstrip]. by rewrite H. Qed.

Lemma rstrip_nonspace c s : isspace c = false → rstrip (String c s) = String c (rstrip s).
Proof. intros H. cbn [rstrip]. destruct (rstrip s); by rewrite ?H. Qed.

Lemma lstrip_append pre c rest :
  isspace c = false → lstrip (pre +:+ String c rest) = lstrip pre +:+ String c rest.
Proof.
  intros H. induction pre as [|x pre IH].
  - rewrite append_nil_l. by apply lstrip_nonspace.
  - rewrite append_cons. cbn [lstrip]. destruct (isspace x); [done|]. by rewrite append_cons.
Qed.

Lemma rstrip_append a c rest :
  isspace c = false → rstrip (a +:+ String c rest) = a +:+ String c (rstrip rest).
Proof.
  intros H. induction a as [|x a IH].
  - rewrite !append_nil_l. by apply rstrip_nonspace.
  - rewrite !append_cons. cbn [rstrip]. rewrite IH.
    by destruct a.
Qed.

Lemma lstrip_head s :
  lstrip s = "" ∨ ∃ c t, lstrip s = String c t ∧ isspace c = false.
Proof.
  induction s as [|c s IH]; [by left|]. cbn [lstrip].
  destruct (isspace c) eqn:E; [done|]. right. eauto.
Qed.

Lemma rstrip_idem s : rstrip (rstrip s) = rstrip s.
Proof.
  induction s as [|c s IH]; [done|]. cbn [rstrip].
  destruct (rstrip s) as [|x r] eqn:E.
  - destruct (isspace c) eqn:Hc; [done|]. cbn [rstrip]. by rewrite Hc.
  - change (rstrip (String c (String x r))) with
      (match rstrip (String x r) with
       | "" => if isspace c then "" else String c ""
       | String y r' => String c (String y r')
       end).
    by rewrite IH.
Qed.

Lemma strip_idem s : strip (strip s) = strip s.
Proof.
  unfold strip. destruct (lstrip_head s) as [->|(c & t & -> & Hc)]; [done|].
  rewrite (rstrip_nonspace c t Hc), (lstrip_nonspace c _ Hc).
  rewrite <-(rstrip_nonspace c t Hc). apply rstrip_idem.
Qed.

Lemma occurs_lstrip c s : occurs c s = false → occurs c (lstrip s) = false.
Proof.
  induction s as [|x s IH]; [done|]. cbn [occurs lstrip].
  intros [Hx Hs]%orb_false_iff. destruct (isspace x); [auto|].
  cbn [occurs]. by rewrite Hx, Hs.
Qed.

Lemma occurs_rstrip c s : occurs c s = false → occurs c (rstrip s) = false.
Proof.
  induction s as [|x s IH]; [done|]. cbn [occurs rstrip].
  intros [Hx Hs]%orb_false_iff. specialize (IH Hs).
  destruct (rstrip s) as [|y r].
  - destruct (isspace x); [done|]. cbn [occurs]. by rewrite Hx.
  - cbn [occurs] in *. by rewrite Hx, IH.
Qed.

Lemma occurs_strip c s : occurs c s = false → occurs c (strip s) = false.
Proof. intros H. by apply occurs_rstrip, occurs_lstrip. Qed.
End StripFacts.

Section FenceFacts.
Import PyStr App.

Lemma nearest_fails {A} (k : @Re.cont A) (P : string → Prop) pos s :
  (∀ c t, P (String c t) → P t) →
  (∀ p t, P t → k p t = None) →
  P s → Re.nearest k pos s = None.
Proof.
  intros Hsuffix Hk. revert pos. induction s as [|c s IH]; intros pos Hs.
  - by apply Hk.
  - cbn [Re.nearest]. rewrite (Hk _ _ Hs). apply IH. by eapply Hsuffix.
Qed.

Lemma no_backtick_suffix c t : occurs "`" (String c t) = false → occurs "`" t = false.
Proof. cbn [occurs]. by intros [_ ?]%orb_false_iff. Qed.

(** Without a backtick in the text neither fence pattern matches anywhere. *)
Lemma leading_fence_no_match pos s :
  occurs "`" s = false → Re.match_at leading_fence pos s = None.
Proof.
  intros Hno. unfold Re.match_at, leading_fence. cbn [Re.run].
  destruct (pos =? 0); [|done].
  rewrite star_dot_lazy; [|done|lia].
  apply (nearest_fails _ (λ t, occurs "`" t = false)); [apply no_backtick_suffix| |done].
  intros p [|c t] Ht; [done|]. cbn [occurs] in Ht.
  apply orb_false_iff in Ht as [-> _]. done.
Qed.

Lemma trailing_fence_no_match pos s :
  occurs "`" s = false → Re.match_at trailing_fence pos s = None.
Proof.
  intros Hno. unfold Re.match_at, trailing_fence. cbn [Re.run].
  destruct s as [|c t]; [done|]. cbn [occurs] in Hno.
  apply orb_false_iff in Hno as [-> _]. done.
Qed.

Lemma sub_from_unchanged r (P : string → Prop) pos s :
  (∀ c t, P (String c t) → P t) →
  (∀ p t, P t → Re.match_at r p t = None) →
  P s → Re.sub_from r pos 0 s = s.
Proof.
  intros Hsuffix Hr. revert pos. induction s as [|c s IH]; intros pos Hs; [done|].
  cbn [Re.sub_from]. rewrite (Hr _ _ Hs). f_equal. apply IH. by eapply Hsuffix.
Qed.

(** A response without backticks has no fence to strip. *)
Lemma fence_stripped_plain response :
  occurs "`" response = false → fence_stripped response = strip response.
Proof.
  intros Hno. unfold fence_stripped, Re.sub_empty.
  pose proof (occurs_strip _ _ Hno) as Hno'.
  rewrite (sub_from_unchanged leading_fence (λ t, occurs "`" t = false));
    [|apply no_backtick_suffix|intros; by apply leading_fence_no_match|done].
  rewrite (sub_from_unchanged trailing_fence (λ t, occurs "`" t = false));
    [|apply no_backtick_suffix|intros; by apply trailing_fence_no_match|done].
  apply strip_idem.
Qed.
End FenceFacts.

Section FencedBlock.
Import PyStr App.

Lemma star_class_greedy {A} body (p : ascii → bool) (k : @Re.cont A) fuel pos run_ t :
  (∀ q u k', body q u k' = Re.run (Re.Cls p) q u k') →
  all_chars p run_ = true →
  match t with String c _ => p c = false | "" => True end →
  String.length (run_ +:+ t) < fuel →
  is_Some (k (pos + String.length run_) t) →
  Re.star_loop body true k fuel pos (run_ +:+ t) = k (pos + String.length run_) t.
Proof.
  intros Hbody. revert fuel pos. induction run_ as [|c run_ IH]; intros fuel pos Hall Ht Hlen Hk.
  - rewrite append_nil_l in *. simpl String.length in *. rewrite Nat.add_0_r in *.
    destruct fuel as [|fuel]; [lia|]. cbn [Re.star_loop]. rewrite Hbody. cbn [Re.run].
    destruct t as [|c t]; [done|]. by rewrite Ht.
  - rewrite append_cons in *. cbn [all_chars] in Hall.
    apply andb_true_iff in Hall as [Hc Hall].
    destruct fuel as [|fuel]; [simpl in Hlen; lia|].
    cbn [Re.star_loop]. rewrite Hbody. cbn [Re.run]. rewrite Hc.
    assert ((S pos =? pos) = false) as -> by (apply Nat.eqb_neq; lia).
    simpl String.length in *.
    replace (pos + S (String.length run_)) with (S pos + String.length run_) in * by lia.
    rewrite IH; [|done|done|lia|done].
    by destruct Hk as [x ->].
Qed.

Lemma nearest_skip {A} (k : @Re.cont A) pos pre t :
  (∀ q u u', occurs "`" u = false → k q (u +:+ u') = None ∨ u = "") →
  occurs "`" pre = false →
  Re.nearest k pos (pre +:+ t) = Re.nearest k (pos + String.length pre) t.
Proof.
  intros Hk. revert pos. induction pre as [|c pre IH]; intros pos Hno.
  - rewrite append_nil_l. simpl. by rewrite Nat.add_0_r.
  - rewrite append_cons. cbn [Re.nearest].
    destruct (Hk pos (String c pre) t Hno) as [Hnone|?]; [|done].
    rewrite append_cons in Hnone. rewrite Hnone. cbn [Re.or_else].
    rewrite IH by (by eapply no_backtick_suffix).
    f_equal. simpl. lia.
Qed.

Lemma nearest_eos pos s :
  Re.nearest (λ q u, Re.run Re.Eos q u (λ q' _, Some q')) pos s
    = Some (pos + Re.eos_offset s).
Proof.
  revert pos. induction s as [|c s IH]; intros pos.
  - simpl. f_equal. lia.
  - cbn [Re.nearest Re.eos_offset Re.run].
    destruct (Re.at_end (String c s)).
    + cbn [Re.or_else]. f_equal. lia.
    + cbn [Re.or_else]. rewrite IH. f_equal. lia.
Qed.

Lemma eos_offset_le s : Re.eos_offset s ≤ String.length s.
Proof.
  induction s as [|c s IH]; [done|]. cbn [Re.eos_offset].
  destruct (Re.at_end _); simpl; lia.
Qed.

(** What is left after the text in front of [$]: nothing or one newline. *)
Lemma eos_rest s :
  slice_from (Re.eos_offset s) s = "" ∨ slice_from (Re.eos_offset s) s = String "010" "".
Proof.
  induction s as [|c s IH]; [by left|]. cbn [Re.eos_offset].
  destruct (Re.at_end (String c s)) eqn:E; [|done].
  right. simpl in *. destruct s; [|done].
  apply ascii_eqb_true in E as ->. done.
Qed.

Lemma sub_from_skip r pos n s :
  n ≤ String.length s →
  Re.sub_from r pos n s = Re.sub_from r (pos + n) 0 (slice_from n s).
Proof.
  revert pos s. induction n as [|n IH]; intros pos s Hn.
  - rewrite Nat.add_0_r. by destruct s.
  - destruct s as [|c s]; [simpl in Hn; lia|]. simpl in Hn.
    cbn [Re.sub_from slice_from]. rewrite IH by lia. f_equal. lia.
Qed.

Lemma sub_from_keep r pos pre t :
  (∀ q u u', occurs "`" u = false → Re.match_at r q (u +:+ u') = None ∨ u = "") →
  occurs "`" pre = false →
  Re.sub_from r pos 0 (pre +:+ t) = pre +:+ Re.sub_from r (pos + String.length pre) 0 t.
Proof.
  intros Hr. revert pos. induction pre as [|c pre IH]; intros pos Hno.
  - rewrite !append_nil_l. simpl. by rewrite Nat.add_0_r.
  - rewrite !append_cons. cbn [Re.sub_from].
    destruct (Hr pos (String c pre) t Hno) as [Hnone|?]; [|done].
    rewrite append_cons in Hnone. rewrite Hnone.
    rewrite IH by (by eapply no_backtick_suffix).
    replace (pos + String.length (String c pre)) with (S pos + String.length pre)
      by (simpl; lia).
    done.
Qed.

Lemma leading_fence_later pos s : pos ≠ 0 → Re.match_at leading_fence pos s = None.
Proof.
  intros Hpos. unfold Re.match_at, leading_fence. cbn [Re.run].
  by apply Nat.eqb_neq in Hpos as ->.
Qed.

Lemma sub_from_leading_later pos s : pos ≠ 0 → Re.sub_from leading_fence pos 0 s = s.
Proof.
  revert pos. induction s as [|c s IH]; intros pos Hpos; [done|].
  cbn [Re.sub_from]. rewrite leading_fence_later by done. f_equal. apply IH. lia.
Qed.
End FencedBlock.

Section FencedBlockStrip.
Import PyStr App.

Lemma leading_fence_match intro lang rest :
  occurs "`" intro = false → all_chars isalpha_ascii lang = true →
  Re.match_at leading_fence 0
    (intro +:+ String "`" (String "`" (String "`" (lang +:+ String "010" rest))))
  = Some (String.length intro + 3 + String.length lang + 1).
Proof.
  intros Hintro Hlang. unfold Re.match_at, leading_fence. cbn [Re.run]. simpl Nat.eqb. cbv iota.
  rewrite star_dot_lazy; [|done|lia].
  rewrite nearest_skip; [|clear; intros q [|c u] u' Hno; [by right|left]|done].
  - cbn [Re.nearest]. rewrite !Ascii.eqb_refl.
    rewrite (star_class_greedy _ isalpha_ascii); [| done | done | done | lia |].
    + cbn [Re.run]. rewrite Ascii.eqb_refl. cbn [Re.or_else]. f_equal. lia.
    + cbn [Re.run]. rewrite Ascii.eqb_refl. cbn [Re.or_else]. eauto.
  - rewrite append_cons. cbn [occurs] in Hno. apply orb_false_iff in Hno as [-> _]. done.
Qed.

Lemma sub_from_match r pos s e :
  Re.match_at r pos s = Some e → pos < e → e - pos ≤ String.length s →
  Re.sub_from r pos 0 s = Re.sub_from r e 0 (slice_from (e - pos) s).
Proof.
  intros Hm Hlt Hle. destruct s as [|c s]; [simpl in Hle; lia|].
  cbn [Re.sub_from]. rewrite Hm.
  destruct (e - pos) as [|more] eqn:E; [lia|]. simpl in Hle.
  rewrite sub_from_skip by lia. cbn [slice_from]. f_equal. lia.
Qed.

Lemma slice_from_plus n m s : slice_from (n + m) s = slice_from m (slice_from n s).
Proof.
  revert s. induction n as [|n IH]; intros s; [by destruct s|].
  destruct s as [|c s]; [by destruct m|]. simpl. apply IH.
Qed.

(** [re.sub] with the leading pattern drops everything up to the end of
    the first fence line. *)
Lemma sub_leading_fence intro lang rest :
  occurs "`" intro = false → all_chars isalpha_ascii lang = true →
  Re.sub_empty leading_fence
    (intro +:+ String "`" (String "`" (String "`" (lang +:+ String "010" rest))))
  = rest.
Proof.
  intros Hintro Hlang. unfold Re.sub_empty.
  pose proof (leading_fence_match intro lang rest Hintro Hlang) as Hm.
  rewrite (sub_from_match _ _ _ _ Hm); [|lia|].
  - rewrite sub_from_leading_later by lia.
    rewrite Nat.sub_0_r.
    replace (String.length intro + 3 + String.length lang + 1)
      with (String.length intro + (3 + (String.length lang + 1))) by lia.
    rewrite slice_from_plus, slice_from_append, slice_from_plus. cbn [slice_from].
    rewrite slice_from_plus, slice_from_append. done.
  - rewrite length_append. simpl. rewrite length_append. simpl. lia.
Qed.

Lemma trailing_fence_match pos outro :
  Re.match_at trailing_fence pos (String "`" (String "`" (String "`" outro)))
  = Some (pos + 3 + Re.eos_offset outro).
Proof.
  unfold Re.match_at, trailing_fence. cbn [Re.run]. rewrite !Ascii.eqb_refl.
  rewrite star_dot_lazy; [|done|lia].
  rewrite nearest_eos. f_equal. lia.
Qed.

(** [re.sub] with the trailing pattern drops everything from the first
    fence that is left, except a final newline. *)
Lemma sub_trailing_fence body outro :
  occurs "`" body = false →
  ∃ w, (w = "" ∨ w = String "010" "") ∧
       Re.sub_empty trailing_fence (body +:+ String "`" (String "`" (String "`" outro)))
       = body +:+ w.
Proof.
  intros Hbody. unfold Re.sub_empty.
  rewrite sub_from_keep; [|clear; intros q [|c u] u' Hno; [by right|left]|done].
  - rewrite (sub_from_match _ _ _ _ (trailing_fence_match _ _)); [|lia|].
    + replace (0 + String.length body + 3 + Re.eos_offset outro - (0 + String.length body))
        with (3 + Re.eos_offset outro) by lia.
      rewrite slice_from_plus. cbn [slice_from].
      destruct (eos_rest outro) as [->| ->].
      * exists "". split; [by left|done].
      * exists (String "010" ""). split; [by right|]. done.
    + pose proof (eos_offset_le outro). simpl. lia.
  - rewrite append_cons. unfold Re.match_at, trailing_fence. cbn [Re.run].
    cbn [occurs] in Hno. apply orb_false_iff in Hno as [-> _]. done.
Qed.

Lemma rstrip_append_space u c :
  isspace c = true → rstrip (u +:+ String c "") = rstrip u.
Proof.
  intros Hc. induction u as [|x u IH].
  - rewrite append_nil_l. cbn [rstrip]. by rewrite Hc.
  - rewrite append_cons. cbn [rstrip]. by rewrite IH.
Qed.

Lemma strip_append_space s c :
  isspace c = true → strip (s +:+ String c "") = strip s.
Proof.
  intros Hc. unfold strip. induction s as [|x s IH].
  - rewrite append_nil_l. cbn [lstrip]. by rewrite Hc.
  - rewrite append_cons. cbn [lstrip]. destruct (isspace x); [done|].
    by rewrite <-append_cons, rstrip_append_space.
Qed.

(** A fenced block: whatever stands around it, the text that is left is
    the body of the block, stripped. *)
Lemma fence_stripped_block intro lang body outro :
  occurs "`" intro = false → all_chars isalpha_ascii lang = true →
  occurs "`" body = false →
  fence_stripped (intro +:+ "```" +:+ lang +:+ String "010" "" +:+ body +:+ "```" +:+ outro)
  = strip body.
Proof.
  intros Hintro Hlang Hbody. unfold fence_stripped.
  assert (strip (intro +:+ "```" +:+ lang +:+ String "010" "" +:+ body +:+ "```" +:+ outro)
          = lstrip intro +:+ String "`" (String "`" (String "`"
              (lang +:+ String "010" (body +:+ String "`" (String "`" (String "`"
                 (rstrip outro)))))))) as ->.
  { unfold strip.
    change (intro +:+ "```" +:+ lang +:+ String "010" "" +:+ body +:+ "```" +:+ outro)
      with (intro +:+ String "`" (String "`" (String "`"
              (lang +:+ String "010" (body +:+ String "`" (String "`" (String "`" outro))))))).
    rewrite lstrip_append by done.
    rewrite <-!append_cons, <-!append_assoc.
    rewrite (rstrip_append _ "`") by done.
    by rewrite !rstrip_nonspace by done. }
  rewrite sub_leading_fence by (by apply occurs_lstrip || done).
  destruct (sub_trailing_fence body (rstrip outro) Hbody) as (w & [->| ->] & ->).
  - by rewrite append_nil_r.
  - by apply strip_append_space.
Qed.
End FencedBlockStrip.

(** ** extract_list_or_json *)

Section ExtractFacts.
Import PyStr App.
Variable json_loads : string → option pyval.
Variable literal_eval : string → option pyval.

Local Abbreviation extract := (extract_list_or_json json_loads literal_eval).

Lemma payload_bracketed response pre mid post :
  fence_stripped response = pre +:+ "[" +:+ mid +:+ "]" +:+ post →
  occurs "[" pre = false → occurs "]" post = false →
  payload response = "[" +:+ mid +:+ "]".
Proof.
  intros Hclean Hpre Hpost. unfold payload, Re.search. rewrite Hclean.
  by rewrite search_bracketed_found.
Qed.

Lemma payload_whole response :
  (¬ ∃ pre mid post, fence_stripped response = pre +:+ "[" +:+ mid +:+ "]" +:+ post) →
  payload response = fence_stripped response.
Proof.
  intros Hno. unfold payload, Re.search.
  destruct (Re.search_from _ _ _) as [m|] eqn:E; [|done].
  destruct (search_bracketed_inv _ _ _ E) as (pre & mid & post & Hs & _).
  exfalso. apply Hno. eauto.
Qed.

(** Where the extractor finds the list.  A response without backticks is
    only stripped of white space, and of a fenced block the stripped body
    is left; the payload is the text from the first opening bracket to the
    last closing bracket of what is left, whatever stands before and after
    them; [json.loads] is tried first, [ast.literal_eval] only when it
    raises, and the result is the empty list when both raise. *)
Theorem extract_list_or_json_payload response :
  (occurs "`" response = false → fence_stripped response = strip response) ∧
  (∀ intro lang body outro,
     response = intro +:+ "```" +:+ lang +:+ LF +:+ body +:+ "```" +:+ outro →
     occurs "`" intro = false → all_chars isalpha_ascii lang = true →
     occurs "`" body = false →
     fence_stripped response = strip body) ∧
  (∀ pre mid post,
     fence_stripped response = pre +:+ "[" +:+ mid +:+ "]" +:+ post →
     occurs "[" pre = false → occurs "]" post = false →
     payload response = "[" +:+ mid +:+ "]") ∧
  (∀ pre mid post,
     response = pre +:+ "[" +:+ mid +:+ "]" +:+ post →
     occurs "`" response = false →
     occurs "[" pre = false → occurs "]" post = false →
     extract response = loads_or_eval json_loads literal_eval ("[" +:+ mid +:+ "]")) ∧
  (∀ v, json_loads (payload response) = Some v → extract response = v) ∧
  (∀ v, json_loads (payload response) = None →
        literal_eval (payload response) = Some v → extract response = v) ∧
  (json_loads (payload response) = None → literal_eval (payload response) = None →
   extract response = PyList []).
Proof.
  split_and!.
  - apply fence_stripped_plain.
  - intros intro lang body outro ->. apply fence_stripped_block.
  - apply payload_bracketed.
  - intros pre mid post Hr Hno Hpre Hpost.
    unfold extract_list_or_json. f_equal.
    apply (payload_bracketed _ (lstrip pre) mid (rstrip post));
      [|by apply occurs_lstrip|by apply occurs_rstrip].
    rewrite fence_stripped_plain by done. subst response. unfold strip.
    rewrite !append_char.
    rewrite (lstrip_append pre "[") by done.
    rewrite <-append_cons, <-!append_assoc.
    rewrite (rstrip_append _ "]") by done.
    rewrite !append_assoc. done.
  - intros v Hj. unfold extract_list_or_json, loads_or_eval. by rewrite Hj.
  - intros v Hj Hl. unfold extract_list_or_json, loads_or_eval. by rewrite Hj, Hl.
  - intros Hj Hl. unfold extract_list_or_json, loads_or_eval. by rewrite Hj, Hl.
Qed.

(** C10. When what is left after the fences has no text from an opening to
    a closing bracket, the whole of it is handed to the parsers and what
    they give is returned as it is; so, [json.loads] reading an object
    as a dict, there are responses for which the result is a mapping and
    not a sequence. *)
Theorem extract_list_or_json_whole_text :
  json_loads ("{" +:+ quoted "tool" +:+ ": " +:+ quoted "X" +:+ "}")
    = Some (PyDict [(PyStr "tool", PyStr "X")]) →
  (∀ response v,
     (¬ ∃ pre mid post, fence_stripped response = pre +:+ "[" +:+ mid +:+ "]" +:+ post) →
     json_loads (fence_stripped response) = Some v ∨
     (json_loads (fence_stripped response) = None ∧
      literal_eval (fence_stripped response) = Some v) →
     extract response = v) ∧
  (∃ response,
     (¬ ∃ pre mid post, fence_stripped response = pre +:+ "[" +:+ mid +:+ "]" +:+ post) ∧
     is_mapping (extract response) = true ∧
     is_sequence (extract response) = false).
Proof.
  intros Hjson. split.
  - intros response v Hno Hv. unfold extract_list_or_json, loads_or_eval.
    rewrite (payload_whole _ Hno).
    destruct Hv as [->|[-> ->]]; done.
  - set (response := "{" +:+ quoted "tool" +:+ ": " +:+ quoted "X" +:+ "}") in *.
    assert (fence_stripped response = response) as Hclean by (vm_compute; reflexivity).
    assert (¬ ∃ pre mid post,
               fence_stripped response = pre +:+ "[" +:+ mid +:+ "]" +:+ post) as Hno.
    { intros (pre & mid & post & Hs).
      assert (occurs "[" (fence_stripped response) = true) as Hin.
      { rewrite Hs, occurs_append, append_char. cbn [occurs]. rewrite Ascii.eqb_refl.
        by rewrite orb_true_r. }
      vm_compute in Hin. discriminate. }
    exists response. split; [done|].
    unfold extract_list_or_json, loads_or_eval. rewrite (payload_whole _ Hno).
    by rewrite Hclean, Hjson.
Qed.
End ExtractFacts.

Lemma extract_list_or_json_payload_witness :
  App.extract_list_or_json Lite.json_loads Lite.literal_eval
    ("Here is your data:" +:+ PyStr.LF +:+ "[{" +:+ PyStr.quoted "tool" +:+ ":" +:+ PyStr.quoted "X" +:+ "}]" +:+ PyStr.LF +:+ "Thanks!")
  = PyList [PyDict [(PyStr "tool", PyStr "X")]].
Proof.
  refine (eq_trans
    (proj1 (proj2 (proj2 (proj2 (extract_list_or_json_payload
       Lite.json_loads Lite.literal_eval
       ("Here is your data:" +:+ PyStr.LF +:+ "[{" +:+ PyStr.quoted "tool" +:+ ":" +:+ PyStr.quoted "X" +:+ "}]" +:+ PyStr.LF +:+ "Thanks!")))))
       ("Here is your data:" +:+ PyStr.LF) ("{" +:+ PyStr.quoted "tool" +:+ ":" +:+ PyStr.quoted "X" +:+ "}") (PyStr.LF +:+ "Thanks!")
       _ _ _ _) _).
  - vm_compute. reflexivity.
  - vm_compute. reflexivity.
  - vm_compute. reflexivity.
  - vm_compute. reflexivity.
  - vm_compute. reflexivity.
Defined.

Lemma extract_list_or_json_whole_text_witness :
  ∃ response,
    is_mapping (App.extract_list_or_json Lite.json_loads Lite.literal_eval response) = true ∧
    is_sequence (App.extract_list_or_json Lite.json_loads Lite.literal_eval response) = false.
Proof.
  destruct (proj2 (extract_list_or_json_whole_text Lite.json_loads Lite.literal_eval
                     eq_refl)) as (response & _ & H).
  exists response. exact H.
Defined.

(** ** parse_tool_discovery_code_block *)

(** C2 fails on the code.  The block assigns the result of a call,
    [list('ab')], in place of a list: the parser hands the block to [exec],
    which performs the call, and returns the list that the call built
    instead of two empty lists. *)
Theorem parse_tool_discovery_executes_call (exec_ : string → App.exec_outcome) :
  exec_ ("internal_tools = list('ab')" +:+ PyStr.LF +:+ "external_tools = []")
    = App.ExecDone (<["external_tools" := PyList []]>
                      (<["internal_tools" := PyList [PyStr "a"; PyStr "b"]]> ∅)) →
  App.parse_tool_discovery_code_block exec_
    ("```python" +:+ PyStr.LF +:+ "internal_tools = list('ab')" +:+ PyStr.LF
       +:+ "external_tools = []" +:+ PyStr.LF +:+ "```")
  = {| App.tools := Some (PyList [PyStr "a"; PyStr "b"], PyList []);
       App.executed := ["internal_tools = list('ab')" +:+ PyStr.LF +:+ "external_tools = []"] |}.
Proof.
  intros Hexec. unfold App.parse_tool_discovery_code_block.
  set (cleaned := PyStr.strip _).
  assert (cleaned = "internal_tools = list('ab')" +:+ PyStr.LF +:+ "external_tools = []") as ->
    by (vm_compute; reflexivity).
  rewrite Hexec. f_equal.
Qed.

Lemma parse_tool_discovery_executes_call_witness :
  App.tools (App.parse_tool_discovery_code_block Lite.exec_
    ("```python" +:+ PyStr.LF +:+ "internal_tools = list('ab')" +:+ PyStr.LF
       +:+ "external_tools = []" +:+ PyStr.LF +:+ "```"))
  = Some (PyList [PyStr "a"; PyStr "b"], PyList []).
Proof.
  rewrite (parse_tool_discovery_executes_call Lite.exec_); [reflexivity|].
  vm_compute. reflexivity.
Defined.

(** ** The parsers on the responses of the documentation *)

Example parse_framework_suggestion_example :
  App.parse_framework_suggestion
    ("Framework: LangGraph" +:+ PyStr.LF +:+ "Justification: best fit" +:+ PyStr.LF)
  = Some (Some "LangGraph", "best fit").
Proof. vm_compute. reflexivity. Qed.

Example parse_framework_suggestion_no_framework :
  App.parse_framework_suggestion ("I would stay with the current choice." +:+ PyStr.LF)
  = Some (None, "").
Proof. vm_compute. reflexivity. Qed.

Example parse_tool_discovery_example :
  App.tools (App.parse_tool_discovery_code_block Lite.exec_
    ("```python" +:+ PyStr.LF +:+ "internal_tools = [" +:+ PyStr.quoted "A" +:+ "]" +:+ PyStr.LF
       +:+ "external_tools = [" +:+ PyStr.quoted "B" +:+ ", " +:+ PyStr.quoted "C" +:+ "]"
       +:+ PyStr.LF +:+ "```"))
  = Some (PyList [PyStr "A"], PyList [PyStr "B"; PyStr "C"]).
Proof. vm_compute. reflexivity. Qed.

Example extract_list_or_json_fenced :
  App.extract_list_or_json Lite.json_loads Lite.literal_eval
    ("Sure:" +:+ PyStr.LF +:+ "```json" +:+ PyStr.LF +:+ "[1, 2]" +:+ PyStr.LF +:+ "```"
       +:+ PyStr.LF +:+ "Thanks!")
  = PyList [PyInt 1; PyInt 2].
Proof. vm_compute. reflexivity. Qed.

Example extract_list_or_json_single_quotes :
  App.extract_list_or_json Lite.json_loads Lite.literal_eval "Tools: ['a', 'b'] (two)"
  = PyList [PyStr "a"; PyStr "b"].
Proof. vm_compute. reflexivity. Qed.

(** The brackets of a commentary are taken for the brackets of the list. *)
Example payload_commentary_brackets :
  App.payload "Here [sic] is data: [1,2] ok] bye" = "[sic] is data: [1,2] ok]".
Proof. vm_compute. reflexivity. Qed.


(** ** write_text_log *)

Section LogFacts.
Import PyStr FileHelpers.
Local Open Scope Z_scope.

Lemma digit_isdigit d : 0 ≤ d < 10 → Lite.isdigit (digit d) = true.
Proof.
  intros Hd.
  assert (d = 0 ∨ d = 1 ∨ d = 2 ∨ d = 3 ∨ d = 4 ∨ d = 5 ∨ d = 6 ∨ d = 7 ∨ d = 8 ∨ d = 9)
    as H by lia.
  repeat (destruct H as [->|H]; [reflexivity|]). by subst.
Qed.

Lemma digit_mod_isdigit n : Lite.isdigit (digit (n `mod` 10)) = true.
Proof. apply digit_isdigit, Z.mod_pos_bound. lia. Qed.

Lemma decimal_go_lt fuel n acc :
  n < 10 → decimal_go (S fuel) n acc = String (digit (n mod 10)) acc.
Proof. intros H. cbn [decimal_go]. by apply Z.ltb_lt in H as ->. Qed.

Lemma decimal_go_ge fuel n acc :
  10 ≤ n → decimal_go (S fuel) n acc = decimal_go fuel (n / 10) (String (digit (n mod 10)) acc).
Proof. intros H. cbn [decimal_go]. by apply Z.ltb_ge in H as ->. Qed.

Lemma shaped_append p1 p2 s1 s2 :
  shaped p1 s1 = true → shaped p2 s2 = true → shaped (p1 +:+ p2) (s1 +:+ s2) = true.
Proof.
  revert s1. induction p1 as [|p p1 IH]; intros [|c s1] H1 H2; try done.
  rewrite !append_cons. cbn [shaped] in *.
  apply andb_true_iff in H1 as [-> H1]. by apply IH.
Qed.

Lemma shaped_length p s : shaped p s = true → String.length s = String.length p.
Proof.
  revert s. induction p as [|x p IH]; intros [|c s] H; try done.
  cbn [shaped] in H. apply andb_true_iff in H as [_ H]. simpl. f_equal. by apply IH.
Qed.

Lemma shaped_digits_1 a : 0 ≤ a < 10 → shaped "d" (String (digit a) "") = true.
Proof. intros H. cbn [shaped]. rewrite !Ascii.eqb_refl. by rewrite digit_isdigit. Qed.

(** [%Y] of a year with four digits. *)
Lemma decimal_year y : 1000 ≤ y ≤ 9999 → shaped "dddd" (decimal y) = true.
Proof.
  intros Hy. unfold decimal.
  destruct (Z.to_nat y) as [|[|[|[|k]]]] eqn:E; try lia.
  rewrite decimal_go_ge by lia.
  rewrite decimal_go_ge by (apply Z.div_le_lower_bound; lia).
  rewrite decimal_go_ge by (apply Z.div_le_lower_bound; [lia|];
                            apply Z.div_le_lower_bound; lia).
  rewrite decimal_go_lt
    by (apply Z.div_lt_upper_bound; [lia|]; apply Z.div_lt_upper_bound; [lia|];
        apply Z.div_lt_upper_bound; lia).
  cbn [shaped]. rewrite !Ascii.eqb_refl.
  by rewrite !digit_mod_isdigit.
Qed.

(** An [open] that fails leaves everything as it is. *)
Lemma write_text_log_refused now text filename fs :
  filename ∈ refused fs → write_text_log now text filename fs = (fs, OSError).
Proof. intros H. unfold write_text_log. by destruct (decide _). Qed.

(** [%m], [%d], [%H], [%M], [%S]. *)
Lemma pad2_shaped n : 0 ≤ n < 100 → shaped "dd" (pad2 n) = true.
Proof.
  intros Hn. unfold pad2, decimal. destruct (n <? 10) eqn:E.
  - apply Z.ltb_lt in E. rewrite decimal_go_lt by done.
    rewrite append_char. cbn [shaped]. rewrite !Ascii.eqb_refl.
    by rewrite !digit_mod_isdigit.
  - apply Z.ltb_ge in E.
    destruct (Z.to_nat n) as [|k] eqn:Ek; try lia.
    rewrite decimal_go_ge by done.
    rewrite decimal_go_lt by (apply Z.div_lt_upper_bound; lia).
    cbn [shaped]. rewrite !Ascii.eqb_refl.
    by rewrite !digit_mod_isdigit.
Qed.

Lemma strftime_is_timestamp now :
  valid_datetime now → 1000 ≤ year now → is_timestamp (strftime now) = true.
Proof.
  intros (Hy & Hm & Hd & Hh & Hmin & Hs) Hyear. unfold is_timestamp, strftime.
  change "[dddd-dd-dd dd:dd:dd]"
    with ("[" +:+ "dddd" +:+ "-" +:+ "dd" +:+ "-" +:+ "dd" +:+ " "
              +:+ "dd" +:+ ":" +:+ "dd" +:+ ":" +:+ "dd" +:+ "]").
  repeat (apply shaped_append;
          [first [reflexivity | apply decimal_year; lia | apply pad2_shaped; lia]|]).
  reflexivity.
Qed.
Local Close Scope Z_scope.

Local Open Scope Z_scope.

Lemma digit_value_digit d : 0 ≤ d < 10 → digit_value (digit d) = d.
Proof.
  intros Hd.
  assert (d = 0 ∨ d = 1 ∨ d = 2 ∨ d = 3 ∨ d = 4 ∨ d = 5 ∨ d = 6 ∨ d = 7 ∨ d = 8 ∨ d = 9)
    as H by lia.
  repeat (destruct H as [->|H]; [reflexivity|]). by subst.
Qed.

(** [%Y] of a year with four digits, digit by digit. *)
Lemma decimal_four y :
  1000 ≤ y ≤ 9999 →
  decimal y = String (digit (y / 1000)) (String (digit (y / 100 mod 10))
                (String (digit (y / 10 mod 10)) (String (digit (y mod 10)) ""))).
Proof.
  intros Hy. unfold decimal.
  destruct (Z.to_nat y) as [|[|[|[|k]]]] eqn:E; try lia.
  rewrite decimal_go_ge by lia.
  rewrite decimal_go_ge by (Z.div_mod_to_equations; lia).
  rewrite decimal_go_ge by (Z.div_mod_to_equations; lia).
  rewrite decimal_go_lt by (Z.div_mod_to_equations; lia).
  replace (y / 10 / 10 / 10 mod 10) with (y / 1000) by (Z.div_mod_to_equations; lia).
  replace (y / 10 / 10 mod 10) with (y / 100 mod 10) by (Z.div_mod_to_equations; lia).
  done.
Qed.

(** [%m], [%d], [%H], [%M], [%S], digit by digit. *)
Lemma pad2_two n :
  0 ≤ n < 100 → pad2 n = String (digit (n / 10)) (String (digit (n mod 10)) "").
Proof.
  intros Hn. unfold pad2, decimal. destruct (n <? 10) eqn:E.
  - apply Z.ltb_lt in E. rewrite decimal_go_lt by done. rewrite append_char.
    by replace (n / 10) with 0 by (Z.div_mod_to_equations; lia).
  - apply Z.ltb_ge in E. destruct (Z.to_nat n) as [|k] eqn:Ek; try lia.
    rewrite decimal_go_ge by done. rewrite decimal_go_lt by (Z.div_mod_to_equations; lia).
    by replace (n / 10 mod 10) with (n / 10) by (Z.div_mod_to_equations; lia).
Qed.

Lemma number_four a b c d :
  0 ≤ a < 10 → 0 ≤ b < 10 → 0 ≤ c < 10 → 0 ≤ d < 10 →
  number (String (digit a) (String (digit b) (String (digit c) (String (digit d) ""))))
  = 1000 * a + 100 * b + 10 * c + d.
Proof.
  intros. unfold number. cbn [number_go]. rewrite !digit_value_digit by done. lia.
Qed.

Lemma number_two a b :
  0 ≤ a < 10 → 0 ≤ b < 10 →
  number (String (digit a) (String (digit b) "")) = 10 * a + b.
Proof.
  intros. unfold number. cbn [number_go]. rewrite !digit_value_digit by done. lia.
Qed.

(** The timestamp denotes the time it was made from. *)
Lemma read_timestamp_strftime now :
  clock_time now → read_timestamp (strftime now) = Some now.
Proof.
  intros [Hvalid Hyear]. unfold read_timestamp.
  rewrite strftime_is_timestamp by done.
  destruct Hvalid as (Hy & Hm & Hd & Hh & Hmin & Hs).
  destruct now as [y m d h mi s]. cbn [year month day hour minute second] in *.
  unfold strftime. cbn [year month day hour minute second].
  rewrite decimal_four by lia. rewrite !pad2_two by lia.
  repeat (rewrite append_cons || rewrite append_nil_l).
  cbn [String.substring].
  rewrite number_four by (Z.div_mod_to_equations; lia).
  rewrite !number_two by (Z.div_mod_to_equations; lia).
  f_equal. f_equal; Z.div_mod_to_equations; lia.
Qed.
Local Close Scope Z_scope.

(** C8 as amended.  At any time of the clock, when the file can be
    opened [write_text_log] succeeds and the file then holds what it held
    before (nothing, if it did not exist) followed by one entry: a
    timestamp of the form [[YYYY-MM-DD HH:MM:SS]] that denotes the time of
    the call, a space, the text and two newlines; no other file changes;
    and a reader who skips the old content finds that time and exactly
    that text.  When the file cannot be opened the call raises and
    nothing is written. *)
Theorem write_text_log_appends now text filename fs :
  clock_time now →
  let f := default "" (read_text fs filename) in
  let fs' := (write_text_log now text filename fs).1 in
  (filename ∉ refused fs →
   (write_text_log now text filename fs).2 = Written ∧
   (∃ timestamp,
      is_timestamp timestamp = true ∧ read_timestamp timestamp = Some now ∧
      read_text fs' filename = Some (f +:+ timestamp +:+ " " +:+ text +:+ LF +:+ LF)) ∧
   (∀ other, other ≠ filename → read_text fs' other = read_text fs other) ∧
   refused fs' = refused fs ∧
   (∀ content, read_text fs' filename = Some content →
      entry_after (String.length f) content = Some (now, text))) ∧
  (filename ∈ refused fs → write_text_log now text filename fs = (fs, OSError)).
Proof.
  intros Hclock f fs'. split; [|apply write_text_log_refused].
  intros Hopen.
  pose proof (strftime_is_timestamp now (proj1 Hclock) (proj2 Hclock)) as Hts.
  pose proof (read_timestamp_strftime now Hclock) as Hread_ts.
  assert (write_text_log now text filename fs
          = ({| files := <[filename := f +:+ strftime now +:+ " " +:+ text +:+ LF +:+ LF]>
                           (files fs);
                refused := refused fs |}, Written)) as Hrun.
  { unfold write_text_log. by destruct (decide _). }
  assert (read_text fs' filename
          = Some (f +:+ strftime now +:+ " " +:+ text +:+ LF +:+ LF)) as Hread.
  { unfold fs', read_text. rewrite Hrun. simpl. apply lookup_insert_eq. }
  split_and!.
  - by rewrite Hrun.
  - by exists (strftime now).
  - intros other Hother. unfold fs', read_text. rewrite Hrun. simpl.
    by apply lookup_insert_ne.
  - unfold fs'. by rewrite Hrun.
  - intros content Hcontent. rewrite Hread in Hcontent. injection Hcontent as <-.
    unfold entry_after. rewrite slice_from_append.
    pose proof (shaped_length _ _ Hts) as Hlen.
    change (String.length "[dddd-dd-dd dd:dd:dd]") with 21 in Hlen.
    rewrite <-Hlen, slice_to_append, slice_from_append, Hread_ts.
    rewrite append_char.
    assert (String.length (text +:+ LF +:+ LF) - 2 = String.length text) as ->
      by (rewrite length_append; simpl; lia).
    rewrite slice_to_append, slice_from_append.
    unfold newline, LF. by rewrite String.eqb_refl.
Qed.

(** C8 fails on the code as it is stated, for every log name: a name
    that cannot be opened for appending (here a file in a directory that
    does not exist) makes the call raise, and no entry is written. *)
Lemma write_text_log_unopenable :
  (write_text_log (DateTime 2025 3 9 7 5 0) "Prompt: hi" "logs/app.log"
     {| files := ∅; refused := {[ "logs/app.log" ]} |}).2 = OSError ∧
  read_text
    (write_text_log (DateTime 2025 3 9 7 5 0) "Prompt: hi" "logs/app.log"
       {| files := ∅; refused := {[ "logs/app.log" ]} |}).1
    "logs/app.log" = None.
Proof. split; vm_compute; reflexivity. Qed.

Lemma write_text_log_appends_witness :
  entry_after 5
    ("old" +:+ LF +:+ LF +:+ "[2025-03-09 07:05:00] Prompt: hi" +:+ LF +:+ LF)
  = Some (DateTime 2025 3 9 7 5 0, "Prompt: hi").
Proof.
  refine (proj2 (proj2 (proj2 (proj2 (proj1 (write_text_log_appends
            (DateTime 2025 3 9 7 5 0) "Prompt: hi" "app.log"
            {| files := {[ "app.log" := "old" +:+ LF +:+ LF ]}; refused := ∅ |} _) _))))
            _ _).
  - unfold clock_time, valid_datetime. simpl. lia.
  - simpl. apply not_elem_of_empty.
  - vm_compute. reflexivity.
Defined.
End LogFacts.

(** * Further properties

    ** The orchestrator: order, bounds and the ways a query ends *)

Section QueryMore.
Variable provider_fn : gmap string invoker.
Variable llm_priority : list conf.
Variable prompt : string.
Variable max_tokens : Z.
Variable temperature : pyval.

Local Abbreviation loop := (for_conf provider_fn prompt max_tokens temperature).
Local Abbreviation candidates := (config_list llm_priority).
Local Abbreviation run := (query_llm_run provider_fn llm_priority prompt).
Local Abbreviation query := (query_llm provider_fn llm_priority prompt).
Local Abbreviation invoked := (query_calls provider_fn llm_priority prompt).
Local Abbreviation recorded := (query_errors provider_fn llm_priority prompt).
Local Abbreviation failed' := (failed provider_fn prompt max_tokens temperature).
Local Abbreviation registered := (LlmHelpers.registered provider_fn).

Lemma query_calls_sublist provider model :
  invoked provider model max_tokens temperature
    `sublist_of` (conf_pair <$> candidates provider model).
Proof.
  unfold query_calls, query_llm_run.
  destruct (loop _ _) as [st r] eqn:Hrun.
  destruct (for_conf_calls _ _ _ _ _ _ _ _ Hrun) as (new & Hnew & Hsub & _).
  simpl in *. by rewrite Hnew.
Qed.

(** X1. A query makes at most one provider call per candidate, and there
    are at most as many candidates as entries of the priority list plus
    one. *)
Theorem query_llm_call_bound provider model :
  length (query_calls provider_fn llm_priority prompt provider model max_tokens temperature)
    ≤ length (config_list llm_priority provider model) ∧
  length (config_list llm_priority provider model) ≤ S (length llm_priority).
Proof.
  split.
  - rewrite <-(length_fmap conf_pair (candidates provider model)).
    apply sublist_length, query_calls_sublist.
  - unfold config_list. rewrite length_app.
    pose proof (length_filter
      (λ p_conf, (Some (conf_provider p_conf), Some (conf_model p_conf)) ≠ (provider, model))
      llm_priority) as Hle.
    set (rest := filter _ llm_priority) in *.
    assert (length (match provider, model with
                    | Some p, Some m =>
                      if truthy provider && truthy model then [Conf p m] else []
                    | _, _ => []
                    end) ≤ 1) as Hone
      by (destruct provider, model; try destruct (_ && _); simpl; lia).
    lia.
Qed.

(** X2. The providers are invoked in the order of the candidate list: the
    invocations are a subsequence of it; and a preferred pair that is
    given in full and has a registered provider is the first one invoked. *)
Theorem query_llm_priority_order provider model :
  invoked provider model max_tokens temperature
    `sublist_of` (conf_pair <$> candidates provider model) ∧
  (∀ p m, provider = Some p → model = Some m → p ≠ "" → m ≠ "" →
          is_Some (provider_fn !! p) →
          head (invoked provider model max_tokens temperature) = Some (p, m)).
Proof.
  split; [apply query_calls_sublist|].
  intros p m -> -> Hp Hm Hreg.
  destruct (preferred_invoked_first provider_fn llm_priority prompt max_tokens temperature p m)
    as [later ->]; [| |done|done].
  - simpl. by apply negb_true_iff, String.eqb_neq.
  - simpl. by apply negb_true_iff, String.eqb_neq.
Qed.

(** X3. When no candidate has a registered provider function (an empty
    priority list without a preferred pair, for one), the query fails at
    once: no provider is invoked and the error message lists nothing. *)
Theorem query_llm_nothing_to_try provider model :
  Forall (λ c, provider_fn !! conf_provider c = None)
    (config_list llm_priority provider model) →
  query_llm provider_fn llm_priority prompt provider model max_tokens temperature
    = RuntimeError "All LLM providers failed. Errors: " ∧
  query_calls provider_fn llm_priority prompt provider model max_tokens temperature = [].
Proof.
  intros Hnone.
  unfold query_llm, query_calls, query_llm_run.
  rewrite <-(app_nil_r (candidates provider model)).
  rewrite for_conf_skip by done. done.
Qed.

(** X4. How a query ends.  It returns [v] only if [v] is what the last
    provider invoked returned, every provider invoked before it having
    raised; and it raises only after every candidate with a registered
    provider has been invoked and has raised, the message listing these
    failures. *)
Theorem query_llm_outcomes provider model :
  (∀ v, query provider model max_tokens temperature = Ok v →
     ∃ cs prov mod_ fn,
       invoked provider model max_tokens temperature = cs ++ [(prov, mod_)] ∧
       failed' cs (recorded provider model max_tokens temperature) ∧
       provider_fn !! prov = Some fn ∧
       fn cs prompt mod_ max_tokens temperature = Returns v) ∧
  (∀ msg, query provider model max_tokens temperature = RuntimeError msg →
     msg = failure_message (recorded provider model max_tokens temperature) ∧
     failed' (invoked provider model max_tokens temperature)
             (recorded provider model max_tokens temperature) ∧
     ∀ c, c ∈ candidates provider model → registered c →
          conf_pair c ∈ invoked provider model max_tokens temperature).
Proof.
  pose proof (query_run_cases provider_fn llm_priority prompt max_tokens temperature
                provider model) as Hcases.
  unfold query_llm, query_calls, query_errors.
  destruct (run provider model max_tokens temperature) as [st [v|]] eqn:Hrun; simpl.
  - split; [|done]. intros v' [= <-].
    destruct Hcases as (prov & mod_ & fn & cs & Hf & Hc & _ & Hfn & Hcall).
    exists cs, prov, mod_, fn. done.
  - split; [done|]. intros msg [= <-]. destruct Hcases as [Hf Htr].
    split_and!; [done..|].
    intros c Hc Hreg. apply Htr.
    by eapply for_conf_exhausted.
Qed.

(** X5. A preference that is given in part only, a provider without a
    model or a model without a provider, is ignored: the query runs as it
    does without any preference. *)
Theorem query_llm_partial_preference provider model :
  provider = None ∨ model = None →
  run provider model max_tokens temperature = run None None max_tokens temperature ∧
  query provider model max_tokens temperature = query None None max_tokens temperature.
Proof.
  intros Hpart.
  assert (candidates provider model = candidates None None) as Hsame.
  { unfold config_list.
    assert ((match provider, model with
             | Some p, Some m => if truthy provider && truthy model then [Conf p m] else []
             | _, _ => []
             end) = []) as -> by (by destruct Hpart as [-> | ->]; [|destruct provider]).
    simpl. apply list_filter_iff. intros c. split; intros _.
    - by intros [=].
    - destruct Hpart as [-> | ->]; by intros [=]. }
  unfold query_llm, query_llm_run. by rewrite Hsame.
Qed.
End QueryMore.

Lemma query_llm_priority_order_witness :
  head (query_calls (PROVIDER_FN (failing "timeout") (answering (PyStr "ok"))) LLM_PRIORITY
          "hi" (Some "google") (Some "gemini-pro") 512 (PyFloat "0.7"))
  = Some ("google", "gemini-pro").
Proof.
  apply (proj2 (query_llm_priority_order
                  (PROVIDER_FN (failing "timeout") (answering (PyStr "ok"))) LLM_PRIORITY
                  "hi" 512 (PyFloat "0.7") (Some "google") (Some "gemini-pro"))
               "google" "gemini-pro" eq_refl eq_refl).
  - discriminate.
  - discriminate.
  - vm_compute. eauto.
Defined.

Lemma query_llm_nothing_to_try_witness :
  query_llm ∅ LLM_PRIORITY "hi" (Some "groq") (Some "llama3-8b-8192") 512 (PyFloat "0.7")
  = RuntimeError "All LLM providers failed. Errors: ".
Proof.
  refine (proj1 (query_llm_nothing_to_try ∅ LLM_PRIORITY "hi" 512 (PyFloat "0.7")
                   (Some "groq") (Some "llama3-8b-8192") _)).
  vm_compute. repeat constructor.
Defined.

Lemma query_llm_outcomes_witness :
  ∃ cs prov mod_ (fn : invoker),
    query_calls (PROVIDER_FN (failing "timeout") (answering (PyStr "ok"))) LLM_PRIORITY
      "hi" None None 512 (PyFloat "0.7") = cs ++ [(prov, mod_)] ∧
    failed (PROVIDER_FN (failing "timeout") (answering (PyStr "ok"))) "hi" 512 (PyFloat "0.7")
      cs (query_errors (PROVIDER_FN (failing "timeout") (answering (PyStr "ok"))) LLM_PRIORITY
            "hi" None None 512 (PyFloat "0.7")) ∧
    PROVIDER_FN (failing "timeout") (answering (PyStr "ok")) !! prov = Some fn ∧
    fn cs "hi" mod_ 512%Z (PyFloat "0.7") = Returns (PyStr "ok").
Proof.
  apply (proj1 (query_llm_outcomes
                  (PROVIDER_FN (failing "timeout") (answering (PyStr "ok"))) LLM_PRIORITY
                  "hi" 512 (PyFloat "0.7") None None) (PyStr "ok")).
  vm_compute. reflexivity.
Defined.

Lemma query_llm_partial_preference_witness :
  query_llm (PROVIDER_FN (failing "timeout") (answering (PyStr "ok"))) LLM_PRIORITY
    "hi" (Some "google") None 512 (PyFloat "0.7")
  = query_llm (PROVIDER_FN (failing "timeout") (answering (PyStr "ok"))) LLM_PRIORITY
      "hi" None None 512 (PyFloat "0.7").
Proof.
  apply (proj2 (query_llm_partial_preference
                  (PROVIDER_FN (failing "timeout") (answering (PyStr "ok"))) LLM_PRIORITY
                  "hi" 512 (PyFloat "0.7") (Some "google") None (or_intror eq_refl))).
Defined.

(** ** The request log: how calls compose *)

Section LogMore.
Import PyStr FileHelpers LogSequence.

Lemma write_text_log_files now text filename fs :
  filename ∉ refused fs →
  (write_text_log now text filename fs).1
  = {| files := <[filename := default "" (files fs !! filename) +:+ entry now text]> (files fs);
       refused := refused fs |}.
Proof. intros H. unfold write_text_log, entry. by destruct (decide _). Qed.

(** X6. The log is append-only across calls: after any number of calls on
    one file, the file holds what it held before followed by the entries
    in the order of the calls, and no other file has changed. *)
Theorem write_all_appends entries filename fs :
  filename ∉ refused fs →
  default "" (read_text (write_all entries filename fs) filename)
    = default "" (read_text fs filename) +:+ entries_text entries ∧
  (∀ other, other ≠ filename →
     read_text (write_all entries filename fs) other = read_text fs other).
Proof.
  revert fs. induction entries as [|[now text] entries IH]; intros fs Hopen.
  - simpl. by rewrite append_nil_r.
  - cbn [write_all entries_text foldr]. simpl fst. simpl snd.
    rewrite write_text_log_files by done.
    set (fs1 := {| files := _; refused := _ |}).
    destruct (IH fs1) as [Hsame Hother]; [done|]. split.
    + rewrite Hsame. unfold fs1, read_text. simpl. rewrite lookup_insert_eq. simpl.
      by rewrite append_assoc.
    + intros other Hne. rewrite Hother by done.
      unfold fs1, read_text. simpl. by apply lookup_insert_ne.
Qed.

(** X7. The text is written as it is: a text that contains a blank line
    and a timestamp leaves the file exactly as two calls would have left
    it, so a reader of the log cannot tell them apart. *)
Theorem write_text_log_no_escaping now now' text text' filename fs :
  write_text_log now (text +:+ LF +:+ LF +:+ strftime now' +:+ " " +:+ text') filename fs
  = write_text_log now' text' filename (write_text_log now text filename fs).1.
Proof.
  unfold write_text_log at 1 3. destruct (decide (filename ∈ refused fs)) as [Hin|Hout].
  - simpl. unfold write_text_log. by destruct (decide _).
  - simpl. unfold write_text_log. simpl. destruct (decide _); [done|].
    rewrite lookup_insert_eq, insert_insert_eq. simpl.
    by rewrite !append_assoc.
Qed.

(** X8. Calls on different files do not interfere: in either order they
    leave the same files. *)
Theorem write_text_log_commutes now1 text1 file1 now2 text2 file2 fs :
  file1 ≠ file2 →
  (write_text_log now2 text2 file2 (write_text_log now1 text1 file1 fs).1).1
  = (write_text_log now1 text1 file1 (write_text_log now2 text2 file2 fs).1).1.
Proof.
  intros Hne. unfold write_text_log.
  destruct (decide (file1 ∈ refused fs)), (decide (file2 ∈ refused fs)); simpl;
    repeat (destruct (decide _); try done); simpl.
  rewrite !lookup_insert_ne by done.
  f_equal. by apply insert_insert_ne.
Qed.
End LogMore.

Lemma write_all_appends_witness :
  default ""
    (FileHelpers.read_text
       (LogSequence.write_all
          [(FileHelpers.DateTime 2025 3 9 7 5 0, "first");
           (FileHelpers.DateTime 2025 3 9 7 5 1, "second")]
          "app.log" {| FileHelpers.files := ∅; FileHelpers.refused := ∅ |})
       "app.log")
  = "[2025-03-09 07:05:00] first" +:+ PyStr.LF +:+ PyStr.LF
      +:+ "[2025-03-09 07:05:01] second" +:+ PyStr.LF +:+ PyStr.LF.
Proof.
  refine (proj1 (write_all_appends
            [(FileHelpers.DateTime 2025 3 9 7 5 0, "first");
             (FileHelpers.DateTime 2025 3 9 7 5 1, "second")]
            "app.log" {| FileHelpers.files := ∅; FileHelpers.refused := ∅ |} _)).
  simpl. apply not_elem_of_empty.
Defined.

Lemma write_text_log_commutes_witness :
  (FileHelpers.write_text_log (FileHelpers.DateTime 2025 3 9 7 5 1) "b" "tool_discovery.log"
     (FileHelpers.write_text_log (FileHelpers.DateTime 2025 3 9 7 5 0) "a" "app.log"
        {| FileHelpers.files := ∅; FileHelpers.refused := ∅ |}).1).1
  = (FileHelpers.write_text_log (FileHelpers.DateTime 2025 3 9 7 5 0) "a" "app.log"
       (FileHelpers.write_text_log (FileHelpers.DateTime 2025 3 9 7 5 1) "b" "tool_discovery.log"
          {| FileHelpers.files := ∅; FileHelpers.refused := ∅ |}).1).1.
Proof.
  apply write_text_log_commutes. discriminate.
Defined.

(** ** The fence patterns on arbitrary texts *)

Section FenceGeneral.
Import PyStr App Fences.

Lemma take_drop_while p s : take_while p s +:+ drop_while p s = s.
Proof.
  induction s as [|c s IH]; [done|]. cbn [take_while drop_while].
  destruct (p c); [|done]. by rewrite append_cons, IH.
Qed.

Lemma take_while_all p s : all_chars p (take_while p s) = true.
Proof.
  induction s as [|c s IH]; [done|]. cbn [take_while].
  destruct (p c) eqn:E; [|done]. cbn [all_chars]. by rewrite E, IH.
Qed.

Lemma drop_while_head p s :
  match drop_while p s with String c _ => p c = false | "" => True end.
Proof.
  induction s as [|c s IH]; [done|]. cbn [drop_while].
  destruct (p c) eqn:E; [done|]. done.
Qed.

Lemma drop_while_length p s : String.length (drop_while p s) ≤ String.length s.
Proof.
  induction s as [|c s IH]; [done|]. cbn [drop_while].
  destruct (p c); simpl; lia.
Qed.

Lemma drop_newline_length s :
  String.length (drop_newline s) ≤ String.length s.
Proof. destruct s as [|c s]; [done|]. simpl. destruct (Ascii.eqb c "010"); simpl; lia. Qed.

Lemma starts_fence_inv s :
  starts_fence s = true → ∃ rest, s = String "`" (String "`" (String "`" rest)).
Proof.
  unfold starts_fence. destruct s as [|a [|b [|c rest]]]; try done; cbn [startswith].
  - by rewrite andb_false_r.
  - by rewrite !andb_false_r.
  - intros H. apply andb_true_iff in H as [Ha H]. apply andb_true_iff in H as [Hb H].
    apply andb_true_iff in H as [Hc _].
    apply ascii_eqb_true in Ha as ->. apply ascii_eqb_true in Hb as ->.
    apply ascii_eqb_true in Hc as ->. eauto.
Qed.

Lemma starts_fence_fence rest : starts_fence (String "`" (String "`" (String "`" rest))) = true.
Proof. by destruct rest. Qed.

(** Where a match of the leading pattern ends, when a fence starts here. *)
Lemma opens_at pos s :
  opens pos s =
  if starts_fence s
  then Some (pos + (String.length s
                    - String.length (drop_newline (drop_while isalpha_ascii (slice_from 3 s)))))
  else None.
Proof.
  destruct (starts_fence s) eqn:E.
  - destruct (starts_fence_inv _ E) as [rest ->]. clear E.
    unfold opens. cbn [Re.run slice_from]. rewrite !Ascii.eqb_refl.
    pose proof (drop_while_length isalpha_ascii rest) as Hd.
    pose proof (drop_newline_length (drop_while isalpha_ascii rest)) as Hn.
    rewrite <-(take_drop_while isalpha_ascii rest) at 1 2.
    rewrite (star_class_greedy _ isalpha_ascii);
      [| done | apply take_while_all | apply drop_while_head
       | rewrite take_drop_while; lia |].
    + assert (String.length (take_while isalpha_ascii rest)
              + String.length (drop_while isalpha_ascii rest) = String.length rest) as Hlen
        by (by rewrite <-length_append, take_drop_while).
      cbn [Re.run]. destruct (drop_while isalpha_ascii rest) as [|c t] eqn:Ed.
      * cbn [Re.or_else drop_newline]. f_equal. simpl in *. lia.
      * cbn [drop_newline]. destruct (Ascii.eqb c "010"); cbn [Re.or_else]; f_equal;
          simpl in *; lia.
    + cbn [Re.run]. destruct (drop_while isalpha_ascii rest) as [|c t]; [by eexists|].
      destruct (Ascii.eqb c "010"); by eexists.
  - unfold opens, starts_fence in *. cbn [Re.run].
    destruct s as [|a [|b [|c rest]]]; try done; cbn [startswith] in E.
    + by destruct (Ascii.eqb a "`").
    + destruct (Ascii.eqb a "`"); [|done]. by destruct (Ascii.eqb b "`").
    + destruct (Ascii.eqb a "`"); [|done]. destruct (Ascii.eqb b "`"); [|done].
      destruct (Ascii.eqb c "`"); [|done]. by destruct rest.
Qed.

Lemma after_fence_length s rest :
  after_fence s = Some rest → String.length rest + 3 ≤ String.length s.
Proof.
  induction s as [|c s IH]; [done|]. cbn [after_fence].
  destruct (starts_fence (String c s)) eqn:E.
  - destruct (starts_fence_inv _ E) as [r Hs]. rewrite Hs. intros [= <-]. simpl. lia.
  - intros H. specialize (IH H). simpl. lia.
Qed.

Lemma after_fence_suffix s rest :
  after_fence s = Some rest → ∃ front, s = front +:+ rest.
Proof.
  induction s as [|c s IH]; [done|]. cbn [after_fence].
  destruct (starts_fence (String c s)) eqn:E.
  - destruct (starts_fence_inv _ E) as [r Hs]. rewrite Hs. intros [= <-].
    by exists "```".
  - intros H. destruct (IH H) as [front ->]. by exists (String c front).
Qed.

Lemma drop_while_suffix p s : ∃ front, s = front +:+ drop_while p s.
Proof. exists (take_while p s). by rewrite take_drop_while. Qed.

Lemma drop_newline_suffix s : ∃ front, s = front +:+ drop_newline s.
Proof.
  destruct s as [|c s]; [by exists ""|]. cbn [drop_newline].
  destruct (Ascii.eqb c "010"); [by exists (String c "")|by exists ""].
Qed.

Lemma nearest_opens pos s :
  Re.nearest opens pos s =
  match after_fence s with
  | Some rest =>
    Some (pos + (String.length s
                 - String.length (drop_newline (drop_while isalpha_ascii rest))))
  | None => None
  end.
Proof.
  revert pos. induction s as [|c s IH]; intros pos; [done|].
  cbn [Re.nearest after_fence]. rewrite opens_at.
  destruct (starts_fence (String c s)); [done|]. cbn [Re.or_else]. rewrite IH.
  destruct (after_fence s) as [rest|] eqn:E; [|done].
  pose proof (after_fence_length _ _ E).
  pose proof (drop_while_length isalpha_ascii rest).
  pose proof (drop_newline_length (drop_while isalpha_ascii rest)).
  f_equal. simpl. lia.
Qed.

Lemma match_at_leading s :
  Re.match_at leading_fence 0 s = Re.nearest opens 0 s.
Proof.
  unfold Re.match_at, leading_fence. cbn [Re.run]. simpl Nat.eqb. cbv iota.
  rewrite star_dot_lazy; [done|done|lia].
Qed.

(** [re.sub] with the leading pattern, on any text. *)
Lemma sub_leading_general s : Re.sub_empty leading_fence s = after_open s.
Proof.
  unfold Re.sub_empty, after_open.
  pose proof (match_at_leading s) as Hm. rewrite nearest_opens in Hm.
  destruct (after_fence s) as [rest|] eqn:E.
  - pose proof (after_fence_length _ _ E) as Hlen.
    pose proof (drop_while_length isalpha_ascii rest) as Hd.
    pose proof (drop_newline_length (drop_while isalpha_ascii rest)) as Hn.
    rewrite (sub_from_match _ _ _ _ Hm) by lia.
    rewrite sub_from_leading_later by lia.
    destruct (after_fence_suffix _ _ E) as [f1 ->].
    destruct (drop_while_suffix isalpha_ascii rest) as [f2 Hf2].
    destruct (drop_newline_suffix (drop_while isalpha_ascii rest)) as [f3 Hf3].
    set (kept := drop_newline (drop_while isalpha_ascii rest)) in *.
    assert (f1 +:+ rest = (f1 +:+ f2 +:+ f3) +:+ kept) as Hs
      by (rewrite !append_assoc, <-Hf3, <-Hf2; done).
    rewrite Hs. rewrite length_append.
    replace (0 + (String.length (f1 +:+ f2 +:+ f3) + String.length kept
                  - String.length kept) - 0)
      with (String.length (f1 +:+ f2 +:+ f3)) by lia.
    apply slice_from_append.
  - destruct s as [|c s]; [done|]. cbn [Re.sub_from]. rewrite Hm.
    by rewrite sub_from_leading_later by lia.
Qed.

Lemma trailing_fence_elsewhere pos s :
  starts_fence s = false → Re.match_at trailing_fence pos s = None.
Proof.
  intros E. unfold Re.match_at, trailing_fence, starts_fence in *. cbn [Re.run].
  destruct s as [|a [|b [|c rest]]]; try done; cbn [startswith] in E.
  - by destruct (Ascii.eqb a "`").
  - destruct (Ascii.eqb a "`"); [|done]. by destruct (Ascii.eqb b "`").
  - destruct (Ascii.eqb a "`"); [|done]. destruct (Ascii.eqb b "`"); [|done].
    destruct (Ascii.eqb c "`"); [|done]. by destruct rest.
Qed.

(** [re.sub] with the trailing pattern, on any text: what stands in front
    of the first fence is kept, and of the rest at most a final newline. *)
Lemma sub_trailing_general pos s :
  ∃ w, (w = "" ∨ w = LF) ∧ Re.sub_from trailing_fence pos 0 s = before_fence s +:+ w.
Proof.
  revert pos. induction s as [|c s IH]; intros pos.
  - exists "". by split; [left|].
  - cbn [before_fence]. destruct (starts_fence (String c s)) eqn:E.
    + destruct (starts_fence_inv _ E) as [outro Hs]. rewrite Hs.
      rewrite (sub_from_match _ _ _ _ (trailing_fence_match _ _)); [|lia|].
      * replace (pos + 3 + Re.eos_offset outro - pos) with (3 + Re.eos_offset outro) by lia.
        rewrite slice_from_plus. cbn [slice_from].
        destruct (eos_rest outro) as [->| ->].
        -- exists "". by split; [left|].
        -- exists LF. by split; [right|].
      * pose proof (eos_offset_le outro). simpl. lia.
    + cbn [Re.sub_from]. rewrite trailing_fence_elsewhere by done.
      destruct (IH (S pos)) as (w & Hw & ->). exists w. by rewrite append_cons.
Qed.

Lemma strip_before_fence_tail s w :
  w = "" ∨ w = LF → strip (s +:+ w) = strip s.
Proof.
  intros [->| ->]; [by rewrite append_nil_r|]. by apply strip_append_space.
Qed.

Lemma fence_stripped_direct response :
  fence_stripped response = strip (before_fence (after_open (strip response))).
Proof.
  unfold fence_stripped. rewrite sub_leading_general. unfold Re.sub_empty.
  destruct (sub_trailing_general 0 (after_open (strip response))) as (w & Hw & ->).
  by apply strip_before_fence_tail.
Qed.

Lemma executed_direct exec_ response :
  executed (parse_tool_discovery_code_block exec_ response)
  = [strip (before_fence (after_open response))].
Proof.
  unfold parse_tool_discovery_code_block. simpl.
  rewrite sub_leading_general. unfold Re.sub_empty.
  destruct (sub_trailing_general 0 (after_open response)) as (w & Hw & ->).
  by rewrite strip_before_fence_tail.
Qed.

(** X9. The fence handling of the two parsers, on every response: the
    text that [extract_list_or_json] goes on with, and the text that
    [parse_tool_discovery_code_block] executes, is what stands between the
    end of the first fence line (the first three backticks, the letters
    after them and one newline) and the next fence, stripped; without a
    fence it is the whole response, stripped. *)
Theorem fences_read_directly response :
  fence_stripped response = strip (before_fence (after_open (strip response))) ∧
  (∀ exec_, executed (parse_tool_discovery_code_block exec_ response)
            = [strip (before_fence (after_open response))]).
Proof. split; [apply fence_stripped_direct|intros; apply executed_direct]. Qed.

Lemma starts_fence_app p q : starts_fence p = true → starts_fence (p +:+ q) = true.
Proof.
  intros H. destruct (starts_fence_inv _ H) as [rest ->].
  rewrite !append_cons. apply starts_fence_fence.
Qed.

Lemma has_fence_app_l p q : has_fence p = true → has_fence (p +:+ q) = true.
Proof.
  induction p as [|c p IH]; [done|]. rewrite append_cons. cbn [has_fence].
  intros [H|H]%orb_true_iff.
  - rewrite <-append_cons, (starts_fence_app _ _ H). done.
  - rewrite (IH H). by rewrite orb_true_r.
Qed.

Lemma has_fence_app_r p q : has_fence q = true → has_fence (p +:+ q) = true.
Proof.
  intros H. induction p as [|c p IH]; [done|]. rewrite append_cons. cbn [has_fence].
  by rewrite IH, orb_true_r.
Qed.

Lemma lstrip_suffix s : ∃ ws, s = ws +:+ lstrip s.
Proof.
  induction s as [|c s [ws IH]]; [by exists ""|]. cbn [lstrip].
  destruct (isspace c); [|by exists ""].
  exists (String c ws). by rewrite append_cons, <-IH.
Qed.

Lemma rstrip_prefix s : ∃ ws, s = rstrip s +:+ ws.
Proof.
  induction s as [|c s [ws IH]]; [by exists ""|]. cbn [rstrip].
  destruct (rstrip s) as [|x r] eqn:E.
  - destruct (isspace c).
    + exists (String c s). done.
    + exists ws. rewrite append_cons. by rewrite IH.
  - exists ws. rewrite append_cons. by rewrite <-IH.
Qed.

Lemma has_fence_strip s : has_fence s = false → has_fence (strip s) = false.
Proof.
  intros H. unfold strip.
  destruct (has_fence (rstrip (lstrip s))) eqn:E; [|done].
  destruct (rstrip_prefix (lstrip s)) as [ws2 H2].
  destruct (lstrip_suffix s) as [ws1 H1].
  rewrite H1, H2 in H.
  by rewrite (has_fence_app_r _ _ (has_fence_app_l _ ws2 E)) in H.
Qed.

Lemma before_fence_prefix s : ∃ rest, s = before_fence s +:+ rest.
Proof.
  induction s as [|c s [rest IH]]; [by exists ""|]. cbn [before_fence].
  destruct (starts_fence (String c s)); [by eexists|].
  exists rest. by rewrite append_cons, <-IH.
Qed.

Lemma has_fence_before s : has_fence (before_fence s) = false.
Proof.
  induction s as [|c s IH]; [done|]. cbn [before_fence].
  destruct (starts_fence (String c s)) eqn:E; [done|].
  cbn [has_fence]. rewrite IH, orb_false_r.
  destruct (starts_fence (String c (before_fence s))) eqn:E'; [|done].
  destruct (before_fence_prefix s) as [rest Hrest].
  rewrite Hrest, <-append_cons in E. by rewrite (starts_fence_app _ _ E') in E.
Qed.

Lemma before_fence_whole s : has_fence s = false → before_fence s = s.
Proof.
  induction s as [|c s IH]; [done|]. cbn [has_fence before_fence].
  intros [-> H]%orb_false_iff. by rewrite IH.
Qed.

Lemma after_fence_none s : has_fence s = false → after_fence s = None.
Proof.
  induction s as [|c s IH]; [done|]. cbn [has_fence after_fence].
  intros [-> H]%orb_false_iff. by apply IH.
Qed.

Lemma payload_no_fence response : has_fence (payload response) = false.
Proof.
  unfold payload, Re.search.
  assert (has_fence (fence_stripped response) = false) as Hclean
    by (rewrite fence_stripped_direct; apply has_fence_strip, has_fence_before).
  destruct (Re.search_from _ _ _) as [m|] eqn:E; [|done].
  destruct (search_bracketed_inv _ _ _ E) as (pre & mid & post & Hs & ->).
  destruct (has_fence ("[" +:+ mid +:+ "]")) eqn:Hm; [|done].
  rewrite Hs in Hclean.
  replace (pre +:+ "[" +:+ mid +:+ "]" +:+ post)
    with (pre +:+ ("[" +:+ mid +:+ "]") +:+ post) in Hclean
    by (by rewrite !append_assoc).
  by rewrite (has_fence_app_r _ _ (has_fence_app_l _ post Hm)) in Hclean.
Qed.

(** X10. No fence survives: the text that [extract_list_or_json] hands to
    its two parsers, and the text that [parse_tool_discovery_code_block]
    executes, never contain three backticks in a row. *)
Theorem no_fence_survives response :
  has_fence (fence_stripped response) = false ∧
  has_fence (payload response) = false ∧
  (∀ exec_,
     Forall (λ text, has_fence text = false)
       (executed (parse_tool_discovery_code_block exec_ response))).
Proof.
  split_and!.
  - rewrite fence_stripped_direct. apply has_fence_strip, has_fence_before.
  - apply payload_no_fence.
  - intros exec_. rewrite executed_direct. repeat constructor.
    apply has_fence_strip, has_fence_before.
Qed.

(** X11. A response without a fence (single backticks may occur) is taken
    whole: [extract_list_or_json] goes on with all of it, stripped, and
    [parse_tool_discovery_code_block] executes all of it, stripped, any
    prose included. *)
Theorem no_fence_whole_response response :
  has_fence response = false →
  fence_stripped response = strip response ∧
  (∀ exec_, executed (parse_tool_discovery_code_block exec_ response) = [strip response]).
Proof.
  intros Hno. split.
  - rewrite fence_stripped_direct. pose proof (has_fence_strip _ Hno) as Hno'.
    unfold after_open. rewrite (after_fence_none _ Hno').
    rewrite (before_fence_whole _ Hno'). apply strip_idem.
  - intros exec_. rewrite executed_direct.
    unfold after_open. rewrite (after_fence_none _ Hno).
    by rewrite (before_fence_whole _ Hno).
Qed.
End FenceGeneral.

Lemma no_fence_whole_response_witness :
  App.executed (App.parse_tool_discovery_code_block Lite.exec_
                  "Use `pip` and ``x``: internal_tools = []")
  = ["Use `pip` and ``x``: internal_tools = []"].
Proof.
  apply (proj2 (no_fence_whole_response "Use `pip` and ``x``: internal_tools = []" eq_refl)).
Defined.

Section FenceCorollaries.
Import PyStr App Fences.

Lemma after_fence_first intro rest :
  has_fence (intro +:+ "``") = false →
  after_fence (intro +:+ String "`" (String "`" (String "`" rest))) = Some rest.
Proof.
  induction intro as [|c intro IH]; intros Hno.
  - rewrite append_nil_l. cbn [after_fence]. by rewrite starts_fence_fence.
  - rewrite append_cons in *. cbn [has_fence] in Hno.
    apply orb_false_iff in Hno as [Hstart Hno]. cbn [after_fence].
    assert (starts_fence (String c (intro +:+ String "`" (String "`" (String "`" rest))))
            = false) as ->; [|by apply IH].
    unfold starts_fence in *.
    destruct intro as [|a [|b intro]];
      rewrite ?append_cons, ?append_nil_l in *; cbn [startswith] in *;
      rewrite ?Ascii.eqb_refl in *.
    + destruct (Ascii.eqb c "`"); [|done]. done.
    + destruct (Ascii.eqb c "`"); [|done]. destruct (Ascii.eqb a "`"); [|done]. done.
    + destruct (Ascii.eqb c "`"); [|done]. destruct (Ascii.eqb a "`"); [|done].
      destruct (Ascii.eqb b "`"); [|done]. by destruct (intro +:+ "``").
Qed.

Lemma before_fence_first body rest :
  has_fence (body +:+ "``") = false →
  before_fence (body +:+ String "`" (String "`" (String "`" rest))) = body.
Proof.
  induction body as [|c body IH]; intros Hno.
  - rewrite append_nil_l. cbn [before_fence]. by rewrite starts_fence_fence.
  - rewrite append_cons in *. cbn [has_fence] in Hno.
    apply orb_false_iff in Hno as [Hstart Hno]. cbn [before_fence].
    assert (starts_fence (String c (body +:+ String "`" (String "`" (String "`" rest))))
            = false) as ->; [|by rewrite IH].
    unfold starts_fence in *.
    destruct body as [|a [|b body]];
      rewrite ?append_cons, ?append_nil_l in *; cbn [startswith] in *;
      rewrite ?Ascii.eqb_refl in *.
    + destruct (Ascii.eqb c "`"); [|done]. done.
    + destruct (Ascii.eqb c "`"); [|done]. destruct (Ascii.eqb a "`"); [|done]. done.
    + destruct (Ascii.eqb c "`"); [|done]. destruct (Ascii.eqb a "`"); [|done].
      destruct (Ascii.eqb b "`"); [|done]. by destruct (body +:+ "``").
Qed.

Lemma drop_while_all p run_ t :
  all_chars p run_ = true →
  match t with String c _ => p c = false | "" => True end →
  drop_while p (run_ +:+ t) = t.
Proof.
  intros Hall Ht. induction run_ as [|c run_ IH].
  - rewrite append_nil_l. destruct t as [|c t]; [done|]. cbn [drop_while]. by rewrite Ht.
  - cbn [all_chars] in Hall. apply andb_true_iff in Hall as [Hc Hall].
    rewrite append_cons. cbn [drop_while]. rewrite Hc. by apply IH.
Qed.

Lemma after_open_block intro lang rest :
  has_fence (intro +:+ "``") = false → all_chars isalpha_ascii lang = true →
  after_open (intro +:+ String "`" (String "`" (String "`" (lang +:+ String "010" rest))))
  = rest.
Proof.
  intros Hintro Hlang. unfold after_open. rewrite after_fence_first by done.
  rewrite drop_while_all by done. done.
Qed.

Lemma strip_fenced intro middle outro :
  strip (intro +:+ String "`" (String "`" (String "`"
           (middle +:+ String "`" (String "`" (String "`" outro))))))
  = lstrip intro +:+ String "`" (String "`" (String "`"
      (middle +:+ String "`" (String "`" (String "`" (rstrip outro)))))).
Proof.
  unfold strip. rewrite lstrip_append by done.
  rewrite <-!append_cons, <-!append_assoc.
  rewrite (rstrip_append _ "`") by done.
  by rewrite !rstrip_nonspace by done.
Qed.

(** X12. A fenced block is found among prose that uses backticks of its
    own: when the first fence of the response opens the block (with a
    language tag of letters and a newline) and the next fence closes it,
    both parsers go on with the body of the block, stripped, whatever
    follows the closing fence. *)
Theorem fenced_block_found intro lang body outro :
  has_fence (intro +:+ "``") = false → all_chars isalpha_ascii lang = true →
  has_fence (body +:+ "``") = false →
  fence_stripped (intro +:+ "```" +:+ lang +:+ LF +:+ body +:+ "```" +:+ outro)
    = strip body ∧
  (∀ exec_,
     executed (parse_tool_discovery_code_block exec_
                 (intro +:+ "```" +:+ lang +:+ LF +:+ body +:+ "```" +:+ outro))
     = [strip body]).
Proof.
  intros Hintro Hlang Hbody.
  change (intro +:+ "```" +:+ lang +:+ LF +:+ body +:+ "```" +:+ outro)
    with (intro +:+ String "`" (String "`" (String "`"
            (lang +:+ String "010" (body +:+ String "`" (String "`" (String "`" outro))))))).
  split.
  - rewrite fence_stripped_direct.
    rewrite <-(append_cons "010" body), <-append_assoc, strip_fenced.
    rewrite append_assoc, append_cons.
    rewrite after_open_block; [|rewrite ?append_nil_l|done].
    + by rewrite before_fence_first.
    + destruct (has_fence (lstrip intro +:+ "``")) eqn:E; [|done].
      destruct (lstrip_suffix intro) as [ws Hws].
      rewrite Hws, append_assoc in Hintro.
      by rewrite (has_fence_app_r _ _ E) in Hintro.
  - intros exec_. rewrite executed_direct, after_open_block by done.
    by rewrite before_fence_first.
Qed.

Lemma search_bracketed_some pos pre t :
  occurs "]" t = true →
  is_Some (Re.search_from bracketed pos (pre +:+ String "[" t)).
Proof.
  intros Ht.
  assert (∀ q u, occurs "]" u = true → is_Some (Re.furthest closes q u)) as Hclose.
  { intros q u. revert q. induction u as [|c u IH]; intros q Hu; [done|].
    cbn [occurs] in Hu. cbn [Re.furthest].
    destruct (occurs "]" u) eqn:E.
    - destruct (IH (S q) eq_refl) as [e ->]. by eexists.
    - rewrite orb_false_r in Hu. rewrite furthest_closes_none by done.
      unfold closes. cbn [Re.run Re.or_else]. rewrite Hu. by eexists. }
  revert pos. induction pre as [|c pre IH]; intros pos.
  - rewrite append_nil_l. cbn [Re.search_from]. rewrite match_at_bracketed, Ascii.eqb_refl.
    destruct (Hclose (S pos) t Ht) as [e ->]. by eexists.
  - rewrite append_cons. cbn [Re.search_from]. rewrite match_at_bracketed.
    destruct (Ascii.eqb c "[") eqn:Hc; [|apply IH].
    destruct (Hclose (S pos) (pre +:+ String "[" t)) as [e ->]; [|by eexists].
    rewrite occurs_append. cbn [occurs]. by rewrite Ht, !orb_true_r.
Qed.

(** X13. Whenever what is left after the fences has an opening bracket
    followed somewhere by a closing bracket, the text handed to the two
    parsers is a part of it that starts with [[] and ends with []]; so an
    object that holds a list is never parsed as a whole, only the
    bracketed part inside it is. *)
Theorem payload_bracket_delimited response pre t :
  fence_stripped response = pre +:+ "[" +:+ t → occurs "]" t = true →
  ∃ front mid back,
    payload response = "[" +:+ mid +:+ "]" ∧
    fence_stripped response = front +:+ payload response +:+ back.
Proof.
  intros Hs Ht. unfold payload, Re.search. rewrite Hs, append_char.
  destruct (search_bracketed_some 0 pre t Ht) as [m Hm]. rewrite Hm.
  destruct (search_bracketed_inv _ _ _ Hm) as (front & mid & back & Hdec & ->).
  exists front, mid, back. split; [done|].
  rewrite Hdec. by rewrite !append_assoc.
Qed.
End FenceCorollaries.

Section ListBeforeFence.
Import PyStr App Fences.
Variable json_loads : string → option pyval.
Variable literal_eval : string → option pyval.

(** Of a response with a fenced block only the block is left, whatever
    stands in front of it. *)
Lemma fence_stripped_first_block intro lang body outro :
  has_fence (intro +:+ "``") = false → all_chars isalpha_ascii lang = true →
  has_fence (body +:+ "``") = false →
  fence_stripped (intro +:+ "```" +:+ lang +:+ LF +:+ body +:+ "```" +:+ outro)
  = strip body.
Proof.
  intros Hintro Hlang Hbody.
  change (intro +:+ "```" +:+ lang +:+ LF +:+ body +:+ "```" +:+ outro)
    with (intro +:+ String "`" (String "`" (String "`"
            (lang +:+ String "010" (body +:+ String "`" (String "`" (String "`" outro))))))).
  rewrite fence_stripped_direct.
  rewrite <-(append_cons "010" body), <-append_assoc, strip_fenced.
  rewrite append_assoc, append_cons.
  rewrite after_open_block; [|rewrite ?append_nil_l|done].
  - by rewrite before_fence_first.
  - destruct (has_fence (lstrip intro +:+ "``")) eqn:E; [|done].
    destruct (lstrip_suffix intro) as [ws Hws].
    rewrite Hws, append_assoc in Hintro.
    by rewrite (has_fence_app_r _ _ E) in Hintro.
Qed.

(** C7 fails on the code.  A list that stands in front of a fenced
    block is lost: the first pattern deletes everything up to the first
    fence line, the list included, so what follows the list does affect
    the result.  Whatever [head] holds, when the block after it holds
    nothing that the two parsers read, the result is the empty list. *)
Theorem extract_list_or_json_list_before_fence head lang snippet outro :
  has_fence (head +:+ "``") = false → all_chars isalpha_ascii lang = true →
  has_fence (snippet +:+ "``") = false → occurs "[" snippet = false →
  json_loads (strip snippet) = None → literal_eval (strip snippet) = None →
  extract_list_or_json json_loads literal_eval
    (head +:+ "```" +:+ lang +:+ LF +:+ snippet +:+ "```" +:+ outro)
  = PyList [].
Proof.
  intros Hhead Hlang Hsnippet Hbracket Hjson Hliteral.
  pose proof (fence_stripped_first_block head lang snippet outro Hhead Hlang Hsnippet)
    as Hclean.
  unfold extract_list_or_json, loads_or_eval.
  rewrite payload_whole.
  - by rewrite Hclean, Hjson, Hliteral.
  - rewrite Hclean. intros (pre & mid & post & Hs).
    assert (occurs "[" (strip snippet) = true) as Hin.
    { rewrite Hs, occurs_append, append_char. cbn [occurs]. rewrite Ascii.eqb_refl.
      by rewrite orb_true_r. }
    by rewrite occurs_strip in Hin.
Qed.
End ListBeforeFence.

Lemma extract_list_or_json_list_before_fence_witness :
  App.extract_list_or_json Lite.json_loads Lite.literal_eval
    ("Here are the tools: [1, 2]" +:+ PyStr.LF +:+ "Install with:" +:+ PyStr.LF)
  = PyList [PyInt 1; PyInt 2] ∧
  App.extract_list_or_json Lite.json_loads Lite.literal_eval
    (("Here are the tools: [1, 2]" +:+ PyStr.LF +:+ "Install with:" +:+ PyStr.LF)
       +:+ "```" +:+ "bash" +:+ PyStr.LF +:+ ("pip install a" +:+ PyStr.LF) +:+ "```" +:+ "")
  = PyList [].
Proof.
  split; [vm_compute; reflexivity|].
  apply extract_list_or_json_list_before_fence; vm_compute; reflexivity.
Defined.

Lemma fenced_block_found_witness :
  App.fence_stripped
    ("Run `pip`, then:" +:+ PyStr.LF +:+ "```" +:+ "json" +:+ PyStr.LF
       +:+ ("[1]" +:+ PyStr.LF) +:+ "```" +:+ " and ```more```")
  = "[1]".
Proof.
  refine (proj1 (fenced_block_found ("Run `pip`, then:" +:+ PyStr.LF) "json"
                   ("[1]" +:+ PyStr.LF) " and ```more```" _ _ _)).
  - vm_compute. reflexivity.
  - vm_compute. reflexivity.
  - vm_compute. reflexivity.
Defined.

Lemma payload_bracket_delimited_witness :
  ∃ front mid back,
    App.payload "{'tools': [1, 2]}" = "[" +:+ mid +:+ "]" ∧
    App.fence_stripped "{'tools': [1, 2]}"
      = front +:+ App.payload "{'tools': [1, 2]}" +:+ back.
Proof.
  apply (payload_bracket_delimited "{'tools': [1, 2]}" "{'tools': " "1, 2]}").
  - vm_compute. reflexivity.
  - vm_compute. reflexivity.
Defined.

(** ** parse_framework_suggestion: the shape of the values *)

Section FrameworkValues.
Import PyStr App Fences.

Lemma all_chars_slice_from p n s :
  all_chars p s = true → all_chars p (slice_from n s) = true.
Proof.
  revert s. induction n as [|n IH]; intros [|c s] H; try done.
  cbn [all_chars] in H. apply andb_true_iff in H as [_ H]. cbn [slice_from]. by apply IH.
Qed.

Lemma all_chars_lstrip p s : all_chars p s = true → all_chars p (lstrip s) = true.
Proof.
  induction s as [|c s IH]; [done|]. intros H. cbn [lstrip].
  destruct (isspace c); [|done].
  cbn [all_chars] in H. apply andb_true_iff in H as [_ H]. by apply IH.
Qed.

Lemma all_chars_rstrip p s : all_chars p s = true → all_chars p (rstrip s) = true.
Proof.
  induction s as [|c s IH]; [done|]. cbn [all_chars rstrip].
  intros [Hc Hs]%andb_true_iff. specialize (IH Hs).
  destruct (rstrip s) as [|x r].
  - destruct (isspace c); [done|]. cbn [all_chars]. by rewrite Hc.
  - cbn [all_chars] in *. by rewrite Hc, IH.
Qed.

Lemma splitlines_single_line s :
  Forall (λ line, single_line line = true) (splitlines s).
Proof.
  assert (∀ n s, String.length s ≤ n →
                 Forall (λ line, single_line line = true) (splitlines s)) as Haux.
  { clear s. induction n as [|n IH]; intros [|c s] Hlen; try (simpl in Hlen; lia);
      try by constructor.
    simpl in Hlen. cbn [splitlines]. destruct (islinebreak c) eqn:Hc.
    - constructor; [done|]. destruct s as [|c' s']; [constructor|].
      simpl in Hlen. destruct (_ && _); apply IH; simpl; lia.
    - pose proof (IH s ltac:(lia)) as Hs.
      destruct (splitlines s) as [|line lines].
      + repeat constructor. unfold single_line. cbn [all_chars]. by rewrite Hc.
      + inversion Hs as [|?? Hline Hlines]; subst. constructor; [|done].
        unfold single_line in *. cbn [all_chars]. by rewrite Hc. }
  by apply (Haux (String.length s)).
Qed.

Lemma last_value_elem label lines v :
  last_value label lines = Some v → ∃ line, line ∈ lines ∧ v = value_of label line.
Proof.
  unfold last_value. destruct (last _) as [line|] eqn:E; [|done].
  intros [= <-]. exists line. split; [|done].
  apply last_Some_elem_of in E. by apply list_elem_of_filter in E as [_ ?].
Qed.

Lemma value_of_shape label line :
  single_line line = true →
  strip (value_of label line) = value_of label line ∧
  single_line (value_of label line) = true.
Proof.
  intros Hline. unfold value_of. split; [apply strip_idem|].
  unfold single_line, strip in *.
  by apply all_chars_rstrip, all_chars_lstrip, all_chars_slice_from.
Qed.

(** X14. What [parse_framework_suggestion] returns is clean: the
    framework, when there is one, and the justification carry no white
    space at either end and no line break, so a justification that runs
    over several lines is cut at the end of its first line. *)
Theorem parse_framework_suggestion_values response framework justification :
  parse_framework_suggestion response = Some (framework, justification) →
  (∀ v, framework = Some v → strip v = v ∧ single_line v = true) ∧
  strip justification = justification ∧ single_line justification = true.
Proof.
  unfold parse_framework_suggestion. rewrite for_line_last. intros [= <- <-].
  pose proof (splitlines_single_line (strip response)) as Hlines.
  rewrite Forall_forall in Hlines.
  split.
  - intros v Hv.
    destruct (last_value "framework:" _) as [v'|] eqn:E; [|done].
    injection Hv as <-.
    destruct (last_value_elem _ _ _ E) as (line & Hin & ->).
    apply value_of_shape. by apply Hlines.
  - destruct (last_value "justification:" _) as [v'|] eqn:E; [|done].
    destruct (last_value_elem _ _ _ E) as (line & Hin & ->). simpl.
    apply value_of_shape. by apply Hlines.
Qed.
End FrameworkValues.

Lemma parse_framework_suggestion_values_witness :
  PyStr.strip "it fits" = "it fits" ∧ Fences.single_line "it fits" = true.
Proof.
  refine (proj2 (parse_framework_suggestion_values
            ("Framework:  LangGraph " +:+ PyStr.LF +:+ "Justification: it fits" +:+ PyStr.LF
               +:+ "and it is small")
            (Some "LangGraph") "it fits" _)).
  vm_compute. reflexivity.
Defined.

(** * The cleaning of the diagram code in [main] *)

Section MermaidFacts.
Import PyStr Fences Mermaid.

Lemma fence_test line :
  startswith line "```mermaid" || startswith line "```" = starts_fence line.
Proof.
  unfold starts_fence. destruct (startswith line "```") eqn:E; [by rewrite orb_true_r|].
  rewrite orb_false_r. destruct line as [|a [|b [|c rest]]]; try done; cbn [startswith] in *.
  destruct (Ascii.eqb a "`"); [|done]. destruct (Ascii.eqb b "`"); [|done].
  destruct (Ascii.eqb c "`"); [|done]. by destruct rest.
Qed.

Lemma for_line_fence line rest b acc :
  is_fence_line line → for_line (line :: rest) b acc = for_line rest (negb b) acc.
Proof. unfold is_fence_line. intros H. cbn [for_line]. by rewrite fence_test, H. Qed.

Lemma for_line_keep line rest b acc :
  ¬ is_fence_line line → b = true ∨ is_header line →
  for_line (line :: rest) b acc = for_line rest b (acc +:+ strip line +:+ LF).
Proof.
  unfold is_fence_line, is_header. intros H%not_true_is_false Hk. cbn [for_line].
  rewrite fence_test, H.
  destruct Hk as [->|[->| ->]]; [done| |]; by rewrite ?orb_true_r.
Qed.

Lemma for_line_drop line rest acc :
  ¬ is_fence_line line → ¬ is_header line →
  for_line (line :: rest) false acc = for_line rest false acc.
Proof.
  unfold is_fence_line, is_header. intros H%not_true_is_false Hh. cbn [for_line].
  rewrite fence_test, H.
  destruct (startswith (strip line) "graph "); [by destruct Hh; left|].
  destruct (startswith (strip line) "flowchart "); [by destruct Hh; right|]. done.
Qed.

Lemma for_line_cons line rest b acc :
  for_line (line :: rest) b acc =
  if decide (is_fence_line line) then for_line rest (negb b) acc
  else if decide (b = true ∨ is_header line)
       then for_line rest b (acc +:+ strip line +:+ LF)
       else for_line rest b acc.
Proof.
  destruct (decide (is_fence_line line)) as [Hf|Hf]; [by apply for_line_fence|].
  destruct (decide (b = true ∨ is_header line)) as [Hk|Hk]; [by apply for_line_keep|].
  destruct b; [by destruct Hk; left|]. apply for_line_drop; [done|]. intros ?. apply Hk. by right.
Qed.

Lemma for_line_acc lines b acc : for_line lines b acc = acc +:+ for_line lines b "".
Proof.
  revert b acc. induction lines as [|line rest IH]; intros b acc.
  - cbn [for_line]. by rewrite append_nil_r.
  - rewrite !for_line_cons. destruct (decide (is_fence_line line)); [apply IH|].
    destruct (decide (b = true ∨ is_header line)); [|apply IH].
    rewrite IH, (IH _ ("" +:+ _)). by rewrite append_nil_l, !append_assoc.
Qed.

Lemma lines_text_app l1 l2 : lines_text (l1 ++ l2) = lines_text l1 +:+ lines_text l2.
Proof.
  induction l1 as [|line l1 IH]; [by rewrite append_nil_l|].
  cbn [app lines_text foldr]. fold (lines_text (l1 ++ l2)). fold (lines_text l1).
  by rewrite IH, !append_assoc.
Qed.

Lemma for_line_app l1 l2 b acc :
  for_line (l1 ++ l2) b acc = for_line l2 (flag_after l1 b) (for_line l1 b acc).
Proof.
  revert b acc. induction l1 as [|line l1 IH]; intros b acc; [done|].
  cbn [app]. rewrite !for_line_cons. unfold flag_after. cbn [foldl].
  fold (flag_after l1 (if decide (is_fence_line line) then negb b else b)).
  destruct (decide (is_fence_line line)); [apply IH|].
  destruct (decide (b = true ∨ is_header line)); apply IH.
Qed.

(** X15. The loop of [main] that cleans the diagram code only selects:
    what it builds is made of lines of the response, each one stripped
    and followed by a newline, in the order of the response, and no
    kept line starts with a fence. *)
Theorem for_line_keeps_lines lines in_code_block :
  ∃ kept,
    for_line lines in_code_block "" = lines_text kept ∧
    kept `sublist_of` (strip <$> lines) ∧
    Forall (λ line, starts_fence line = false) kept.
Proof.
  revert in_code_block. induction lines as [|line rest IH]; intros b.
  - exists []. by split_and!.
  - rewrite for_line_cons. destruct (decide (is_fence_line line)) as [Hf|Hf].
    + destruct (IH (negb b)) as (kept & -> & Hsub & Hall). exists kept.
      split_and!; [done| |done]. rewrite fmap_cons. by apply sublist_cons.
    + destruct (decide (b = true ∨ is_header line)).
      * destruct (IH b) as (kept & Hk & Hsub & Hall). exists (strip line :: kept).
        split_and!.
        -- rewrite for_line_acc, Hk. cbn [lines_text foldr]. fold (lines_text kept).
           by rewrite append_nil_l, append_assoc.
        -- rewrite fmap_cons. by apply sublist_skip.
        -- constructor; [|done]. by apply not_true_is_false.
      * destruct (IH b) as (kept & -> & Hsub & Hall). exists kept.
        split_and!; [done| |done]. rewrite fmap_cons. by apply sublist_cons.
Qed.

Lemma for_line_outside lines acc :
  Forall (λ line, ¬ is_fence_line line ∧ ¬ is_header line) lines →
  for_line lines false acc = acc.
Proof.
  induction 1 as [|line rest [Hf Hh] _ IH]; [done|].
  by rewrite for_line_drop.
Qed.

Lemma for_line_inside body rest acc :
  Forall (λ line, ¬ is_fence_line line) body →
  for_line (body ++ rest) true acc = for_line rest true (acc +:+ lines_text (strip <$> body)).
Proof.
  intros H. revert acc. induction H as [|line body Hf _ IH]; intros acc.
  - cbn [app fmap list_fmap lines_text foldr]. by rewrite append_nil_r.
  - cbn [app]. rewrite for_line_keep by auto. rewrite IH, fmap_cons.
    cbn [lines_text foldr]. fold (lines_text (strip <$> body)). by rewrite !append_assoc.
Qed.

Lemma for_line_unfenced lines acc :
  Forall (λ line, ¬ is_fence_line line) lines →
  for_line lines false acc = acc +:+ lines_text (strip <$> filter is_header lines).
Proof.
  intros H. revert acc. induction H as [|line rest Hf _ IH]; intros acc.
  - cbn. by rewrite append_nil_r.
  - rewrite filter_cons. destruct (decide (is_header line)) as [Hh|Hh].
    + rewrite for_line_keep by auto. rewrite IH, fmap_cons.
      cbn [lines_text foldr]. fold (lines_text (strip <$> filter is_header rest)).
      by rewrite !append_assoc.
    + rewrite for_line_drop by done. apply IH.
Qed.

Lemma rstrip_blank s : rstrip s = "" ↔ all_chars isspace s = true.
Proof.
  induction s as [|c s IH]; [done|]. cbn [rstrip all_chars].
  destruct (rstrip s) as [|x r].
  - destruct (isspace c); [|by split]. cbn [andb]. split; [intros _; by apply IH|done].
  - split; [done|]. intros [_ H]%andb_true_iff. by apply IH in H.
Qed.

Lemma lstrip_blank s : all_chars isspace (lstrip s) = all_chars isspace s.
Proof.
  induction s as [|c s IH]; [done|]. cbn [lstrip all_chars].
  destruct (isspace c) eqn:E; [done|]. cbn [all_chars]. by rewrite E.
Qed.

Lemma strip_blank s : strip s = "" ↔ all_chars isspace s = true.
Proof. unfold strip. by rewrite rstrip_blank, lstrip_blank. Qed.

Lemma all_chars_append p (a b : string) :
  all_chars p (a +:+ b) = all_chars p a && all_chars p b.
Proof.
  induction a as [|c a IH]; [by rewrite append_nil_l|].
  rewrite append_cons. cbn [all_chars]. by rewrite IH, andb_assoc.
Qed.

Lemma lines_text_blank lines :
  all_chars isspace (lines_text lines) = true →
  Forall (λ line, all_chars isspace line = true) lines.
Proof.
  induction lines as [|line rest IH]; [constructor|].
  cbn [lines_text foldr]. fold (lines_text rest). rewrite !all_chars_append.
  intros [Hl [_ Hr]%andb_true_iff]%andb_true_iff. constructor; auto.
Qed.

Lemma header_not_blank line : is_header line → all_chars isspace (strip line) = false.
Proof.
  unfold is_header. destruct (strip line) as [|c t]; [by intros [|]|].
  cbn [startswith all_chars].
  intros [[->%ascii_eqb_true _]%andb_true_iff|[->%ascii_eqb_true _]%andb_true_iff]; done.
Qed.

(** X16. A response without any fence line, in which some line starts
    with "graph " or "flowchart ", is reduced to those lines: the lines
    that describe the nodes and edges are dropped. *)
Theorem unfenced_diagram_keeps_headers mermaid_code :
  Forall (λ line, ¬ is_fence_line line) (splitlines (strip mermaid_code)) →
  Exists is_header (splitlines (strip mermaid_code)) →
  clean_mermaid_code mermaid_code =
  lines_text (strip <$> filter is_header (splitlines (strip mermaid_code))).
Proof.
  intros Hf Hh. unfold clean_mermaid_code.
  rewrite for_line_unfenced, append_nil_l by done.
  destruct (String.eqb_spec (strip (lines_text
    (strip <$> filter is_header (splitlines (strip mermaid_code))))) "") as [E|E]; [|done].
  apply strip_blank, lines_text_blank in E. rewrite Forall_forall in E.
  apply Exists_exists in Hh as (line & Hin & Hline).
  pose proof (header_not_blank _ Hline) as Hnb.
  rewrite E in Hnb; [done|]. apply list_elem_of_fmap. exists line. split; [done|].
  by apply list_elem_of_filter.
Qed.

(** X17. A response whose lines hold one fenced block, with no line
    before or after it that starts with "graph " or "flowchart ", is
    reduced to the lines between the two fence lines, provided one of
    them is not blank. *)
Theorem fenced_diagram_body mermaid_code pre opening body closing post :
  splitlines (strip mermaid_code) = pre ++ opening :: body ++ closing :: post →
  Forall (λ line, ¬ is_fence_line line ∧ ¬ is_header line) pre →
  is_fence_line opening →
  Forall (λ line, ¬ is_fence_line line) body →
  is_fence_line closing →
  Forall (λ line, ¬ is_fence_line line ∧ ¬ is_header line) post →
  Exists (λ line, strip line ≠ "") body →
  clean_mermaid_code mermaid_code = lines_text (strip <$> body).
Proof.
  intros Hlines Hpre Hopen Hbody Hclose Hpost Hne. unfold clean_mermaid_code.
  rewrite Hlines, for_line_app, (for_line_outside pre) by done.
  assert (flag_after pre false = false) as ->.
  { clear -Hpre. induction Hpre as [|line rest [Hf _] _ IH]; [done|].
    unfold flag_after in *. cbn [foldl]. by rewrite decide_False. }
  rewrite for_line_fence by done. cbn [negb].
  rewrite for_line_inside, append_nil_l by done.
  rewrite for_line_fence by done. cbn [negb]. rewrite for_line_outside by done.
  destruct (String.eqb_spec (strip (lines_text (strip <$> body))) "") as [E|E]; [|done].
  apply strip_blank, lines_text_blank in E. rewrite Forall_forall in E.
  apply Exists_exists in Hne as (line & Hin & Hline). destruct Hline.
  rewrite <- strip_idem. apply strip_blank, E, list_elem_of_fmap. eauto.
Qed.

Lemma splitlines_head s line lines :
  splitlines s = line :: lines → ∃ rest, s = line +:+ rest.
Proof.
  revert line lines. induction s as [|c s IH]; intros line lines; [done|].
  cbn [splitlines]. destruct (islinebreak c).
  - intros [= <- _]. eexists. by rewrite append_nil_l.
  - destruct (splitlines s) as [|l ls].
    + intros [= <- _]. exists s. by rewrite append_char.
    + intros [= <- _]. destruct (IH _ _ eq_refl) as [rest ->]. exists rest.
      by rewrite append_cons.
Qed.

Lemma has_fence_tail c s : has_fence (String c s) = false → has_fence s = false.
Proof. cbn [has_fence]. by intros [_ ?]%orb_false_iff. Qed.

Lemma has_fence_starts s : has_fence s = false → starts_fence s = false.
Proof. destruct s; [done|]. cbn [has_fence]. by intros [? _]%orb_false_iff. Qed.

Lemma has_fence_lines s :
  has_fence s = false → Forall (λ line, has_fence line = false) (splitlines s).
Proof.
  assert (∀ n s, String.length s ≤ n → has_fence s = false →
                 Forall (λ line, has_fence line = false) (splitlines s)) as Haux.
  { clear s. induction n as [|n IH]; intros [|c s] Hlen Hs; try (simpl in Hlen; lia);
      try by constructor.
    simpl in Hlen. cbn [splitlines]. pose proof (has_fence_tail _ _ Hs) as Hs'.
    destruct (islinebreak c) eqn:Hc.
    - constructor; [done|]. destruct s as [|c' s']; [constructor|].
      simpl in Hlen. pose proof (has_fence_tail _ _ Hs') as Hs''.
      destruct (_ && _); apply IH; simpl; first [lia|done].
    - pose proof (IH s ltac:(lia) Hs') as Hl.
      destruct (splitlines s) as [|line lines] eqn:E.
      + repeat constructor. cbn [has_fence]. unfold starts_fence. cbn [startswith].
        by destruct (Ascii.eqb c "`").
      + inversion Hl as [|?? Hline Hlines]; subst. constructor; [|done].
        cbn [has_fence]. rewrite Hline, orb_false_r.
        destruct (starts_fence (String c line)) eqn:Hst; [|done].
        destruct (splitlines_head _ _ _ E) as [rest ->].
        apply has_fence_starts in Hs. rewrite <- append_cons in Hs.
        by rewrite (starts_fence_app _ _ Hst) in Hs. }
  by apply (Haux (String.length s)).
Qed.

Lemma has_fence_slice_from n s :
  has_fence s = false → has_fence (slice_from n s) = false.
Proof.
  revert s. induction n as [|n IH]; intros [|c s] H; try done.
  cbn [slice_from]. by apply IH, (has_fence_tail c).
Qed.

Lemma has_fence_endswith s : has_fence s = false → endswith s "```" = false.
Proof.
  intros H. unfold endswith. apply andb_false_iff. right.
  apply String.eqb_neq. intros E.
  pose proof (has_fence_slice_from (String.length s - String.length "```") _ H) as H'.
  by rewrite E in H'.
Qed.

(** X18. A response with no three backticks in a row and no line that
    starts with "graph " or "flowchart " goes through the fallback
    unchanged: the diagram code is the stripped response. *)
Theorem plain_text_diagram mermaid_code :
  has_fence mermaid_code = false →
  Forall (λ line, ¬ is_header line) (splitlines (strip mermaid_code)) →
  clean_mermaid_code mermaid_code = strip mermaid_code.
Proof.
  intros Hf Hh. apply has_fence_strip in Hf. unfold clean_mermaid_code.
  rewrite for_line_outside.
  - cbn [strip lstrip rstrip String.eqb].
    assert (startswith (strip mermaid_code) "```mermaid" = false) as ->.
    { pose proof (fence_test (strip mermaid_code)) as Ht.
      rewrite (has_fence_starts _ Hf) in Ht. by apply orb_false_iff in Ht as [? _]. }
    by rewrite has_fence_endswith.
  - pose proof (has_fence_lines _ Hf) as Hl. rewrite Forall_forall in Hl, Hh |- *.
    intros line Hin. split; [|by apply Hh]. unfold is_fence_line.
    by rewrite (has_fence_starts _ (has_fence_strip _ (Hl _ Hin))).
Qed.

End MermaidFacts.

Lemma unfenced_diagram_keeps_headers_witness :
  Mermaid.clean_mermaid_code ("graph TD" +:+ PyStr.LF +:+ "  A-->B") =
  Mermaid.lines_text ["graph TD"].
Proof.
  refine (eq_trans (unfenced_diagram_keeps_headers
                      ("graph TD" +:+ PyStr.LF +:+ "  A-->B") _ _) _).
  - apply (bool_decide_unpack _). vm_compute. reflexivity.
  - apply (bool_decide_unpack _). vm_compute. reflexivity.
  - vm_compute. reflexivity.
Defined.

Lemma fenced_diagram_body_witness :
  Mermaid.clean_mermaid_code
    ("Here it is:" +:+ PyStr.LF +:+ "```mermaid" +:+ PyStr.LF +:+ "graph TD" +:+ PyStr.LF
       +:+ "  A --> B" +:+ PyStr.LF +:+ "```" +:+ PyStr.LF +:+ "Done.") =
  Mermaid.lines_text ["graph TD"; "A --> B"].
Proof.
  refine (eq_trans (fenced_diagram_body _ ["Here it is:"] "```mermaid"
                      ["graph TD"; "  A --> B"] "```" ["Done."] _ _ _ _ _ _ _) _).
  - vm_compute. reflexivity.
  - apply (bool_decide_unpack _). vm_compute. reflexivity.
  - vm_compute. reflexivity.
  - apply (bool_decide_unpack _). vm_compute. reflexivity.
  - vm_compute. reflexivity.
  - apply (bool_decide_unpack _). vm_compute. reflexivity.
  - apply (bool_decide_unpack _). vm_compute. reflexivity.
  - vm_compute. reflexivity.
Defined.

Lemma plain_text_diagram_witness :
  Mermaid.clean_mermaid_code (" A --> B" +:+ PyStr.LF +:+ "B --> C" +:+ PyStr.LF) =
  PyStr.strip (" A --> B" +:+ PyStr.LF +:+ "B --> C" +:+ PyStr.LF).
Proof.
  apply plain_text_diagram.
  - vm_compute. reflexivity.
  - apply (bool_decide_unpack _). vm_compute. reflexivity.
Defined.

(** * The provider functions *)

Section ProviderFacts.
Import Providers.

Lemma item_done v key x :
  item v key = Done x ↔ ∃ entries, v = JDict entries ∧ dict_get entries key = Some x.
Proof.
  split.
  - destruct v as [| | | | | |entries]; try done. cbn [item].
    destruct (dict_get entries key) as [y|] eqn:E; [|done]. intros [= <-]. eauto.
  - intros (entries & -> & E). cbn [item]. by rewrite E.
Qed.

Lemma item0_item_done v key x :
  item0 v ≫= (λ first, item first key) = Done x ↔
  ∃ first rest, v = JList (JDict first :: rest) ∧ dict_get first key = Some x.
Proof.
  split.
  - destruct v as [| | | |s|items|entries]; try done.
    + by destruct s.
    + destruct items as [|first rest]; [done|]. cbn.
      intros (entries & -> & E)%item_done. eauto.
  - intros (first & rest & -> & E). cbn. by rewrite E.
Qed.

Lemma exchange_done w req result :
  exchange w req = Done result ↔
  ∃ resp, post w req = Some resp ∧ ¬ (400 ≤ status_code resp < 600)%Z ∧
          body resp = Some result.
Proof.
  unfold exchange. split.
  - destruct (post w req) as [resp|]; [|done].
    destruct (_ && _) eqn:E; [done|]. destruct (body resp) as [j|] eqn:Hb; [|done].
    intros [= <-]. exists resp. split_and!; [done| |done]. lia.
  - intros (resp & -> & Hs & ->).
    destruct (_ && _) eqn:E; [|done]. lia.
Qed.

Lemma groq_content_done result v :
  groq_content result = Done v ↔
  ∃ entries first rest message,
    result = JDict entries ∧
    dict_get entries "choices" = Some (JList (JDict first :: rest)) ∧
    dict_get first "message" = Some (JDict message) ∧
    dict_get message "content" = Some v.
Proof.
  unfold groq_content. split.
  - destruct (item result "choices") as [choices|] eqn:E1; [|done].
    apply item_done in E1 as (entries & -> & E1). cbn [mbind attempt_bind].
    destruct (item0 choices) as [first|] eqn:E2; [|done]. cbn [mbind attempt_bind].
    destruct (item first "message") as [message|] eqn:E3; [|done]. cbn [mbind attempt_bind].
    intros (msg & -> & E4)%item_done.
    assert (item0 choices ≫= (λ first, item first "message") = Done (JDict msg)) as H.
    { by rewrite E2. }
    apply item0_item_done in H as (f & rest & -> & Hf). by exists entries, f, rest, msg.
  - intros (entries & first & rest & message & -> & E1 & E2 & E3).
    cbn. rewrite E1. cbn. rewrite E2. cbn. by rewrite E3.
Qed.

Lemma gemini_text_done result v :
  gemini_text result = Done v ↔
  ∃ entries first rest content part parts,
    result = JDict entries ∧
    dict_get entries "candidates" = Some (JList (JDict first :: rest)) ∧
    dict_get first "content" = Some (JDict content) ∧
    dict_get content "parts" = Some (JList (JDict part :: parts)) ∧
    dict_get part "text" = Some v.
Proof.
  unfold gemini_text. split.
  - destruct (item result "candidates") as [candidates|] eqn:E1; [|done].
    apply item_done in E1 as (entries & -> & E1). cbn [mbind attempt_bind].
    destruct (item0 candidates) as [first|] eqn:E2; [|done]. cbn [mbind attempt_bind].
    destruct (item first "content") as [content|] eqn:E3; [|done]. cbn [mbind attempt_bind].
    intros H.
    assert (item0 candidates ≫= (λ first, item first "content") = Done content) as H1.
    { by rewrite E2. }
    apply item0_item_done in H1 as (f & rest & -> & Hf).
    destruct (item content "parts") as [ps|] eqn:E4; [|done].
    apply item_done in E4 as (cont & -> & E4). cbn [mbind attempt_bind] in H.
    apply item0_item_done in H as (part & parts & -> & Hp).
    by exists entries, f, rest, cont, part, parts.
  - intros (entries & first & rest & content & part & parts & -> & E1 & E2 & E3 & E4).
    cbn. rewrite E1. cbn. rewrite E2. cbn. rewrite E3. cbn. by rewrite E4.
Qed.

Lemma truthy_Some key : truthy (Some key) = true ↔ key ≠ "".
Proof.
  cbn [truthy]. destruct (String.eqb_spec key ""); split; done.
Qed.

Lemma call_groq_keyed w key prompt model max_tokens temperature :
  environ w !! "GROQ_API_KEY" = Some key → key ≠ "" →
  call_groq w prompt model max_tokens temperature =
  (exchange w (groq_request key prompt model max_tokens temperature) ≫= groq_content,
   [groq_request key prompt model max_tokens temperature]).
Proof. intros E Hk%truthy_Some. unfold call_groq. by rewrite E, Hk. Qed.

Lemma call_gemini_keyed w key prompt model max_tokens temperature :
  environ w !! "GOOGLE_API_KEY" = Some key → key ≠ "" →
  call_gemini w prompt model max_tokens temperature =
  (exchange w (gemini_request key prompt model max_tokens temperature) ≫= gemini_text,
   [gemini_request key prompt model max_tokens temperature]).
Proof. intros E Hk%truthy_Some. unfold call_gemini. by rewrite E, Hk. Qed.

Lemma call_groq_no_key w prompt model max_tokens temperature :
  truthy (environ w !! "GROQ_API_KEY") = false →
  call_groq w prompt model max_tokens temperature =
  (Raise (ValueError "GROQ_API_KEY environment variable not set."), []).
Proof. unfold call_groq. destruct (environ w !! "GROQ_API_KEY"); [by intros ->|done]. Qed.

Lemma call_gemini_no_key w prompt model max_tokens temperature :
  truthy (environ w !! "GOOGLE_API_KEY") = false →
  call_gemini w prompt model max_tokens temperature =
  (Raise (ValueError "GOOGLE_API_KEY environment variable not set."), []).
Proof. unfold call_gemini. destruct (environ w !! "GOOGLE_API_KEY"); [by intros ->|done]. Qed.

Lemma bind_done {A B} (m : attempt A) (f : A → attempt B) b :
  m ≫= f = Done b ↔ ∃ a, m = Done a ∧ f a = Done b.
Proof.
  destruct m as [a|e]; cbn; split; eauto.
  - by intros (a' & [= <-] & ?).
  - done.
  - by intros (? & ? & ?).
Qed.

(** X19. [call_groq] of utils/llm_helpers.py returns a value in one
    case only: the key is set and not empty, the one request it posts is
    answered with a status outside 400..599 and a JSON object, and that
    object holds the value at [choices[0].message.content], with a list
    under [choices] and objects along the path.  In every other case it
    raises. *)
Theorem call_groq_returns w prompt model max_tokens temperature v reqs :
  call_groq w prompt model max_tokens temperature = (Done v, reqs) ↔
  ∃ key resp entries first rest message,
    environ w !! "GROQ_API_KEY" = Some key ∧ key ≠ "" ∧
    reqs = [groq_request key prompt model max_tokens temperature] ∧
    post w (groq_request key prompt model max_tokens temperature) = Some resp ∧
    ¬ (400 ≤ status_code resp < 600)%Z ∧
    body resp = Some (JDict entries) ∧
    dict_get entries "choices" = Some (JList (JDict first :: rest)) ∧
    dict_get first "message" = Some (JDict message) ∧
    dict_get message "content" = Some v.
Proof.
  split.
  - destruct (truthy (environ w !! "GROQ_API_KEY")) eqn:Ht;
      [|by rewrite call_groq_no_key].
    destruct (environ w !! "GROQ_API_KEY") as [key|] eqn:Hkey; [|done].
    apply truthy_Some in Ht. rewrite (call_groq_keyed _ key) by done.
    intros [= H <-]. apply bind_done in H as (result & Hx & Hc).
    apply exchange_done in Hx as (resp & Hpost & Hst & Hbody).
    apply groq_content_done in Hc as (entries & first & rest & message & -> & ? & ? & ?).
    by exists key, resp, entries, first, rest, message.
  - intros (key & resp & entries & first & rest & message
            & Hkey & Hne & -> & Hpost & Hst & Hbody & H1 & H2 & H3).
    rewrite (call_groq_keyed _ key) by done. f_equal.
    apply bind_done. exists (JDict entries). split.
    + apply exchange_done. eauto.
    + apply groq_content_done. by exists entries, first, rest, message.
Qed.

(** X20. [call_gemini] of utils/llm_helpers.py returns a value in one
    case only: the key is set and not empty, the one request it posts
    (whose URL carries the model and the key) is answered with a status
    outside 400..599 and a JSON object that holds the value at
    [candidates[0].content.parts[0].text].  In every other case it
    raises. *)
Theorem call_gemini_returns w prompt model max_tokens temperature v reqs :
  call_gemini w prompt model max_tokens temperature = (Done v, reqs) ↔
  ∃ key resp entries first rest content part parts,
    environ w !! "GOOGLE_API_KEY" = Some key ∧ key ≠ "" ∧
    reqs = [gemini_request key prompt model max_tokens temperature] ∧
    post w (gemini_request key prompt model max_tokens temperature) = Some resp ∧
    ¬ (400 ≤ status_code resp < 600)%Z ∧
    body resp = Some (JDict entries) ∧
    dict_get entries "candidates" = Some (JList (JDict first :: rest)) ∧
    dict_get first "content" = Some (JDict content) ∧
    dict_get content "parts" = Some (JList (JDict part :: parts)) ∧
    dict_get part "text" = Some v.
Proof.
  split.
  - destruct (truthy (environ w !! "GOOGLE_API_KEY")) eqn:Ht;
      [|by rewrite call_gemini_no_key].
    destruct (environ w !! "GOOGLE_API_KEY") as [key|] eqn:Hkey; [|done].
    apply truthy_Some in Ht. rewrite (call_gemini_keyed _ key) by done.
    intros [= H <-]. apply bind_done in H as (result & Hx & Hc).
    apply exchange_done in Hx as (resp & Hpost & Hst & Hbody).
    apply gemini_text_done in Hc
      as (entries & first & rest & content & part & parts & -> & ? & ? & ? & ?).
    by exists key, resp, entries, first, rest, content, part, parts.
  - intros (key & resp & entries & first & rest & content & part & parts
            & Hkey & Hne & -> & Hpost & Hst & Hbody & H1 & H2 & H3 & H4).
    rewrite (call_gemini_keyed _ key) by done. f_equal.
    apply bind_done. exists (JDict entries). split.
    + apply exchange_done. eauto.
    + apply gemini_text_done. by exists entries, first, rest, content, part, parts.
Qed.

End ProviderFacts.

Section GuardedFacts.
Import Providers.
Variable nonzero : string → bool.

Local Abbreviation guarded := (QueryLlm.guarded nonzero).
Local Abbreviation json_truthy := (QueryLlm.json_truthy nonzero).



Lemma guarded_falsy key path entries :
  dict_get entries key = None ∨
  (∃ value, dict_get entries key = Some value ∧ json_truthy value = false) →
  guarded key path (JDict entries) = Done JNull.
Proof.
  unfold QueryLlm.guarded. cbn [QueryLlm.contains mbind attempt_bind].
  intros [E|(value & E & Hf)].
  - rewrite bool_decide_false; [done|]. rewrite E. by intros [].
  - rewrite bool_decide_true by eauto. cbn [item]. rewrite E. cbn [mbind attempt_bind].
    by rewrite Hf.
Qed.

Lemma item_item0_falsy entries key (next : json → attempt json) :
  dict_get entries key = None ∨
  (∃ value, dict_get entries key = Some value ∧ json_truthy value = false) →
  ∃ e, item (JDict entries) key ≫= (λ value, item0 value ≫= next) = Raise e.
Proof.
  cbn [item]. intros [->|(value & -> & Hf)]; cbn [mbind attempt_bind]; [eauto|].
  destruct value as [| | | |s|items|es]; cbn [item0 mbind attempt_bind]; eauto.
  - destruct s; [eauto|done].
  - destruct items; [eauto|done].
Qed.



Lemma bind_cases {A B} (m : attempt A) (f : A → attempt B) :
  (∃ a, m = Done a ∧ m ≫= f = f a) ∨ (∃ e, m = Raise e ∧ m ≫= f = Raise e).
Proof. destruct m; [left|right]; eauto. Qed.





(** X22. Where the answer is a JSON object without [choices], or with a
    [choices] that is empty or otherwise falsy, [call_groq] of
    query_llm.py returns [None] and [call_groq] of utils/llm_helpers.py
    raises; so it is for [call_gemini] and [candidates]. *)
Theorem guarded_returns_none w key prompt model max_tokens temperature entries :
  (environ w !! "GROQ_API_KEY" = Some key → key ≠ "" →
   exchange w (groq_request key prompt model max_tokens temperature) = Done (JDict entries) →
   dict_get entries "choices" = None ∨
   (∃ value, dict_get entries "choices" = Some value ∧ json_truthy value = false) →
   fst (QueryLlm.call_groq nonzero w prompt model max_tokens temperature) = Done JNull ∧
   ∃ e, fst (Providers.call_groq w prompt model max_tokens temperature) = Raise e) ∧
  (environ w !! "GOOGLE_API_KEY" = Some key → key ≠ "" →
   exchange w (gemini_request key prompt model max_tokens temperature) = Done (JDict entries) →
   dict_get entries "candidates" = None ∨
   (∃ value, dict_get entries "candidates" = Some value ∧ json_truthy value = false) →
   fst (QueryLlm.call_gemini nonzero w prompt model max_tokens temperature) = Done JNull ∧
   ∃ e, fst (Providers.call_gemini w prompt model max_tokens temperature) = Raise e).
Proof.
  split; intros Hkey Hne%truthy_Some Hx Hmiss.
  - unfold Providers.call_groq, QueryLlm.call_groq. rewrite Hkey, Hne. cbn [fst].
    rewrite Hx. cbn [mbind attempt_bind]. split; [by apply guarded_falsy|].
    apply (item_item0_falsy _ _ _ Hmiss).
  - unfold Providers.call_gemini, QueryLlm.call_gemini. rewrite Hkey, Hne. cbn [fst].
    rewrite Hx. cbn [mbind attempt_bind]. split; [by apply guarded_falsy|].
    apply (item_item0_falsy _ _ _ Hmiss).
Qed.

End GuardedFacts.

Section NoKeys.
Import Providers.
Variable describe : exn → string.
Variable w : world.
Variable prompt : string.
Variable max_tokens : Z.
Variable temperature : pyval.

Local Abbreviation table :=
  (PROVIDER_FN (as_invoker describe (call_groq w)) (as_invoker describe (call_gemini w))).

Lemma table_lookup prov fn :
  table !! prov = Some fn →
  fn = as_invoker describe (call_groq w) ∨ fn = as_invoker describe (call_gemini w).
Proof.
  unfold PROVIDER_FN. intros H.
  apply lookup_insert_Some in H as [[_ <-]|[_ H]]; [by left|].
  apply lookup_singleton_Some in H as [_ <-]. by right.
Qed.

Lemma for_conf_raise (fn : invoker) prov mod_ e rest st :
  table !! prov = Some fn → ((prov, mod_) ∉ tried st) →
  fn (calls st) prompt mod_ max_tokens temperature = Raises e →
  for_conf table prompt max_tokens temperature (Conf prov mod_ :: rest) st =
  for_conf table prompt max_tokens temperature rest
    {| tried := tried st ∪ {[ (prov, mod_) ]};
       errors := errors st ++ [error_entry prov mod_ e];
       calls := calls st ++ [(prov, mod_)] |}.
Proof.
  intros Hfn Hnew He. cbn [for_conf conf_provider conf_model].
  rewrite Hfn, decide_False by done. by rewrite He.
Qed.

(** X23. With neither API key in the environment, every query through
    the repository's tables fails without a request being posted; when
    no provider is preferred, the message names the two missing keys in
    the order of the priority list. *)
Theorem query_llm_without_keys provider model :
  truthy (environ w !! "GROQ_API_KEY") = false →
  truthy (environ w !! "GOOGLE_API_KEY") = false →
  (∃ msg, query_llm table LLM_PRIORITY prompt provider model max_tokens temperature
          = RuntimeError msg) ∧
  query_llm table LLM_PRIORITY prompt None None max_tokens temperature
  = RuntimeError
      ("All LLM providers failed. Errors: "
       +:+ "groq:llama3-70b-8192 -- GROQ_API_KEY environment variable not set."
       +:+ " | "
       +:+ "google:gemini-2.0-flash -- GOOGLE_API_KEY environment variable not set.") ∧
  (∀ model', snd (call_groq w prompt model' max_tokens temperature) = [] ∧
             snd (call_gemini w prompt model' max_tokens temperature) = []).
Proof.
  intros Hgroq Hgoogle. split_and!.
  - unfold query_llm, query_llm_run.
    destruct (for_conf_all_raise table prompt max_tokens temperature
                (config_list LLM_PRIORITY provider model) init_state) as [st ->]; [|eauto].
    intros c fn h _ [-> | ->]%table_lookup; unfold as_invoker.
    + rewrite call_groq_no_key by done. eauto.
    + rewrite call_gemini_no_key by done. eauto.
  - unfold query_llm, query_llm_run, config_list, LLM_PRIORITY. cbn [app].
    rewrite !filter_cons, filter_nil.
    rewrite !decide_True by done.
    erewrite for_conf_raise; [|done|apply not_elem_of_empty|].
    2:{ unfold as_invoker. by rewrite call_groq_no_key. }
    erewrite for_conf_raise; [|done| |].
    2:{ cbn [tried init_state]. intros [H|H]%elem_of_union; [by apply elem_of_empty in H|].
        by apply elem_of_singleton in H. }
    2:{ unfold as_invoker. by rewrite call_gemini_no_key. }
    cbn [for_conf errors init_state app str]. done.
  - intros model'. by rewrite call_groq_no_key, call_gemini_no_key.
Qed.
End NoKeys.

Lemma call_groq_returns_witness :
  Providers.call_groq
    {| Providers.environ := {[ "GROQ_API_KEY" := "k" ]};
       Providers.post := λ _, Some (Providers.Response 200 (Some (Providers.JDict
         [("choices", Providers.JList [Providers.JDict
            [("message", Providers.JDict [("content", Providers.JStr "hi")])]])]))) |}
    "p" "m" 10%Z (PyFloat "0.7")
  = (Providers.Done (Providers.JStr "hi"),
     [Providers.groq_request "k" "p" "m" 10%Z (PyFloat "0.7")]).
Proof.
  apply (proj2 (call_groq_returns _ _ _ _ _ _ _)).
  eexists "k", _, _, _, _, _. split_and!; try (vm_compute; reflexivity).
  - done.
  - cbn. lia.
Defined.

Lemma call_gemini_returns_witness :
  Providers.call_gemini
    {| Providers.environ := {[ "GOOGLE_API_KEY" := "k" ]};
       Providers.post := λ _, Some (Providers.Response 200 (Some (Providers.JDict
         [("candidates", Providers.JList [Providers.JDict
            [("content", Providers.JDict
               [("parts", Providers.JList
                  [Providers.JDict [("text", Providers.JStr "hi")]])])]])]))) |}
    "p" "m" 10%Z (PyFloat "0.7")
  = (Providers.Done (Providers.JStr "hi"),
     [Providers.gemini_request "k" "p" "m" 10%Z (PyFloat "0.7")]).
Proof.
  apply (proj2 (call_gemini_returns _ _ _ _ _ _ _)).
  eexists "k", _, _, _, _, _, _, _. split_and!; try (vm_compute; reflexivity).
  - done.
  - cbn. lia.
Defined.


Lemma guarded_returns_none_witness :
  fst (QueryLlm.call_groq (λ _, true)
         {| Providers.environ := {[ "GROQ_API_KEY" := "k" ]};
            Providers.post := λ _, Some (Providers.Response 200 (Some (Providers.JDict
              [("choices", Providers.JList [])]))) |}
         "p" "m" 10%Z (PyFloat "0.7"))
  = Providers.Done Providers.JNull ∧
  ∃ e, fst (Providers.call_groq
         {| Providers.environ := {[ "GROQ_API_KEY" := "k" ]};
            Providers.post := λ _, Some (Providers.Response 200 (Some (Providers.JDict
              [("choices", Providers.JList [])]))) |}
         "p" "m" 10%Z (PyFloat "0.7")) = Providers.Raise e.
Proof.
  apply (proj1 (guarded_returns_none (λ _, true) _ "k" "p" "m" 10%Z (PyFloat "0.7")
                  [("choices", Providers.JList [])])).
  - vm_compute. reflexivity.
  - done.
  - vm_compute. reflexivity.
  - right. exists (Providers.JList []). split; vm_compute; reflexivity.
Defined.

Lemma query_llm_without_keys_witness :
  ∃ msg,
    query_llm
      (PROVIDER_FN
         (Providers.as_invoker (λ _, "error")
            (Providers.call_groq {| Providers.environ := ∅; Providers.post := λ _, None |}))
         (Providers.as_invoker (λ _, "error")
            (Providers.call_gemini {| Providers.environ := ∅; Providers.post := λ _, None |})))
      LLM_PRIORITY "p" (Some "groq") (Some "m") 10%Z (PyFloat "0.7")
    = RuntimeError msg.
Proof.
  refine (proj1 (query_llm_without_keys (λ _, "error")
                   {| Providers.environ := ∅; Providers.post := λ _, None |}
                   "p" 10%Z (PyFloat "0.7") (Some "groq") (Some "m") _ _));
    vm_compute; reflexivity.
Defined.

(** * The rows of the framework comparison table *)

Section TableFacts.
Import PyStr Tables.

Lemma bare_pipes_app e (s t : string) :
  bare_pipes e (s +:+ t) = bare_pipes e s + bare_pipes (ends_escaped e s) t.
Proof.
  revert e. induction s as [|c s IH]; intros e; [by rewrite append_nil_l|].
  rewrite append_cons. cbn [bare_pipes ends_escaped]. rewrite IH. lia.
Qed.

Lemma bare_pipes_escaped e s : bare_pipes e (replace_char "|" "\|" s) = 0.
Proof.
  revert e. induction s as [|c s IH]; intros e; [done|]. cbn [replace_char].
  destruct (Ascii.eqb c "|") eqn:E.
  - rewrite !append_cons, append_nil_l. cbn [bare_pipes]. rewrite IH.
    by destruct e.
  - cbn [bare_pipes]. by rewrite E, IH.
Qed.

Lemma bare_pipes_separator e t :
  bare_pipes e (" | " +:+ t) = 1 + bare_pipes false t.
Proof. rewrite !append_cons, append_nil_l. by destruct e. Qed.

Lemma occurs_replace_other c old new s :
  occurs c new = false → occurs c s = false → occurs c (replace_char old new s) = false.
Proof.
  intros Hnew. induction s as [|x s IH]; [done|]. cbn [occurs replace_char].
  intros [Hx Hs]%orb_false_iff. destruct (Ascii.eqb x old).
  - by rewrite occurs_append, Hnew, IH.
  - cbn [occurs]. by rewrite Hx, IH.
Qed.

Lemma occurs_replace_old old new s :
  occurs old new = false → occurs old (replace_char old new s) = false.
Proof.
  intros Hnew. induction s as [|x s IH]; [done|]. cbn [replace_char].
  destruct (Ascii.eqb x old) eqn:E.
  - by rewrite occurs_append, Hnew, IH.
  - cbn [occurs]. by rewrite E, IH.
Qed.

Lemma occurs_cell value : occurs "010" (cell value) = false.
Proof.
  unfold cell. apply occurs_replace_other; [done|]. by apply occurs_replace_old.
Qed.

(** X24. A row of the framework comparison table holds no line feed
    and exactly five [|] that do not directly follow a backslash, the
    five that delimit its four cells, whatever the texts of the cells. *)
Theorem table_row_shape benchmark val1 val2 justification :
  occurs "010" (table_row benchmark val1 val2 justification) = false ∧
  bare_pipes false (table_row benchmark val1 val2 justification) = 5.
Proof.
  unfold table_row. split.
  - rewrite !occurs_append, !occurs_cell. done.
  - rewrite (append_cons "|"), (append_cons " "), append_nil_l. cbn [bare_pipes].
    change (Ascii.eqb " " "\") with false.
    unfold cell.
    rewrite bare_pipes_app, bare_pipes_escaped, bare_pipes_separator.
    rewrite bare_pipes_app, bare_pipes_escaped, bare_pipes_separator.
    rewrite bare_pipes_app, bare_pipes_escaped, bare_pipes_separator.
    rewrite bare_pipes_app, bare_pipes_escaped.
    by destruct (ends_escaped _ _).
Qed.

End TableFacts.
